(** * doc-analyzer: the document analysis and similarity engine

    A shallow embedding of the analyzer service of doc-analyzer:

    - package [analyzer]: [TextAnalyzer] (text_analyzer.go) and
      [PlagiarismChecker];
    - package [service]: [AnalysisService], over the interfaces of the
      packages [repository], [storage] and [clients].

    Go strings are byte sequences: they are modelled by [string] (a list of
    8-bit [ascii]).  Go [int] values that hold lengths are modelled in [Z];
    the [int32] conversions of [AnalyzeText] are written out with their
    wrap-around.  [float64] is modelled by the primitive binary64 floats.
    A run-time panic is [None]. *)

From Stdlib Require Import ZArith Ascii String List Floats Uint63.
From stdpp Require Import base option list gmap strings pretty.

Set Warnings "-inexact-float,-clear-no-such-hyp".

Local Open Scope string_scope.
Local Open Scope list_scope.
Local Open Scope Z_scope.

(* ===================================================================== *)
(** * Go runtime and standard library                                     *)
(* ===================================================================== *)

Module Go.

(** ** Bytes and runes *)

Definition byte_val (c : ascii) : Z := Z.of_N (N_of_ascii c).
Definition byte_of (z : Z) : ascii := ascii_of_N (Z.to_N (z mod 256)).

(** A rune is a Unicode code point, an [int32] in Go. *)
Definition rune := Z.

Definition RuneError : rune := 65533.   (* U+FFFD *)
Definition MaxRune   : rune := 1114111. (* U+10FFFF *)

Definition in_range (lo hi : Z) (b : ascii) : bool :=
  (lo <=? byte_val b) && (byte_val b <=? hi).

Definition cont (b : ascii) : bool := in_range 128 191 b.

(** [utf8.DecodeRuneInString]: the first rune of [s] and its width in
    bytes; an invalid or truncated encoding yields [(RuneError, 1)].
    The second-byte ranges are those of the [acceptRanges] table. *)
Definition DecodeRuneInString (s : string) : rune * nat :=
  match s with
  | EmptyString => (RuneError, 0%nat)
  | String b0 s1 =>
    let v0 := byte_val b0 in
    if v0 <? 128 then (v0, 1%nat)
    else if (v0 <? 194) || (244 <? v0) then (RuneError, 1%nat)
    else
      let '(lo, hi) :=
        if v0 =? 224 then (160, 191)
        else if v0 =? 237 then (128, 159)
        else if v0 =? 240 then (144, 191)
        else if v0 =? 244 then (128, 143)
        else (128, 191) in
      match s1 with
      | EmptyString => (RuneError, 1%nat)
      | String b1 s2 =>
        if negb (in_range lo hi b1) then (RuneError, 1%nat)
        else if v0 <? 224 then
          (Z.lor (Z.shiftl (Z.land v0 31) 6) (Z.land (byte_val b1) 63), 2%nat)
        else
          match s2 with
          | EmptyString => (RuneError, 1%nat)
          | String b2 s3 =>
            if negb (cont b2) then (RuneError, 1%nat)
            else if v0 <? 240 then
              (Z.lor (Z.shiftl (Z.land v0 15) 12)
                 (Z.lor (Z.shiftl (Z.land (byte_val b1) 63) 6)
                        (Z.land (byte_val b2) 63)), 3%nat)
            else
              match s3 with
              | EmptyString => (RuneError, 1%nat)
              | String b3 _ =>
                if negb (cont b3) then (RuneError, 1%nat)
                else
                  (Z.lor (Z.shiftl (Z.land v0 7) 18)
                     (Z.lor (Z.shiftl (Z.land (byte_val b1) 63) 12)
                        (Z.lor (Z.shiftl (Z.land (byte_val b2) 63) 6)
                               (Z.land (byte_val b3) 63))), 4%nat)
              end
          end
      end
  end.

(** [for _, r := range s]: the runes of [s] from left to right, each with
    the bytes it was decoded from.  [skip] counts the continuation bytes of
    the rune being consumed. *)
Fixpoint range_from (skip : nat) (s : string) : list (rune * string) :=
  match s with
  | EmptyString => []
  | String b s' =>
    match skip with
    | S k => range_from k s'
    | O =>
      let '(r, w) := DecodeRuneInString s in
      (r, substring 0 w s) :: range_from (Nat.pred w) s'
    end
  end.

Definition range_string (s : string) : list (rune * string) := range_from 0 s.

(** [utf8.AppendRune] / [strings.Builder.WriteRune]. *)
Definition EncodeRune (r : rune) : string :=
  let b z := byte_of z in
  if (0 <=? r) && (r <? 128) then String (b r) EmptyString
  else if (0 <=? r) && (r <? 2048) then
    String (b (Z.lor 192 (Z.shiftr r 6)))
      (String (b (Z.lor 128 (Z.land r 63))) EmptyString)
  else if (r <? 0) || (MaxRune <? r) || ((55296 <=? r) && (r <=? 57343)) then
    String (b 239) (String (b 191) (String (b 189) EmptyString))
  else if r <? 65536 then
    String (b (Z.lor 224 (Z.shiftr r 12)))
      (String (b (Z.lor 128 (Z.land (Z.shiftr r 6) 63)))
         (String (b (Z.lor 128 (Z.land r 63))) EmptyString))
  else
    String (b (Z.lor 240 (Z.shiftr r 18)))
      (String (b (Z.lor 128 (Z.land (Z.shiftr r 12) 63)))
         (String (b (Z.lor 128 (Z.land (Z.shiftr r 6) 63)))
            (String (b (Z.lor 128 (Z.land r 63))) EmptyString))).

(** ** Package unicode *)

(** [unicode.IsSpace]: the White_Space property. *)
Definition IsSpace (r : rune) : bool :=
  ((9 <=? r) && (r <=? 13)) || (r =? 32) || (r =? 133) || (r =? 160)
  || (r =? 5760) || ((8192 <=? r) && (r <=? 8202))
  || (r =? 8232) || (r =? 8233) || (r =? 8239) || (r =? 8287) || (r =? 12288).

(** The range tables of package unicode beyond Latin-1 are data of the Go
    distribution, not of this repository: the development is parametric
    in them.  [Is_Punct r] is [unicode.Is(unicode.Punct, r)] and
    [To_LowerCase r] is [unicode.To(unicode.LowerCase, r)]. *)
Class UnicodeTables := {
  Is_Punct : rune -> bool;
  To_LowerCase : rune -> rune
}.

(** The Latin-1 punctuation of the [properties] array (category P):
    U+0021..23, 25..2A, 2C..2F, 3A, 3B, 3F, 40, 5B..5D, 5F, 7B, 7D and
    U+00A1, A7, AB, B6, B7, BB, BF.  The symbols U+0024, 2B, 3C..3E, 5E,
    60, 7C, 7E are of category S and are not punctuation. *)
Definition latin1_punct (r : rune) : bool :=
  ((33 <=? r) && (r <=? 35)) || ((37 <=? r) && (r <=? 42))
  || ((44 <=? r) && (r <=? 47)) || (r =? 58) || (r =? 59) || (r =? 63)
  || (r =? 64) || ((91 <=? r) && (r <=? 93)) || (r =? 95) || (r =? 123)
  || (r =? 125) || (r =? 161) || (r =? 167) || (r =? 171) || (r =? 182)
  || (r =? 183) || (r =? 187) || (r =? 191).

Section Unicode.
Context `{UnicodeTables}.

(** [unicode.IsPunct]. *)
Definition IsPunct (r : rune) : bool :=
  if (0 <=? r) && (r <=? 255) then latin1_punct r else Is_Punct r.

(** [unicode.ToLower]. *)
Definition ToLower_rune (r : rune) : rune :=
  if r <=? 127 then (if (65 <=? r) && (r <=? 90) then r + 32 else r)
  else To_LowerCase r.

(** [strings.ToLower]: [strings.Map(unicode.ToLower, s)]; an invalid byte
    is decoded as [RuneError] and written back as its encoding, and a rune
    mapped to a negative value is dropped. *)
Definition ToLower (s : string) : string :=
  String.concat ""
    (map (fun rb : rune * string =>
            let r := ToLower_rune (fst rb) in
            if 0 <=? r then EncodeRune r else "")
         (range_string s)).

End Unicode.

(** ** Package strings *)

(** [strings.Join]. *)
Definition Join (elems : list string) (sep : string) : string :=
  String.concat sep elems.

(** [strings.Fields]: the maximal runs of runes that are not white space.
    [cur] holds the bytes of the field being read, if any. *)
Fixpoint fields_go (cur : option string) (rs : list (rune * string)) : list string :=
  match rs with
  | [] => match cur with Some w => [w] | None => [] end
  | (r, bs) :: rs' =>
    if IsSpace r then
      match cur with
      | Some w => w :: fields_go None rs'
      | None => fields_go None rs'
      end
    else fields_go (Some (default "" cur +:+ bs)) rs'
  end.

Definition Fields (s : string) : list string := fields_go None (range_string s).

Fixpoint drop_while {A} (p : A -> bool) (l : list A) : list A :=
  match l with
  | [] => []
  | x :: l' => if p x then drop_while p l' else l
  end.

(** [strings.TrimSpace]: leading and trailing white space removed. *)
Definition TrimSpace (s : string) : string :=
  let sp := fun rb : rune * string => IsSpace (fst rb) in
  let l := drop_while sp (range_string s) in
  String.concat "" (map snd (rev (drop_while sp (rev l)))).

(** [strings.Split(s, sep)] for a non-empty separator: [s] is cut at the
    successive leftmost occurrences of [sep], which do not overlap.  [cur]
    is the segment being read (reversed) and [skip] counts the bytes of a
    separator still to be consumed. *)
Fixpoint split_go (sep : string) (skip : nat) (cur : list ascii) (s : string)
  : list string :=
  match s with
  | EmptyString => [string_of_list_ascii (rev cur)]
  | String b s' =>
    match skip with
    | S k => split_go sep k cur s'
    | O =>
      if String.prefix sep s
      then string_of_list_ascii (rev cur)
             :: split_go sep (Nat.pred (String.length sep)) [] s'
      else split_go sep 0 (b :: cur) s'
    end
  end.

Definition Split (s sep : string) : list string := split_go sep 0 [] s.

(** ** Package regexp *)

(** The Perl class [\s] of Go regular expressions: tab, newline, form
    feed, carriage return and space (no vertical tab). *)
Definition re_space (b : ascii) : bool :=
  let v := byte_val b in
  (v =? 9) || (v =? 10) || (v =? 12) || (v =? 13) || (v =? 32).

(** [regexp.MustCompile(`\s+`).ReplaceAllString(text, repl)]: every maximal
    run of [\s] bytes is replaced by [repl].  [in_run] tells that the
    previous byte belonged to a run. *)
Fixpoint replace_runs (repl : string) (in_run : bool) (s : string) : string :=
  match s with
  | EmptyString => EmptyString
  | String b s' =>
    if re_space b then
      if in_run then replace_runs repl true s'
      else repl +:+ replace_runs repl true s'
    else String b (replace_runs repl false s')
  end.

(** ** Integer conversions *)

(** [int32(x)] for an [int] x: the low 32 bits, read as two's complement. *)
Definition int32 (x : Z) : Z := (x + 2147483648) mod 4294967296 - 2147483648.

(** [len] of a string and of a slice, as Go [int]s. *)
Definition len_string (s : string) : Z := Z.of_nat (String.length s).
Definition len {A} (l : list A) : Z := Z.of_nat (length l).

(** ** Package crypto/sha256 and encoding/hex *)

Module SHA256.

Definition w32 (x : Z) : Z := x mod 4294967296.
Definition rotr (n x : Z) : Z :=
  Z.lor (Z.shiftr x n) (w32 (Z.shiftl x (32 - n))).
Definition not32 (x : Z) : Z := 4294967295 - x.

Definition Ch (x y z : Z) : Z := Z.lxor (Z.land x y) (Z.land (not32 x) z).
Definition Maj (x y z : Z) : Z :=
  Z.lxor (Z.lxor (Z.land x y) (Z.land x z)) (Z.land y z).
Definition Sigma0 (x : Z) : Z := Z.lxor (Z.lxor (rotr 2 x) (rotr 13 x)) (rotr 22 x).
Definition Sigma1 (x : Z) : Z := Z.lxor (Z.lxor (rotr 6 x) (rotr 11 x)) (rotr 25 x).
Definition sigma0 (x : Z) : Z := Z.lxor (Z.lxor (rotr 7 x) (rotr 18 x)) (Z.shiftr x 3).
Definition sigma1 (x : Z) : Z := Z.lxor (Z.lxor (rotr 17 x) (rotr 19 x)) (Z.shiftr x 10).

(** The first 64 primes. *)
Definition is_prime (n : Z) : bool :=
  forallb (fun d => negb (n mod d =? 0)) (seqZ 2 (n - 2)).
Definition primes : list Z := List.filter is_prime (seqZ 2 310).

(** The largest [r] below [2 ^ bits] with [r ^ 3 <= n]. *)
Fixpoint cube_root (bits : nat) (n r : Z) : Z :=
  match bits with
  | O => r
  | S b =>
    let r' := r + 2 ^ Z.of_nat b in
    if r' * r' * r' <=? n then cube_root b n r' else cube_root b n r
  end.

(** The round constants: the first 32 bits of the fractional parts of the
    cube roots of the first 64 primes. *)
Definition K : list Z :=
  Eval vm_compute in map (fun p => w32 (cube_root 35 (p * 2 ^ 96) 0)) primes.

(** The initial hash value: the first 32 bits of the fractional parts of
    the square roots of the first 8 primes. *)
Definition H0 : list Z :=
  Eval vm_compute in map (fun p => w32 (Z.sqrt (p * 2 ^ 64))) (take 8 primes).

(** Big-endian bytes of [x], [n] of them. *)
Fixpoint be_bytes (n : nat) (x : Z) : list Z :=
  match n with
  | O => []
  | S n' => (Z.shiftr x (8 * Z.of_nat n')) mod 256 :: be_bytes n' x
  end.

Definition be_word (bs : list Z) : Z := foldl (fun acc b => acc * 256 + b) 0 bs.

(** The message followed by the bit 1, zero bytes up to 56 modulo 64, and
    the length in bits on 64 bits. *)
Definition pad (msg : list Z) : list Z :=
  let l := Z.of_nat (length msg) in
  let zeros := Z.to_nat ((55 - l) mod 64) in
  msg ++ [128] ++ repeat 0 zeros ++ be_bytes 8 (8 * l).

(** The message schedule: [rev_w] holds the words so far, latest first. *)
Fixpoint schedule (n : nat) (rev_w : list Z) : list Z :=
  match n with
  | O => rev rev_w
  | S n' =>
    let w i := nth i rev_w 0 in
    schedule n' (w32 (sigma1 (w 1%nat) + w 6%nat + sigma0 (w 14%nat) + w 15%nat) :: rev_w)
  end.

Definition round (st : list Z) (kw : Z * Z) : list Z :=
  match st with
  | [a; b; c; d; e; f; g; h] =>
    let t1 := h + Sigma1 e + Ch e f g + fst kw + snd kw in
    let t2 := Sigma0 a + Maj a b c in
    [w32 (t1 + t2); a; b; c; w32 (d + t1); e; f; g]
  | _ => st
  end.

Fixpoint words_of (n : nat) (bs : list Z) : list Z :=
  match n with
  | O => []
  | S n' => be_word (take 4 bs) :: words_of n' (drop 4 bs)
  end.

Definition compress (st : list Z) (block : list Z) : list Z :=
  let w := schedule 48 (rev (words_of 16 block)) in
  let st' := foldl round st (combine K w) in
  map (fun p => w32 (fst p + snd p)) (combine st st').

Fixpoint blocks (n : nat) (st : list Z) (bs : list Z) : list Z :=
  match n with
  | O => st
  | S n' => blocks n' (compress st (take 64 bs)) (drop 64 bs)
  end.

(** [sha256.Sum256]: the 32 bytes of the digest. *)
Definition Sum256 (msg : string) : list Z :=
  let bs := pad (map byte_val (list_ascii_of_string msg)) in
  let st := blocks (Nat.div (length bs) 64) H0 bs in
  concat (map (be_bytes 4) st).

End SHA256.

Definition hex_digit (v : Z) : ascii :=
  if v <? 10 then byte_of (48 + v) else byte_of (87 + v).

(** [hex.EncodeToString]. *)
Definition EncodeToString (bs : list Z) : string :=
  string_of_list_ascii
    (concat (map (fun b => [hex_digit (b / 16); hex_digit (b mod 16)]) bs)).

(** ** float64 *)

(** [float64(x)] for an [int] x holding a length ([0 <= x < 2^63]). *)
Definition float64_of_int (x : Z) : float := PrimFloat.of_uint63 (Uint63.of_Z x).

(** ** Maps *)

(** Indexing a [map[string]bool] or a [map[string]int]: the zero value for
    an absent key. *)
Definition map_index_bool (m : gmap string bool) (k : string) : bool :=
  default false (m !! k).
Definition map_index_int (m : gmap string Z) (k : string) : Z :=
  default 0 (m !! k).

(** [len(m)] of a map. *)
Definition len_map {V} (m : gmap string V) : Z := Z.of_nat (size m).

(** The order in which [for k, v := range m] visits a map is not specified
    by the language: a range order is any function that lists the entries
    of a map, each once. *)
Class RangeOrder := {
  range_map : forall {V}, gmap string V -> list (string * V);
  range_map_perm : forall V (m : gmap string V), range_map m ≡ₚ map_to_list m
}.

End Go.

(* ===================================================================== *)
(** * TextAnalyzer (package analyzer, text_analyzer.go)                   *)
(* ===================================================================== *)

Import Go.

(** [StopWords map[string]bool]. *)
Record TextAnalyzer := { StopWords : gmap string bool }.

Definition NewTextAnalyzer : TextAnalyzer :=
  {| StopWords := list_to_map (map (fun w => (w, true))
      [ "a"; "an"; "the"; "and"; "or"; "but";
        "is"; "are"; "was"; "were"; "be"; "been";
        "in"; "on"; "at"; "to"; "for"; "with";
        "by"; "of"; "about"; "from";
        "this"; "that"; "these"; "those";
        "it"; "its"; "it's"; "they"; "them"; "their" ]) |}.

(** [AnalyzeText] returns [(paragraphCount, wordCount, characterCount)]. *)
Definition AnalyzeText (a : TextAnalyzer) (content : string) : Z * Z * Z :=
  let paragraphs := Split content (String "010" (String "010" EmptyString)) in
  let nonEmptyParagraphs :=
    List.filter (fun p => negb (String.eqb (TrimSpace p) "")) paragraphs in
  let paragraphCount := int32 (len nonEmptyParagraphs) in
  let words := Fields content in
  let wordCount := int32 (len words) in
  let characterCount := int32 (len_string content) in
  (paragraphCount, wordCount, characterCount).

Definition GetWords (a : TextAnalyzer) (content : string) : list string :=
  Fields content.

Section SignificantWords.
Context `{UnicodeTables}.

Definition GetSignificantWords (a : TextAnalyzer) (content : string) : list string :=
  let content := ToLower content in
  let content :=
    String.concat ""
      (map (fun rb : rune * string =>
              if negb (IsPunct (fst rb)) then EncodeRune (fst rb) else " ")
           (range_string content)) in
  let words := Fields content in
  List.filter (fun word => negb (map_index_bool (StopWords a) word)) words.

End SignificantWords.

(** A slice expression [s[lo:hi]]; out-of-range bounds panic ([None]). *)
Definition slice {A} (s : list A) (lo hi : Z) : option (list A) :=
  if (0 <=? lo) && (lo <=? hi) && (hi <=? len s)
  then Some (take (Z.to_nat (hi - lo)) (drop (Z.to_nat lo) s))
  else None.

(** The loop [for i := 0; i <= len(words)-n; i++] of [GetNGrams], run for
    [fuel] iterations from index [i]. *)
Fixpoint ngrams_loop (words : list string) (n : Z) (fuel : nat) (i : Z)
  : option (list string) :=
  match fuel with
  | O => Some []
  | S fuel' =>
    w ← slice words i (i + n);
    rest ← ngrams_loop words n fuel' (i + 1);
    Some (Join w " " :: rest)
  end.

(** [GetNGrams]; [None] is the run-time panic of an out-of-range slice. *)
Definition GetNGrams (a : TextAnalyzer) (content : string) (n : Z)
  : option (list string) :=
  let words := GetWords a content in
  if len words <? n then Some []
  else ngrams_loop words n (Z.to_nat (len words - n + 1)) 0.

Definition RemoveExcessWhitespace (a : TextAnalyzer) (text : string) : string :=
  replace_runs " " false text.

(* ===================================================================== *)
(** * PlagiarismChecker (package analyzer)                                 *)
(* ===================================================================== *)

Record PlagiarismChecker := {
  SimilarityThreshold : float;
  NGramSize : Z;
  textAnalyzer : TextAnalyzer
}.

Definition NewPlagiarismChecker : PlagiarismChecker :=
  {| SimilarityThreshold := 0.3;
     NGramSize := 3;
     textAnalyzer := NewTextAnalyzer |}.

(** [calculateHash]: the SHA-256 digest of the content, in hexadecimal. *)
Definition calculateHash (c : PlagiarismChecker) (content : string) : string :=
  EncodeToString (SHA256.Sum256 content).

(** [generateNGrams]: the frequency map of the n-grams of [text]. *)
Definition generateNGrams (c : PlagiarismChecker) (text : string) (n : Z)
  : option (gmap string Z) :=
  ngrams ← GetNGrams (textAnalyzer c) text n;
  Some (foldl (fun ngramFreq ngram =>
                 <[ngram := map_index_int ngramFreq ngram + 1]> ngramFreq)
              ∅ ngrams).

Section Checker.
Context `{UnicodeTables} `{RangeOrder}.

Definition preprocessText (c : PlagiarismChecker) (text : string) : string :=
  let significantWords := GetSignificantWords (textAnalyzer c) text in
  let processedText := Join significantWords " " in
  RemoveExcessWhitespace (textAnalyzer c) processedText.

(** The set built by [for ngram := range ngrams { set[ngram] = true }]. *)
Definition set_of_ngrams (ngrams : gmap string Z) : gmap string bool :=
  foldl (fun set kv => <[fst kv := true]> set) ∅ (range_map ngrams).

Definition calculateJaccardSimilarity (c : PlagiarismChecker)
  (ngrams1 ngrams2 : gmap string Z) : float :=
  let set1 := set_of_ngrams ngrams1 in
  let set2 := set_of_ngrams ngrams2 in
  let intersection :=
    foldl (fun intersection kv =>
             if map_index_bool set2 (fst kv) then intersection + 1
             else intersection)
          0 (range_map set1) in
  let union := len_map set1 + len_map set2 - intersection in
  if union =? 0 then 0%float
  else PrimFloat.div (float64_of_int intersection) (float64_of_int union).

(** The body of the loop of [CheckPlagiarism], for one entry of
    [otherContents]: the identifiers found so far, extended or not. *)
Definition check_one (c : PlagiarismChecker) (processedContent : string)
  (currentNGrams : gmap string Z) (similarFileIDs : list string)
  (entry : string * string) : option (list string) :=
  let '(fileID, otherContent) := entry in
  let processedOtherContent := preprocessText c otherContent in
  if String.eqb (calculateHash c processedContent)
                (calculateHash c processedOtherContent)
  then Some (similarFileIDs ++ [fileID])
  else
    otherNGrams ← generateNGrams c processedOtherContent (NGramSize c);
    let similarity := calculateJaccardSimilarity c currentNGrams otherNGrams in
    if PrimFloat.leb (SimilarityThreshold c) similarity
    then Some (similarFileIDs ++ [fileID])
    else Some similarFileIDs.

Fixpoint check_loop (c : PlagiarismChecker) (processedContent : string)
  (currentNGrams : gmap string Z) (entries : list (string * string))
  (similarFileIDs : list string) : option (list string) :=
  match entries with
  | [] => Some similarFileIDs
  | entry :: rest =>
    ids ← check_one c processedContent currentNGrams similarFileIDs entry;
    check_loop c processedContent currentNGrams rest ids
  end.

(** [CheckPlagiarism] returns [(isMatch, similarFileIDs)]; [None] is a
    run-time panic (a negative [NGramSize]). *)
Definition CheckPlagiarism (c : PlagiarismChecker) (content : string)
  (otherContents : gmap string string) : option (bool * list string) :=
  let processedContent := preprocessText c content in
  currentNGrams ← generateNGrams c processedContent (NGramSize c);
  similarFileIDs ←
    check_loop c processedContent currentNGrams (range_map otherContents) [];
  Some (0 <? len similarFileIDs, similarFileIDs).

End Checker.

(** ** The similarity measure, as the specification words it *)

(** Jaccard similarity of two sets: the size of the intersection over the
    size of the union, and 0 when the union is empty. *)
Definition jaccard (A B : gset string) : float :=
  if decide (size (A ∪ B) = 0%nat) then 0%float
  else PrimFloat.div (float64_of_int (Z.of_nat (size (A ∩ B))))
                     (float64_of_int (Z.of_nat (size (A ∪ B)))).

(** A candidate matches: equal hashes of the normalized strings, or a
    similarity of the n-gram sets at or above the threshold. *)
Definition candidate_matches `{UnicodeTables} `{RangeOrder}
  (c : PlagiarismChecker) (content other : string) : Prop :=
  calculateHash c (preprocessText c content)
    = calculateHash c (preprocessText c other)
  \/ exists g1 g2,
       generateNGrams c (preprocessText c content) (NGramSize c) = Some g1
       /\ generateNGrams c (preprocessText c other) (NGramSize c) = Some g2
       /\ PrimFloat.leb (SimilarityThreshold c) (jaccard (dom g1) (dom g2)) = true.

(* ===================================================================== *)
(** * AnalysisService (package service)                                    *)
(* ===================================================================== *)

(** ** Errors *)

(** Go [error] values: [errors.New(msg)] and [fmt.Errorf("msg: %w", err)]. *)
Inductive error :=
| errors_New (msg : string)
| Errorf (msg : string) (wrapped : error).

(** [err.Error()]. *)
Fixpoint Error (e : error) : string :=
  match e with
  | errors_New msg => msg
  | Errorf msg wrapped => msg +:+ ": " +:+ Error wrapped
  end.

(** A call that returns [(value, err)]: the value is meaningful when [err]
    is nil, and is the zero value otherwise, as on every error path of the
    repository ([GetAnalysisResult] returns [0, 0, 0, false, ""] with its
    error).  A call that returns only [error] answers [option error]. *)
Inductive result (A : Type) :=
| Ok (a : A)
| Err (err : error).
Arguments Ok {A} a.
Arguments Err {A} err.

(** ** The collaborators *)

(** A row of [analysis_results], as [GetAnalysisResult] returns it. *)
Record StoredResult := {
  st_paragraphCount : Z;
  st_wordCount : Z;
  st_characterCount : Z;
  st_isPlagiarism : bool;
  st_wordCloudLocation : string
}.

(** The methods of [repository.AnalysisRepository], [storage.WordCloudStorage]
    and [clients.FileStoringClientInterface] that the service calls, the
    HTTP request of [WordCloudGenerator.GenerateWordCloud] and the standard
    output of [fmt.Printf], each with the type of its answer.  A byte slice
    is a [string]. *)
Inductive Op : Type -> Type :=
| GetAnalysisResult (fileID : string) : Op (result StoredResult)
| SaveAnalysisResult (fileID : string)
    (paragraphCount wordCount characterCount : Z)
    (isPlagiarism : bool) (wordCloudLocation : string) : Op (option error)
| SaveSimilarFile (fileID similarFileID : string) : Op (option error)
| GetSimilarFiles (fileID : string) : Op (result (list string))
| GetAllFileIDs : Op (result (list string))
| GetFile (fileID : string) : Op (result (string * string))
| GenerateWordCloud (text : string) : Op (result (string * string))
| SaveWordCloud (location : string) (image : string) : Op (option error)
| GetWordCloud (location : string) : Op (result string)
| Printf (output : string) : Op unit.

(** What a run of the service does, in order: the calls to collaborators
    with their answers, and the calls of [CheckPlagiarism] with the content
    and the corpus it is given. *)
Inductive Event :=
| EvCall {X : Type} (op : Op X) (answer : X)
| EvCheckPlagiarism (content : string) (otherContents : gmap string string).

(** Programs over the collaborators. *)
Inductive Prog (A : Type) : Type :=
| Ret (a : A)
| Panic
| Call {X : Type} (op : Op X) (k : X -> Prog A)
| Mark (e : Event) (k : Prog A).
Arguments Ret {A} a.
Arguments Panic {A}.
Arguments Call {A X} op k.
Arguments Mark {A} e k.

Notation "x ← 'call' op ; k" := (Call op (fun x => k))
  (at level 20, op at level 100, k at level 200, right associativity,
   only parsing).
Notation "'call_' op ; k" := (Call op (fun _ => k))
  (at level 20, op at level 100, k at level 200, right associativity,
   only parsing).

(** An implementation of the collaborators over a state [W]. *)
Definition Handler (W : Type) := forall X, Op X -> W -> X * W.

(** [run h p w]: the value [p] returns ([None] for a panic), the final state
    and the trace. *)
Fixpoint run {W A} (h : Handler W) (p : Prog A) (w : W)
  : option A * W * list Event :=
  match p with
  | Ret a => (Some a, w, [])
  | Panic => (None, w, [])
  | Call op k =>
    let '(x, w1) := h _ op w in
    let '(a, w2, tr) := run h (k x) w1 in
    (a, w2, EvCall op x :: tr)
  | Mark e k =>
    let '(a, w2, tr) := run h k w in
    (a, w2, e :: tr)
  end.

(** ** What a trace shows *)

(** The rows handed to [SaveAnalysisResult], in order. *)
Definition save_call (ev : Event) : option (string * StoredResult) :=
  match ev with
  | EvCall op _ =>
    match op with
    | SaveAnalysisResult fileID p w c plag loc =>
      Some (fileID, {| st_paragraphCount := p; st_wordCount := w;
                       st_characterCount := c; st_isPlagiarism := plag;
                       st_wordCloudLocation := loc |})
    | _ => None
    end
  | EvCheckPlagiarism _ _ => None
  end.

Definition save_calls (tr : list Event) : list (string * StoredResult) :=
  omap save_call tr.

(** The identifiers handed to [GetFile], in order. *)
Definition fetch_call (ev : Event) : option string :=
  match ev with
  | EvCall op _ => match op with GetFile fileID => Some fileID | _ => None end
  | EvCheckPlagiarism _ _ => None
  end.

Definition fetches (tr : list Event) : list string := omap fetch_call tr.

(** The content of a file that a successful [GetFile] returned. *)
Definition fetched_content (ev : Event) : option (string * string) :=
  match ev with
  | EvCall op answer =>
    match op in Op X return X -> option (string * string) with
    | GetFile fileID => fun answer =>
      match answer with
      | Ok (_, content) => Some (fileID, content)
      | Err _ => None
      end
    | _ => fun _ => None
    end answer
  | EvCheckPlagiarism _ _ => None
  end.

(** The map that the successful fetches of a trace fill, in order. *)
Definition fill_corpus (m : gmap string string) (tr : list Event)
  : gmap string string :=
  foldl (fun m ev => match fetched_content ev with
                     | Some (k, v) => <[k := v]> m
                     | None => m
                     end) m tr.

Definition corpus_of (tr : list Event) : gmap string string :=
  fill_corpus ∅ tr.

(** The calls of [GetAllFileIDs]. *)
Definition listing_call (ev : Event) : option unit :=
  match ev with
  | EvCall op _ => match op with GetAllFileIDs => Some tt | _ => None end
  | EvCheckPlagiarism _ _ => None
  end.

Definition listings (tr : list Event) : list unit := omap listing_call tr.

(** The similarity checks: the content and the corpus of each. *)
Definition comparison (ev : Event) : option (string * gmap string string) :=
  match ev with
  | EvCall _ _ => None
  | EvCheckPlagiarism content otherContents => Some (content, otherContents)
  end.

Definition comparisons (tr : list Event) : list (string * gmap string string) :=
  omap comparison tr.

(** The pairs handed to [SaveSimilarFile], in order. *)
Definition edge_call (ev : Event) : option (string * string) :=
  match ev with
  | EvCall op _ =>
    match op with
    | SaveSimilarFile fileID similarFileID => Some (fileID, similarFileID)
    | _ => None
    end
  | EvCheckPlagiarism _ _ => None
  end.

Definition edge_calls (tr : list Event) : list (string * string) :=
  omap edge_call tr.

(** What [SaveAnalysisResult] answered, call by call: [None] is success. *)
Definition save_answer (ev : Event) : option (option error) :=
  match ev with
  | EvCall op answer =>
    match op in Op X return X -> option (option error) with
    | SaveAnalysisResult _ _ _ _ _ _ => fun answer => Some answer
    | _ => fun _ => None
    end answer
  | EvCheckPlagiarism _ _ => None
  end.

Definition save_answers (tr : list Event) : list (option error) :=
  omap save_answer tr.

(** The kind of an event: the method called, or the similarity check. *)
Inductive Kind :=
| KGetAnalysisResult | KSaveAnalysisResult | KSaveSimilarFile
| KGetSimilarFiles | KGetAllFileIDs | KGetFile | KGenerateWordCloud
| KSaveWordCloud | KGetWordCloud | KPrintf | KCheckPlagiarism.

Definition kind_of (ev : Event) : Kind :=
  match ev with
  | EvCall op _ =>
    match op with
    | GetAnalysisResult _ => KGetAnalysisResult
    | SaveAnalysisResult _ _ _ _ _ _ => KSaveAnalysisResult
    | SaveSimilarFile _ _ => KSaveSimilarFile
    | GetSimilarFiles _ => KGetSimilarFiles
    | GetAllFileIDs => KGetAllFileIDs
    | GetFile _ => KGetFile
    | GenerateWordCloud _ => KGenerateWordCloud
    | SaveWordCloud _ _ => KSaveWordCloud
    | GetWordCloud _ => KGetWordCloud
    | Printf _ => KPrintf
    end
  | EvCheckPlagiarism _ _ => KCheckPlagiarism
  end.

Definition kinds (tr : list Event) : list Kind := map kind_of tr.

(** [errors.Is(e, cause)]: [e] is [cause], wrapped any number of times. *)
Fixpoint wraps (e cause : error) : Prop :=
  e = cause \/ match e with
               | errors_New _ => False
               | Errorf _ wrapped => wraps wrapped cause
               end.

(** ** The service *)

Record AnalysisService := {
  s_textAnalyzer : TextAnalyzer;
  s_plagiarismChecker : PlagiarismChecker
}.

(** The values [AnalyzeFile] returns. *)
Record Analysis := {
  paragraphCount : Z;
  wordCount : Z;
  characterCount : Z;
  isPlagiarism : bool;
  similarFileIDs : list string;
  wordCloudLocation : string;
  err : option error
}.

(** The row of [analysis_results] that holds a result. *)
Definition row_of (r : Analysis) : StoredResult :=
  {| st_paragraphCount := paragraphCount r;
     st_wordCount := wordCount r;
     st_characterCount := characterCount r;
     st_isPlagiarism := isPlagiarism r;
     st_wordCloudLocation := wordCloudLocation r |}.

(** The zero results that go with an error. *)
Definition failed (e : error) : Analysis :=
  {| paragraphCount := 0; wordCount := 0; characterCount := 0;
     isPlagiarism := false; similarFileIDs := []; wordCloudLocation := "";
     err := Some e |}.

(** The loop that fetches the content of the other files. *)
Fixpoint fetch_others (fileID : string) (otherFileIDs : list string)
  (otherContents : gmap string string) : Prog (gmap string string) :=
  match otherFileIDs with
  | [] => Ret otherContents
  | otherFileID :: rest =>
    if String.eqb otherFileID fileID then
      fetch_others fileID rest otherContents
    else
      r ← call GetFile otherFileID;
      match r with
      | Err err =>
        call_ Printf ("Failed to get content for file " +:+ otherFileID
                       +:+ ": " +:+ Error err +:+ String "010" "");
        fetch_others fileID rest otherContents
      | Ok (_, otherContent) =>
        fetch_others fileID rest (<[otherFileID := otherContent]> otherContents)
      end
  end.

(** The word-cloud branch: an early return of the request
    ([inl]), or the location to record ([inr]). *)
Definition word_cloud (fileID : string) (generateWordCloud : bool)
  (wordCloudLocation : string) : Prog (Analysis + string) :=
  if generateWordCloud then
    r ← call GetFile fileID;
    match r with
    | Err err => Ret (inl (failed (Errorf "failed to get file content" err)))
    | Ok (_, text) =>
      g ← call GenerateWordCloud text;
      match g with
      | Err err =>
        call_ Printf ("Failed to generate word cloud: " +:+ Error err
                       +:+ String "010" "");
        Ret (inr wordCloudLocation)
      | Ok (wordCloudImage, location) =>
        sv ← call SaveWordCloud location wordCloudImage;
        match sv with
        | Some err =>
          call_ Printf ("Failed to save word cloud: " +:+ Error err
                         +:+ String "010" "");
          Ret (inr wordCloudLocation)
        | None => Ret (inr location)
        end
      end
    end
  else Ret (inr wordCloudLocation).

(** The loop that records the similar files. *)
Fixpoint save_similar (fileID : string) (similarFileIDs : list string)
  : Prog unit :=
  match similarFileIDs with
  | [] => Ret tt
  | similarFileID :: rest =>
    sv ← call SaveSimilarFile fileID similarFileID;
    match sv with
    | Some err =>
      call_ Printf ("Failed to save similar file " +:+ similarFileID
                     +:+ ": " +:+ Error err +:+ String "010" "");
      save_similar fileID rest
    | None => save_similar fileID rest
    end
  end.

Fixpoint bind {A B} (m : Prog A) (f : A -> Prog B) : Prog B :=
  match m with
  | Ret a => f a
  | Panic => Panic
  | Call op k => Call op (fun x => bind (k x) f)
  | Mark e k => Mark e (bind k f)
  end.

Notation "x ← 'exec' m ; k" := (bind m (fun x => k))
  (at level 20, m at level 100, k at level 200, right associativity,
   only parsing).

Section Service.
Context `{UnicodeTables} `{RangeOrder}.

(** What follows a successful corpus listing in [AnalyzeFile].  The named
    result [wordCloudLocation] still holds what the failed
    [GetAnalysisResult] returned, the empty string. *)
Definition analyze_fresh (s : AnalysisService) (fileID : string)
  (generateWordCloud : bool) (contentStr : string)
  (paragraphCount wordCount characterCount : Z)
  (otherFileIDs : list string) : Prog Analysis :=
  otherContents ← exec fetch_others fileID otherFileIDs ∅;
  Mark (EvCheckPlagiarism contentStr otherContents)
  match CheckPlagiarism (s_plagiarismChecker s) contentStr otherContents with
  | None => Panic
  | Some (isPlagiarism, similarFileIDs) =>
    wc ← exec word_cloud fileID generateWordCloud "";
    match wc with
    | inl early => Ret early
    | inr wordCloudLocation =>
      sv ← call SaveAnalysisResult fileID paragraphCount wordCount
                  characterCount isPlagiarism wordCloudLocation;
      match sv with
      | Some err => Ret (failed (Errorf "failed to save analysis results" err))
      | None =>
        u ← exec (if isPlagiarism then save_similar fileID similarFileIDs
                  else Ret tt);
        Ret {| paragraphCount := paragraphCount; wordCount := wordCount;
               characterCount := characterCount;
               isPlagiarism := isPlagiarism;
               similarFileIDs := similarFileIDs;
               wordCloudLocation := wordCloudLocation;
               err := None |}
      end
    end
  end.

Definition AnalyzeFile (s : AnalysisService) (fileID : string)
  (generateWordCloud : bool) : Prog Analysis :=
  r ← call GetAnalysisResult fileID;
  match r with
  | Ok stored =>
    if st_isPlagiarism stored then
      r ← call GetSimilarFiles fileID;
      match r with
      | Err err => Ret (failed (Errorf "failed to get similar files" err))
      | Ok similarFileIDs =>
        Ret {| paragraphCount := st_paragraphCount stored;
               wordCount := st_wordCount stored;
               characterCount := st_characterCount stored;
               isPlagiarism := true;
               similarFileIDs := similarFileIDs;
               wordCloudLocation := st_wordCloudLocation stored;
               err := None |}
      end
    else
      Ret {| paragraphCount := st_paragraphCount stored;
             wordCount := st_wordCount stored;
             characterCount := st_characterCount stored;
             isPlagiarism := false;
             similarFileIDs := [];
             wordCloudLocation := st_wordCloudLocation stored;
             err := None |}
  | Err _ =>
    r ← call GetFile fileID;
    match r with
    | Err err => Ret (failed (Errorf "failed to get file content" err))
    | Ok (_, content) =>
      let contentStr := content in
      let '(paragraphCount, wordCount, characterCount) :=
        AnalyzeText (s_textAnalyzer s) contentStr in
      r ← call GetAllFileIDs;
      match r with
      | Err err => Ret (failed (Errorf "failed to get all file IDs" err))
      | Ok otherFileIDs =>
        analyze_fresh s fileID generateWordCloud contentStr
          paragraphCount wordCount characterCount otherFileIDs
      end
    end
  end.

End Service.

(** [GetWordCloud]. *)
Definition GetWordCloud_svc (s : AnalysisService) (location : string)
  : Prog (result string) :=
  r ← call GetWordCloud location; Ret r.

(* ===================================================================== *)
(** * Programs over a family of calls                                     *)
(* ===================================================================== *)

(** The gateway and the file service call collaborators of their own.  A
    procedure over a family [E] of calls returns, panics ([Fault]) or makes
    a call and goes on with its answer. *)
Inductive Proc (E : Type -> Type) (A : Type) : Type :=
| Done (a : A)
| Fault
| Invoke {X : Type} (op : E X) (k : X -> Proc E A).
Arguments Done {E A} a.
Arguments Fault {E A}.
Arguments Invoke {E A X} op k.

Notation "x ← 'invoke' op ; k" := (Invoke op (fun x => k))
  (at level 20, op at level 100, k at level 200, right associativity,
   only parsing).
Notation "'invoke_' op ; k" := (Invoke op (fun _ => k))
  (at level 20, op at level 100, k at level 200, right associativity,
   only parsing).

(** A call with the answer it got. *)
Inductive Step (E : Type -> Type) : Type :=
| Called {X : Type} (op : E X) (answer : X).
Arguments Called {E X} op answer.

(** An implementation of the calls over a state [W]. *)
Definition Answers (E : Type -> Type) (W : Type) : Type :=
  forall X, E X -> W -> X * W.

(** [exec h p w]: the value [p] returns ([None] for a panic), the final
    state and the calls made, in order. *)
Fixpoint exec {E W A} (h : Answers E W) (p : Proc E A) (w : W)
  : option A * W * list (Step E) :=
  match p with
  | Done a => (Some a, w, [])
  | Fault => (None, w, [])
  | Invoke op k =>
    let '(x, w1) := h _ op w in
    let '(a, w2, tr) := exec h (k x) w1 in
    (a, w2, Called op x :: tr)
  end.

Fixpoint and_then {E A B} (m : Proc E A) (f : A -> Proc E B) : Proc E B :=
  match m with
  | Done a => f a
  | Fault => Fault
  | Invoke op k => Invoke op (fun x => and_then (k x) f)
  end.

(* ===================================================================== *)
(** * The clients of the gateway (package clients)                        *)
(* ===================================================================== *)

Module Gateway.

(** The status codes of package codes. *)
Inductive Code :=
| OK | Canceled | Unknown | InvalidArgument | DeadlineExceeded | NotFound
| AlreadyExists | PermissionDenied | ResourceExhausted | FailedPrecondition
| Aborted | OutOfRange | Unimplemented | Internal | Unavailable | DataLoss
| Unauthenticated.

(** The error of a stub: a gRPC status, or an error of another kind. *)
Inductive rpc_error :=
| status_error (code : Code) (msg : string)
| plain_error (msg : string).

(** [status.FromError(err)] for an error that is not nil: the code of the
    status and [ok]. *)
Definition FromError (err : rpc_error) : Code * bool :=
  match err with
  | status_error code _ => (code, true)
  | plain_error _ => (Unknown, false)
  end.

Definition is_Unavailable (c : Code) : bool :=
  match c with Unavailable => true | _ => false end.
Definition is_DeadlineExceeded (c : Code) : bool :=
  match c with DeadlineExceeded => true | _ => false end.

(** [fmt.Errorf("msg: %w", err)]. *)
Inductive client_error :=
| wrap (msg : string) (err : rpc_error).

(** What a stub returns: a response, or an error. *)
Inductive reply (R : Type) :=
| Reply (resp : R)
| Failure (err : rpc_error).
Arguments Reply {R} resp.
Arguments Failure {R} err.

(** [pb.AnalyzeFileResponse]. *)
Record AnalyzeFileResponse := {
  ParagraphCount : Z;
  WordCount : Z;
  CharacterCount : Z;
  IsPlagiarism : bool;
  SimilarFileIds : list string;
  WordCloudLocation : string
}.

(** The stubs [c.client] of the two services, and [time.Sleep]. *)
Inductive Op : Type -> Type :=
| client_UploadFile (fileName content : string) : Op (reply string)
| client_GetFile (fileID : string) : Op (reply (string * string))
| client_AnalyzeFile (fileID : string) (generateWordCloud : bool)
  : Op (reply AnalyzeFileResponse)
| client_GetWordCloud (location : string) : Op (reply string)
| Sleep (d : Z) : Op unit.

(** [time.Second], in nanoseconds. *)
Definition Second : Z := 1000000000.

(** [int64(x)]: the low 64 bits, read as two's complement. *)
Definition int64 (x : Z) : Z := (x + 2 ^ 63) mod 2 ^ 64 - 2 ^ 63.

(** How the loop of a method ends: [break] with a response, [return] with
    an error, or the end of the loop with [resp] still nil. *)
Inductive loop_exit (R : Type) :=
| Break (resp : R)
| ReturnErr (e : client_error)
| LoopEnd.
Arguments Break {R} resp.
Arguments ReturnErr {R} e.
Arguments LoopEnd {R}.

(** The loop [for attempt := 0; attempt < maxRetries; attempt++] that the
    four methods share, with [fuel] iterations left. *)
Fixpoint retry {R} (call : Op (reply R)) (what : string) (maxRetries : Z)
  (fuel : nat) (attempt retryDelay : Z) : Proc Op (loop_exit R) :=
  match fuel with
  | O => Done LoopEnd
  | S fuel' =>
    x ← invoke call;
    match x with
    | Reply resp => Done (Break resp)
    | Failure err =>
      let '(code, ok) := FromError err in
      if negb ok || (negb (is_Unavailable code)
                     && negb (is_DeadlineExceeded code))
      then Done (ReturnErr (wrap what err))
      else if attempt =? maxRetries - 1
      then Done (ReturnErr
                   (wrap (what +:+ " after " +:+ pretty maxRetries
                               +:+ " attempts") err))
      else
        invoke_ Sleep retryDelay;
        retry call what maxRetries fuel' (attempt + 1) (int64 (retryDelay * 2))
    end
  end.

Definition retrying {R} (call : Op (reply R)) (what : string)
  : Proc Op (loop_exit R) :=
  let maxRetries := 3 in
  let retryDelay := 1 * Second in
  retry call what maxRetries (Z.to_nat maxRetries) 0 retryDelay.

(** [FileStoringClient.UploadFile]. *)
Definition UploadFile (fileName content : string)
  : Proc Op (string + client_error) :=
  and_then (retrying (client_UploadFile fileName content)
                     "failed to upload file")
    (fun x => match x with
              | Break fileId => Done (inl fileId)
              | ReturnErr e => Done (inr e)
              | LoopEnd => Fault
              end).

(** [FileStoringClient.GetFile]. *)
Definition GetFile (fileID : string)
  : Proc Op (string * string + client_error) :=
  and_then (retrying (client_GetFile fileID) "failed to get file")
    (fun x => match x with
              | Break resp => Done (inl resp)
              | ReturnErr e => Done (inr e)
              | LoopEnd => Fault
              end).

(** [FileAnalysisClient.AnalyzeFile]; the response is a pointer, [None]
    when nil. *)
Definition AnalyzeFile (fileID : string) (generateWordCloud : bool)
  : Proc Op (option AnalyzeFileResponse + client_error) :=
  and_then (retrying (client_AnalyzeFile fileID generateWordCloud)
                     "failed to analyze file")
    (fun x => match x with
              | Break resp => Done (inl (Some resp))
              | ReturnErr e => Done (inr e)
              | LoopEnd => Done (inl None)
              end).

(** [FileAnalysisClient.GetWordCloud]. *)
Definition GetWordCloud (location : string)
  : Proc Op (string + client_error) :=
  and_then (retrying (client_GetWordCloud location)
                     "failed to get word cloud")
    (fun x => match x with
              | Break image => Done (inl image)
              | ReturnErr e => Done (inr e)
              | LoopEnd => Fault
              end).

(** ** What a trace of a client shows *)

(** The durations handed to [time.Sleep], in order. *)
Definition sleep_of (st : Step Op) : option Z :=
  match st with
  | Called op _ => match op with Sleep d => Some d | _ => None end
  end.
Definition sleeps (tr : list (Step Op)) : list Z := omap sleep_of tr.

(** What the stub answered, call by call: [None] for a response. *)
Definition failure_of (st : Step Op) : option (option rpc_error) :=
  match st with
  | Called op answer =>
    let fail {R} (x : reply R) :=
      match x with Reply _ => None | Failure err => Some err end in
    match op in Op X return X -> option (option rpc_error) with
    | client_UploadFile _ _ => fun x => Some (fail x)
    | client_GetFile _ => fun x => Some (fail x)
    | client_AnalyzeFile _ _ => fun x => Some (fail x)
    | client_GetWordCloud _ => fun x => Some (fail x)
    | Sleep _ => fun _ => None
    end answer
  end.
Definition attempts (tr : list (Step Op)) : list (option rpc_error) :=
  omap failure_of tr.

(** An error after which the methods try again. *)
Definition transient (err : rpc_error) : bool :=
  match err with
  | status_error Unavailable _ | status_error DeadlineExceeded _ => true
  | _ => false
  end.

(** The calls of a method that meets the transient failures [failed]
    before its last attempt: each failed call is followed by a sleep, of
    one second and then of two. *)
Definition backoff {R} (call : Op (reply R)) (failed : list rpc_error)
  : list (Step Op) :=
  concat (zip_with (fun err d => [Called call (Failure err);
                                  Called (Sleep d) tt])
                   failed [Second; 2 * Second]).

(** The calls [tr] and the result [r] of a method that tries again: at
    most two transient failures, each followed by a sleep, then a last
    attempt that decides the result. *)
Definition retried {R V} (call : Op (reply R)) (what : string)
  (value : R -> V) (r : V + client_error) (tr : list (Step Op)) : Prop :=
  exists (failed : list rpc_error) (answer : reply R),
    Forall (fun err => transient err = true) failed
    /\ (length failed <= 2)%nat
    /\ tr = backoff call failed ++ [Called call answer]
    /\ match answer with
       | Reply resp => r = inl (value resp)
       | Failure err =>
         if transient err
         then length failed = 2%nat
              /\ r = inr (wrap (what +:+ " after 3 attempts") err)
         else r = inr (wrap what err)
       end.

(** ** Stubs that fail for a while *)

(** Stubs that answer with the errors of a list, one by call, and with a
    fixed response once the list is empty; the state also counts the
    nanoseconds slept. *)
Definition flaky : Answers Op (list rpc_error * Z) := fun X op =>
  let answer {R} (resp : R) (w : list rpc_error * Z) :=
    match fst w with
    | err :: rest => (Failure err, (rest, snd w))
    | [] => (Reply resp, w)
    end in
  match op in Op X return list rpc_error * Z -> X * (list rpc_error * Z) with
  | client_UploadFile _ _ => answer "file-1"
  | client_GetFile _ => answer ("notes.txt", "Hello")
  | client_AnalyzeFile _ _ =>
    answer {| ParagraphCount := 1; WordCount := 1; CharacterCount := 5;
              IsPlagiarism := false; SimilarFileIds := [];
              WordCloudLocation := "" |}
  | client_GetWordCloud _ => answer "png"
  | Sleep d => fun w => (tt, (fst w, snd w + d))
  end.

(** The attempts and the sleeps of a run stay within three calls. *)
Definition within_three {V W}
  (o : option (V + client_error) * W * list (Step Op)) : Prop :=
  let '(r, _, tr) := o in
  (1 <= length (attempts tr) <= 3)%nat
  /\ sleeps tr = take (length (attempts tr) - 1) [Second; 2 * Second]
  /\ (last (attempts tr) = Some None <-> exists v, r = Some (inl v)).

End Gateway.

(* ===================================================================== *)
(** * FileService (package service of the storage)                        *)
(* ===================================================================== *)

Module Storage.

(** The collaborators of the service: the [FileRepository], the
    [FileStorage] and [uuid.New().String()]. *)
Inductive Op : Type -> Type :=
| repo_GetFileByHash (hash : string) : Op (result string)
| repo_SaveFile (fileID fileName hash location : string) : Op (option error)
| repo_GetFileByID (fileID : string) : Op (result (string * string))
| storage_SaveFile (location content : string) : Op (option error)
| storage_GetFile (location : string) : Op (result string)
| uuid_New : Op string.

(** [FileService.UploadFile] returns [(fileID, err)]. *)
Definition UploadFile (fileName content : string) : Proc Op (result string) :=
  let hash := SHA256.Sum256 content in
  let hashStr := EncodeToString hash in
  r ← invoke repo_GetFileByHash hashStr;
  match r with
  | Err err => Done (Err (Errorf "failed to check file existence" err))
  | Ok fileID =>
    if negb (String.eqb fileID "") then Done (Ok fileID)
    else
      fileID ← invoke uuid_New;
      let location := fileID in
      sv ← invoke storage_SaveFile location content;
      match sv with
      | Some err => Done (Err (Errorf "failed to save file content" err))
      | None =>
        sv ← invoke repo_SaveFile fileID fileName hashStr location;
        match sv with
        | Some err => Done (Err (Errorf "failed to save file metadata" err))
        | None => Done (Ok fileID)
        end
      end
  end.

(** [FileService.GetFile] returns [(fileName, content, err)]. *)
Definition GetFile (fileID : string) : Proc Op (result (string * string)) :=
  r ← invoke repo_GetFileByID fileID;
  match r with
  | Err err => Done (Err (Errorf "failed to get file metadata" err))
  | Ok (fileName, location) =>
    r ← invoke storage_GetFile location;
    match r with
    | Err err => Done (Err (Errorf "failed to get file content" err))
    | Ok content => Done (Ok (fileName, content))
    end
  end.

(** ** What a trace of the service shows *)

(** The contents handed to the storage, with their locations. *)
Definition content_write (st : Step Op) : option (string * string) :=
  match st with
  | Called op _ =>
    match op with
    | storage_SaveFile location content => Some (location, content)
    | _ => None
    end
  end.
Definition content_writes (tr : list (Step Op)) : list (string * string) :=
  omap content_write tr.

(** The rows handed to the repository:
    [(fileID, fileName, hash, location)]. *)
Definition row_write (st : Step Op)
  : option (string * string * string * string) :=
  match st with
  | Called op _ =>
    match op with
    | repo_SaveFile fileID fileName hash location =>
      Some (fileID, fileName, hash, location)
    | _ => None
    end
  end.
Definition row_writes (tr : list (Step Op))
  : list (string * string * string * string) :=
  omap row_write tr.

(** ** Collaborators held in memory *)

(** The table [files] as a list of rows [(id, name, hash, location)], the
    stored contents by location, and the identifiers that [uuid.New] is
    still to return. *)
Record World := {
  files : list (string * string * string * string);
  contents : gmap string string;
  uuids : list string
}.

Definition mem : Answers Op World := fun X op =>
  match op in Op X return World -> X * World with
  | repo_GetFileByHash hash => fun w =>
    match List.find (fun row => String.eqb (snd (fst row)) hash) (files w) with
    | Some (id, _, _, _) => (Ok id, w)
    | None => (Ok "", w)
    end
  | repo_SaveFile fileID fileName hash location => fun w =>
    (None, {| files := files w ++ [(fileID, fileName, hash, location)];
              contents := contents w; uuids := uuids w |})
  | repo_GetFileByID fileID => fun w =>
    match List.find (fun row => String.eqb (fst (fst (fst row))) fileID)
                    (files w) with
    | Some (_, name, _, location) => (Ok (name, location), w)
    | None => (Err (errors_New ("file not found with id " +:+ fileID)), w)
    end
  | storage_SaveFile location content => fun w =>
    (None, {| files := files w;
              contents := <[location := content]> (contents w);
              uuids := uuids w |})
  | storage_GetFile location => fun w =>
    match contents w !! location with
    | Some content => (Ok content, w)
    | None =>
      (Err (errors_New ("file not found at location " +:+ location)), w)
    end
  | uuid_New => fun w =>
    (hd "" (uuids w),
     {| files := files w; contents := contents w; uuids := tl (uuids w) |})
  end.

(** No file yet, and two identifiers to draw. *)
Definition empty : World :=
  {| files := []; contents := ∅;
     uuids := ["0b7e9b1c-0001"; "0b7e9b1c-0002"] |}.

End Storage.

(* ===================================================================== *)
(** * The handlers of the gateway (package handlers)                      *)
(* ===================================================================== *)

Module Handlers.

(** [filepath.Ext] on a system whose path separator is the slash: the
    suffix of [path] from the last dot of its last element on, or the
    empty string.  [before] holds the bytes up to index [i], last first,
    and [after] the bytes beyond. *)
Fixpoint ext_go (before after : list ascii) : string :=
  match before with
  | [] => ""
  | c :: before' =>
    if Ascii.eqb c "/" then ""
    else if Ascii.eqb c "." then string_of_list_ascii (c :: after)
    else ext_go before' (c :: after)
  end.

Definition Ext (path : string) : string :=
  ext_go (rev (list_ascii_of_string path)) [].

(** [http.StatusOK], [http.StatusBadRequest] and
    [http.StatusInternalServerError]. *)
Definition StatusOK : Z := 200.
Definition StatusBadRequest : Z := 400.
Definition StatusInternalServerError : Z := 500.

(** The request body and the response body of [AnalyzeFile]. *)
Record AnalyzeFileRequest := {
  FileID : string;
  GenerateWordCloud : bool
}.

Record AnalyzeFileResponse := {
  ParagraphCount : Z;
  WordCount : Z;
  CharacterCount : Z;
  IsPlagiarism : bool;
  SimilarFileIds : list string;
  WordCloudLocation : string
}.

(** What a handler writes: [c.JSON] with an object of one key or with the
    results of an analysis, or [c.Data]. *)
Inductive Body :=
| object (key value : string)
| analysis (results : AnalyzeFileResponse)
| data (contentType content : string).

Record Response := {
  status : Z;
  headers : list (string * string);
  body : Body
}.

Definition JSON (code : Z) (b : Body) : Response :=
  {| status := code; headers := []; body := b |}.

(** What the handlers read from the request, and the clients they call;
    a response of [AnalyzeFile] is a pointer, [None] when nil. *)
Inductive Op : Type -> Type :=
| FormFile (name : string) : Op (result string)
| ReadAll : Op (result string)
| ShouldBindJSON : Op (result AnalyzeFileRequest)
| client_UploadFile (fileName content : string) : Op (result string)
| client_GetFile (fileID : string) : Op (result (string * string))
| client_AnalyzeFile (fileID : string) (generateWordCloud : bool)
  : Op (result (option Gateway.AnalyzeFileResponse))
| client_GetWordCloud (location : string) : Op (result string).

(** [FileHandler.UploadFile]. *)
Definition UploadFile : Proc Op Response :=
  r ← invoke FormFile "file";
  match r with
  | Err _ => Done (JSON StatusBadRequest (object "error" "No file provided"))
  | Ok Filename =>
    if negb (String.eqb (Ext Filename) ".txt") then
      Done (JSON StatusBadRequest
              (object "error" "Only .txt files are allowed"))
    else
      r ← invoke ReadAll;
      match r with
      | Err _ =>
        Done (JSON StatusInternalServerError
                (object "error" "Failed to read file"))
      | Ok content =>
        r ← invoke client_UploadFile Filename content;
        match r with
        | Err err =>
          Done (JSON StatusInternalServerError (object "error" (Error err)))
        | Ok fileID => Done (JSON StatusOK (object "file_id" fileID))
        end
      end
  end.

(** [FileHandler.GetFile]; [fileID] is [c.Param("file_id")]. *)
Definition GetFile (fileID : string) : Proc Op Response :=
  if String.eqb fileID "" then
    Done (JSON StatusBadRequest (object "error" "File ID is required"))
  else
    r ← invoke client_GetFile fileID;
    match r with
    | Err err =>
      Done (JSON StatusInternalServerError (object "error" (Error err)))
    | Ok (fileName, content) =>
      Done {| status := StatusOK;
              headers := [("Content-Disposition",
                           "attachment; filename=" +:+ fileName)];
              body := data "application/octet-stream" content |}
    end.

(** [AnalysisHandler.AnalyzeFile]. *)
Definition AnalyzeFile : Proc Op Response :=
  r ← invoke ShouldBindJSON;
  match r with
  | Err err => Done (JSON StatusBadRequest (object "error" (Error err)))
  | Ok request =>
    r ← invoke client_AnalyzeFile (FileID request) (GenerateWordCloud request);
    match r with
    | Err err =>
      Done (JSON StatusInternalServerError (object "error" (Error err)))
    | Ok None => Fault
    | Ok (Some resp) =>
      Done (JSON StatusOK
              (analysis
                 {| ParagraphCount := Gateway.ParagraphCount resp;
                    WordCount := Gateway.WordCount resp;
                    CharacterCount := Gateway.CharacterCount resp;
                    IsPlagiarism := Gateway.IsPlagiarism resp;
                    SimilarFileIds := Gateway.SimilarFileIds resp;
                    WordCloudLocation := Gateway.WordCloudLocation resp |}))
    end
  end.

(** [AnalysisHandler.GetWordCloud]; [location] is [c.Param("location")]. *)
Definition GetWordCloud (location : string) : Proc Op Response :=
  if String.eqb location "" then
    Done (JSON StatusBadRequest (object "error" "Location is required"))
  else
    r ← invoke client_GetWordCloud location;
    match r with
    | Err err =>
      Done (JSON StatusInternalServerError (object "error" (Error err)))
    | Ok image =>
      Done {| status := StatusOK; headers := [];
              body := data "image/png" image |}
    end.


(** A request that carries one file, and a client that accepts it. *)
Definition one_file (Filename content : string) : Answers Op unit :=
  fun X op =>
  match op in Op X return unit -> X * unit with
  | FormFile _ => fun w => (Ok Filename, w)
  | ReadAll => fun w => (Ok content, w)
  | ShouldBindJSON => fun w => (Err (errors_New "EOF"), w)
  | client_UploadFile _ _ => fun w => (Ok "file-1", w)
  | client_GetFile fileID => fun w =>
    (Err (errors_New ("file not found with id " +:+ fileID)), w)
  | client_AnalyzeFile _ _ => fun w => (Err (errors_New "unavailable"), w)
  | client_GetWordCloud _ => fun w => (Err (errors_New "unavailable"), w)
  end.

End Handlers.

(* ===================================================================== *)
(** * Notions used to state properties of texts                            *)
(* ===================================================================== *)

(** A rune with the bytes it was decoded from. *)
Definition chunk_ok (rb : rune * string) : Prop :=
  (exists b, snd rb = String b "" /\ byte_val b < 128 /\ fst rb = byte_val b)
  \/ (snd rb <> ""
      /\ Forall (fun c => 128 <= byte_val c) (list_ascii_of_string (snd rb))).

(** A word: not empty, and none of its ASCII bytes is white space. *)
Definition word_ok (w : string) : Prop :=
  w <> ""
  /\ forall b, In b (list_ascii_of_string w) -> byte_val b < 128 ->
               IsSpace (byte_val b) = false.

(** A string that no rune decoded before it can run into: it is empty or
    its first byte is not a continuation byte. *)
Definition boundary (s : string) : Prop :=
  match s with
  | EmptyString => True
  | String c _ => cont c = false
  end.

(** A word that [Fields] returns alone: it is not empty and none of its
    runes is white space. *)
Definition field_like (w : string) : Prop :=
  w <> "" /\ Forall (fun rb => IsSpace (fst rb) = false) (range_string w).

(* ===================================================================== *)
(** * Instances used to evaluate the model                                *)
(* ===================================================================== *)

(** Tables that leave every rune beyond Latin-1 alone: they agree with the
    tables of package unicode on texts made of ASCII characters. *)
Definition ascii_tables : UnicodeTables :=
  {| Is_Punct := fun _ => false; To_LowerCase := fun r => r |}.

(** The range order that visits the entries in the order of [map_to_list]. *)
Definition listed_order : RangeOrder :=
  {| range_map := fun V m => map_to_list m;
     range_map_perm := fun V m => reflexivity (map_to_list m) |}.

(** The range order that visits them in the opposite order. *)
Definition reversed_order : RangeOrder :=
  {| range_map := fun V m => reverse (map_to_list m);
     range_map_perm := fun V m => reverse_Permutation (map_to_list m) |}.

(** ** Collaborators held in memory *)

(** An implementation of the collaborators over tables held in memory, in
    the manner of the repository's test doubles: [analysis_results] with
    its upsert, [similar_files] with its insert that ignores a conflict,
    the files of the File Storing Service and the stored word clouds.
    [clock] counts the calls answered so far and [outages] lists the
    calls, by number, that fail. *)
Module Mem.

Record World := {
  analysis_results : gmap string StoredResult;
  similar_files : list (string * string);
  files : gmap string (string * string);
  word_clouds : gmap string string;
  stdout : list string;
  clock : nat;
  outages : list nat
}.

Definition tick (w : World) : World :=
  {| analysis_results := analysis_results w;
     similar_files := similar_files w;
     files := files w;
     word_clouds := word_clouds w;
     stdout := stdout w;
     clock := S (clock w);
     outages := outages w |}.

Definition unavailable : error := errors_New "service unavailable".

Definition down (w : World) : bool := bool_decide (clock w ∈ outages w).

Definition handler : Handler World := fun X op =>
  match op in Op X return World -> X * World with
  | GetAnalysisResult fileID => fun w =>
    if down w then (Err unavailable, tick w) else
    match analysis_results w !! fileID with
    | Some row => (Ok row, tick w)
    | None =>
      (Err (errors_New ("analysis result not found for file ID " +:+ fileID)),
       tick w)
    end
  | SaveAnalysisResult fileID p wd ch plag loc => fun w =>
    if down w
    then (Some (Errorf "failed to save analysis result" unavailable), tick w)
    else
      (None,
       tick {| analysis_results :=
                 <[fileID := {| st_paragraphCount := p; st_wordCount := wd;
                                st_characterCount := ch;
                                st_isPlagiarism := plag;
                                st_wordCloudLocation := loc |}]>
                   (analysis_results w);
               similar_files := similar_files w;
               files := files w;
               word_clouds := word_clouds w;
               stdout := stdout w;
               clock := clock w;
               outages := outages w |})
  | SaveSimilarFile fileID similarFileID => fun w =>
    if down w
    then (Some (Errorf "failed to save similar file" unavailable), tick w)
    else
      (None,
       tick {| analysis_results := analysis_results w;
               similar_files :=
                 if bool_decide ((fileID, similarFileID) ∈ similar_files w)
                 then similar_files w
                 else similar_files w ++ [(fileID, similarFileID)];
               files := files w;
               word_clouds := word_clouds w;
               stdout := stdout w;
               clock := clock w;
               outages := outages w |})
  | GetSimilarFiles fileID => fun w =>
    if down w
    then (Err (Errorf "failed to query similar files" unavailable), tick w)
    else
      (Ok (map snd (List.filter (fun row => String.eqb (fst row) fileID)
                                (similar_files w))),
       tick w)
  | GetAllFileIDs => fun w =>
    if down w
    then (Err (Errorf "failed to query all file IDs" unavailable), tick w)
    else (Ok (map fst (map_to_list (analysis_results w))), tick w)
  | GetFile fileID => fun w =>
    if down w then (Err (Errorf "failed to get file" unavailable), tick w) else
    match files w !! fileID with
    | Some f => (Ok f, tick w)
    | None => (Err (Errorf "failed to get file" (errors_New "file not found")),
               tick w)
    end
  | GenerateWordCloud text => fun w =>
    if down w
    then (Err (Errorf "failed to send request" unavailable), tick w)
    else (Ok ("PNG", "cloud.png"), tick w)
  | SaveWordCloud location image => fun w =>
    if down w then (Some unavailable, tick w) else
      (None,
       tick {| analysis_results := analysis_results w;
               similar_files := similar_files w;
               files := files w;
               word_clouds := <[location := image]> (word_clouds w);
               stdout := stdout w;
               clock := clock w;
               outages := outages w |})
  | GetWordCloud location => fun w =>
    if down w then (Err unavailable, tick w) else
    match word_clouds w !! location with
    | Some image => (Ok image, tick w)
    | None => (Err (errors_New "word cloud not found"), tick w)
    end
  | Printf output => fun w =>
    (tt,
     {| analysis_results := analysis_results w;
        similar_files := similar_files w;
        files := files w;
        word_clouds := word_clouds w;
        stdout := stdout w ++ [output];
        clock := clock w;
        outages := outages w |})
  end.

(** A File Storing Service that holds [fs], everything else empty, and the
    outages [out]. *)
Definition init (fs : list (string * (string * string))) (out : list nat) : World :=
  {| analysis_results := ∅; similar_files := []; files := list_to_map fs;
     word_clouds := ∅; stdout := []; clock := 0; outages := out |}.

End Mem.

(** The service as [cmd/analyzer/main.go] builds it. *)
Definition service : AnalysisService :=
  {| s_textAnalyzer := NewTextAnalyzer;
     s_plagiarismChecker := NewPlagiarismChecker |}.

(** ** Scenarios *)

Module Scenario.

(** The state after a call. *)
Definition after {X} (op : Op X) (w : Mem.World) : Mem.World :=
  snd (Mem.handler X op w).

(** One stored file, "doc", and the outages [out]. *)
Definition single (out : list nat) : Mem.World :=
  Mem.init [("doc", ("doc.txt", "Hello"))] out.

(** Three stored files; the fifth call meets an outage. *)
Definition three : Mem.World :=
  Mem.init [("target", ("t.txt", "Hello")); ("a", ("a.txt", "Hello"));
            ("b", ("b.txt", "Hello world"))] [4%nat].

(** A repository whose listing names the three files, the target among
    them, as the test doubles of the repository do. *)
Definition listing : Handler Mem.World := fun X op w =>
  match op in Op X return X * Mem.World with
  | GetAllFileIDs => (Ok ["a"; "target"; "b"], Mem.tick w)
  | op => Mem.handler _ op w
  end.

(** Two stored files with the same content, the first already analyzed. *)
Definition twins : Mem.World :=
  let text := "This is a test document for plagiarism detection." in
  after (SaveAnalysisResult "first" 1 8 49 false "")
    (Mem.init [("first", ("1.txt", text)); ("second", ("2.txt", text))] []).

End Scenario.

(** ** The repository's test tables, evaluated *)

Definition nl2 : string := String "010" (String "010" EmptyString).

Example AnalyzeText_single_paragraph :
  AnalyzeText NewTextAnalyzer "This is a test paragraph with multiple words."
  = (1, 8, 45).
Proof. vm_compute. reflexivity. Qed.

Example AnalyzeText_empty_lines :
  AnalyzeText NewTextAnalyzer ("Paragraph 1." +:+ nl2 +:+ nl2 +:+ "Paragraph 2.")
  = (2, 4, 28).
Proof. vm_compute. reflexivity. Qed.

Example GetNGrams_bigrams :
  GetNGrams NewTextAnalyzer "This is a test" 2 = Some ["This is"; "is a"; "a test"].
Proof. vm_compute. reflexivity. Qed.

Example GetNGrams_short :
  GetNGrams NewTextAnalyzer "Hello world" 3 = Some [].
Proof. vm_compute. reflexivity. Qed.

Example GetNGrams_negative_panics :
  GetNGrams NewTextAnalyzer "Hello world" (-1) = None.
Proof. vm_compute. reflexivity. Qed.

Example sha_constants :
  length SHA256.K = 64%nat /\ hd 0 SHA256.K = 0x428a2f98
  /\ last SHA256.K = Some 0xc67178f2 /\ hd 0 SHA256.H0 = 0x6a09e667.
Proof. vm_compute. repeat split. Qed.

Example sha_empty : EncodeToString (SHA256.Sum256 "")
  = "e3b0c44298fc1c149afbf4c8996fb92427ae41e4649b934ca495991b7852b855".
Proof. vm_compute. reflexivity. Qed.
Example sha_abc : EncodeToString (SHA256.Sum256 "abc")
  = "ba7816bf8f01cfea414140de5dae2223b00361a396177a9cb410ff61f20015ad".
Proof. vm_compute. reflexivity. Qed.
Example sha_two_blocks : EncodeToString (SHA256.Sum256
  "aaaaaaaaaaaaaaaaaaaaaaaaaaaaaaaaaaaaaaaaaaaaaaaaaaaaaaaaaaaaaaaaaaaaaa")
  = "6bd5e5034855a11241f0dee8fc72850ffd9955b28347a86428b5fa19119f6ad0".
Proof. vm_compute. reflexivity. Qed.

Section Evaluated.
Local Existing Instance ascii_tables.
Local Existing Instance listed_order.

Example preprocess_punctuation :
  preprocessText NewPlagiarismChecker "This, is a test! With punctuation."
  = "test punctuation".
Proof. vm_compute. reflexivity. Qed.

Example check_exact :
  CheckPlagiarism NewPlagiarismChecker
    "This is a test document for plagiarism detection."
    {[ "f1" := "This is a test document for plagiarism detection." ]}
  = Some (true, ["f1"]).
Proof. vm_compute. reflexivity. Qed.

Example check_different :
  CheckPlagiarism NewPlagiarismChecker
    "This is a test document for plagiarism detection."
    {[ "f4" := "This document has completely different content and should not match." ]}
  = Some (false, []).
Proof. vm_compute. reflexivity. Qed.

(** The repository is read before anything else: a document analyzed
    once is answered from its stored row. *)
Example analyze_twice :
  let first := run Mem.handler (AnalyzeFile service "doc" false)
                 (Scenario.single []) in
  let second := run Mem.handler (AnalyzeFile service "doc" false)
                  (snd (fst first)) in
  length (comparisons (snd first)) = 1%nat
  /\ comparisons (snd second) = []
  /\ fst (fst second) = fst (fst first).
Proof. vm_compute. repeat split. Qed.

(** Any error of [GetAnalysisResult] sends [AnalyzeFile] to a fresh
    analysis: when the read of the stored row meets an outage (the fourth
    call overall, the first of the second request), the analysis is run
    again. *)
Example analyze_again_on_read_failure :
  let first := run Mem.handler (AnalyzeFile service "doc" false)
                 (Scenario.single [4%nat]) in
  let second := run Mem.handler (AnalyzeFile service "doc" false)
                  (snd (fst first)) in
  length (comparisons (snd first)) = 1%nat
  /\ length (comparisons (snd second)) = 1%nat.
Proof. vm_compute. repeat split. Qed.

End Evaluated.

(* ===================================================================== *)
(** * Properties of the float64 operations the checker uses              *)
(* ===================================================================== *)

Module Float64.

Import SpecFloat.

(** The quotient of a finite, non-zero float by itself is 1. *)
Lemma SFdiv_core_self (m : positive) (e : Z) :
  SFdiv_core_binary prec emax (Zpos m) e (Zpos m) e = (2 ^ 53, -53, loc_Exact).
Proof.
  unfold SFdiv_core_binary.
  replace (Zdigits2 (Z.pos m) + e - (Zdigits2 (Z.pos m) + e)) with 0 by lia.
  replace (e - e) with 0 by lia.
  change (Z.min (fexp prec emax 0) 0) with (-53).
  change (0 - -53) with 53.
  cbv iota beta.
  rewrite Z.shiftl_mul_pow2 by lia.
  assert (Z.div_eucl (Z.pos m * 2 ^ 53) (Z.pos m) = (2 ^ 53, 0)) as ->.
  { pose proof (Z.div_mul (2 ^ 53) (Z.pos m) ltac:(lia)) as Hq.
    pose proof (Z.mod_mul (2 ^ 53) (Z.pos m) ltac:(lia)) as Hr.
    rewrite (Z.mul_comm (2 ^ 53)) in Hq, Hr.
    unfold Z.div, Z.modulo in Hq, Hr.
    destruct (Z.div_eucl (Z.pos m * 2 ^ 53) (Z.pos m)) as [q r].
    congruence. }
  unfold new_location. destruct (Z.even (Z.pos m)); reflexivity.
Qed.

Lemma div_self (x : float) s m e :
  Prim2SF x = S754_finite s m e -> (x / x)%float = 1%float.
Proof.
  intros Hx. apply Prim2SF_inj.
  rewrite FloatAxioms.div_spec, Hx. unfold SF64div, SFdiv.
  rewrite SFdiv_core_self.
  destruct s; reflexivity.
Qed.

Lemma div_zero_l (x : float) m e :
  Prim2SF x = S754_finite false m e -> (0 / x)%float = 0%float.
Proof.
  intros Hx. apply Prim2SF_inj.
  rewrite FloatAxioms.div_spec, Hx. reflexivity.
Qed.

(** The number of binary digits of a mantissa. *)
Lemma digits2_size p : digits2_pos p = Pos.size p.
Proof. induction p; simpl; congruence. Qed.

Lemma Zdigits2_bounds (p : positive) :
  2 ^ (Zdigits2 (Zpos p) - 1) <= Zpos p < 2 ^ Zdigits2 (Zpos p).
Proof.
  unfold Zdigits2. rewrite digits2_size.
  pose proof (Pos.size_gt p) as Hgt. pose proof (Pos.size_le p) as Hle.
  apply Pos2Z.pos_lt_pos in Hgt. apply Pos2Z.pos_le_pos in Hle.
  rewrite Pos2Z.inj_pow in Hgt, Hle.
  rewrite (Pos2Z.inj_xO p) in Hle.
  set (d := Z.pos (Pos.size p)) in *.
  assert (Hd : 2 ^ d = 2 * 2 ^ (d - 1)).
  { rewrite <- Z.pow_succ_r by lia. f_equal. lia. }
  lia.
Qed.

Lemma digits2_iter_xO (k p : positive) :
  Zpos (digits2_pos (Pos.iter xO p k)) = Zpos (digits2_pos p) + Zpos k.
Proof.
  induction k as [|k IH] using Pos.peano_ind.
  - cbn [Pos.iter digits2_pos]. lia.
  - rewrite Pos.iter_succ. cbn [digits2_pos]. lia.
Qed.

(** Shifting a mantissa to the right divides it by a power of two. *)
Lemma shr_1_m mrs : 0 <= shr_m mrs -> shr_m (shr_1 mrs) = shr_m mrs / 2.
Proof.
  destruct mrs as [m r s]. cbn [shr_m]. intros Hm.
  destruct m as [|[p|p|]|p]; cbn [shr_1 shr_m]; try lia.
  - apply Z.div_unique with 0; lia.
  - apply Z.div_unique with 1; lia.
  - apply Z.div_unique with 0; lia.
  - reflexivity.
Qed.

Lemma iter_shr_1_m k : forall mrs,
  0 <= shr_m mrs -> shr_m (iter_pos shr_1 k mrs) = shr_m mrs / 2 ^ Zpos k.
Proof.
  induction k as [k IH|k IH|]; intros mrs Hm; simpl iter_pos.
  - assert (H1 : 0 <= shr_m (shr_1 mrs)).
    { rewrite shr_1_m by assumption. apply Z.div_pos; lia. }
    assert (H2 : 0 <= shr_m (iter_pos shr_1 k (shr_1 mrs))).
    { rewrite IH by assumption. apply Z.div_pos; lia. }
    rewrite IH, IH, shr_1_m by assumption.
    rewrite !Z.div_div by lia. f_equal.
    rewrite (Pos2Z.inj_xI k).
    replace (2 * Z.pos k + 1) with (1 + Z.pos k + Z.pos k) by lia.
    rewrite !Z.pow_add_r by lia. change (2 ^ 1) with 2. ring.
  - assert (H2 : 0 <= shr_m (iter_pos shr_1 k mrs)).
    { rewrite IH by assumption. apply Z.div_pos; lia. }
    rewrite IH, IH by assumption.
    rewrite !Z.div_div by lia. f_equal.
    rewrite (Pos2Z.inj_xO k).
    replace (2 * Z.pos k) with (Z.pos k + Z.pos k) by lia.
    rewrite Z.pow_add_r by lia. reflexivity.
  - rewrite shr_1_m by assumption. reflexivity.
Qed.

Lemma shr_record_of_loc_m m l : shr_m (shr_record_of_loc m l) = m.
Proof. destruct l as [|[]]; reflexivity. Qed.

(** Rounding a mantissa of at least 53 digits, in the normal range, keeps
    its 53 leading digits. *)
Lemma shr_fexp_norm (m : positive) (e : Z) (l : location) :
  53 <= Zdigits2 (Zpos m) -> -1074 <= Zdigits2 (Zpos m) + e - 53 ->
  exists mrs,
    shr_fexp prec emax (Zpos m) e l = (mrs, e + (Zdigits2 (Zpos m) - 53))
    /\ shr_m mrs = Zpos m / 2 ^ (Zdigits2 (Zpos m) - 53).
Proof.
  intros Hd He. unfold shr_fexp, fexp.
  change (SpecFloat.emin prec emax) with (-1074). change prec with 53.
  set (d := Zdigits2 (Zpos m)) in *.
  rewrite Z.max_l by lia.
  replace (d + e - 53 - e) with (d - 53) by lia.
  destruct (d - 53) as [|k|k] eqn:Hk; try lia; cbn [shr].
  - eexists; split; [f_equal; lia|].
    rewrite shr_record_of_loc_m, Z.pow_0_r, Z.div_1_r. reflexivity.
  - eexists; split; [reflexivity|].
    rewrite iter_shr_1_m; rewrite shr_record_of_loc_m; [reflexivity|lia].
Qed.

Lemma round_nearest_even_bounds m l :
  m <= round_nearest_even m l <= m + 1.
Proof. destruct l as [|[]]; cbn; try lia. destruct (Z.even m); lia. Qed.

Lemma binary_round_aux_finite (m : positive) (e : Z) :
  53 <= Zdigits2 (Zpos m) -> -1074 <= Zdigits2 (Zpos m) + e - 53 ->
  Zdigits2 (Zpos m) + e - 53 + 1 <= 971 ->
  exists m' e',
    binary_round_aux prec emax false (Zpos m) e loc_Exact = S754_finite false m' e'.
Proof.
  intros Hd Hlo Hhi. unfold binary_round_aux.
  destruct (shr_fexp_norm m e loc_Exact Hd Hlo) as (mrs1 & -> & Hm1).
  pose proof (Zdigits2_bounds m) as Hb.
  set (d := Zdigits2 (Zpos m)) in *.
  assert (Hp : 2 ^ (d - 1) = 2 ^ (d - 53) * 2 ^ 52).
  { rewrite <- Z.pow_add_r by lia. f_equal. lia. }
  assert (Hq : 2 ^ d = 2 ^ (d - 53) * 2 ^ 53).
  { rewrite <- Z.pow_add_r by lia. f_equal. lia. }
  assert (H2 : 0 < 2 ^ (d - 53)) by (apply Z.pow_pos_nonneg; lia).
  assert (Hlow : 2 ^ 52 <= shr_m mrs1).
  { rewrite Hm1. apply Z.div_le_lower_bound; lia. }
  assert (Hupp : shr_m mrs1 < 2 ^ 53).
  { rewrite Hm1. apply Z.div_lt_upper_bound; lia. }
  pose proof (round_nearest_even_bounds (shr_m mrs1) (loc_of_shr_record mrs1)) as Hr.
  destruct (round_nearest_even (shr_m mrs1) (loc_of_shr_record mrs1))
    as [|p2|p2] eqn:Hp2; try lia.
  pose proof (Zdigits2_bounds p2) as Hb2.
  set (d2 := Zdigits2 (Zpos p2)) in *.
  assert (Hd2pos : 0 < d2) by (unfold d2, Zdigits2; lia).
  assert (Hd2 : 53 <= d2 <= 54).
  { split.
    - assert (52 < d2); [|lia].
      apply (Z.pow_lt_mono_r_iff 2); lia.
    - assert (d2 - 1 < 54); [|lia].
      apply (Z.pow_lt_mono_r_iff 2); [lia|lia|].
      change (2 ^ 54) with (2 * 2 ^ 53). lia. }
  destruct (shr_fexp_norm p2 (e + (d - 53)) loc_Exact) as (mrs2 & -> & Hm2);
    fold d2; try lia.
  assert (Hp' : 2 ^ (d2 - 1) = 2 ^ (d2 - 53) * 2 ^ 52).
  { rewrite <- Z.pow_add_r by lia. f_equal. lia. }
  assert (H2' : 0 < 2 ^ (d2 - 53)) by (apply Z.pow_pos_nonneg; lia).
  assert (Hlow2 : 2 ^ 52 <= shr_m mrs2).
  { rewrite Hm2. fold d2. apply Z.div_le_lower_bound; lia. }
  destruct (shr_m mrs2) as [|m'|m']; try lia.
  change (emax - prec) with 971.
  assert (Hle : (e + (d - 53) + (d2 - 53) <=? 971) = true) by (apply Z.leb_le; lia).
  rewrite Hle. eauto.
Qed.

(** An integer between 1 and 2^63 - 1 converts to a finite positive float. *)
Lemma binary_normalize_int_finite (z : Z) :
  0 < z < 2 ^ 63 ->
  exists m e, binary_normalize prec emax z 0 false = S754_finite false m e.
Proof.
  intros Hz. destruct z as [|p|p]; try lia.
  cbn [binary_normalize]. unfold binary_round.
  pose proof (Zdigits2_bounds p) as Hb. unfold Zdigits2 in Hb.
  set (d := Zpos (digits2_pos p)) in *.
  assert (Hd : 1 <= d <= 63).
  { split; [unfold d; lia|].
    assert (d - 1 < 63); [|lia]. apply (Z.pow_lt_mono_r_iff 2); lia. }
  unfold fexp. change (SpecFloat.emin prec emax) with (-1074). change prec with 53.
  rewrite Z.max_l by lia. unfold shl_align.
  replace (d + 0 - 53 - 0) with (d - 53) by lia.
  destruct (d - 53) as [|k|k] eqn:Hk.
  - apply binary_round_aux_finite; unfold Zdigits2; fold d; lia.
  - apply binary_round_aux_finite; unfold Zdigits2; fold d; lia.
  - apply binary_round_aux_finite; unfold Zdigits2;
      rewrite digits2_iter_xO; fold d; lia.
Qed.

Lemma float64_of_int_finite (z : Z) :
  0 < z < 2 ^ 63 ->
  exists m e, Prim2SF (float64_of_int z) = S754_finite false m e.
Proof.
  intros Hz. unfold float64_of_int.
  rewrite FloatAxioms.of_uint63_spec, Uint63.of_Z_spec.
  rewrite Z.mod_small by (change wB with (2 ^ 63); lia).
  apply binary_normalize_int_finite. assumption.
Qed.

Lemma float64_div_self (z : Z) :
  0 < z < 2 ^ 63 -> (float64_of_int z / float64_of_int z)%float = 1%float.
Proof.
  intros Hz. destruct (float64_of_int_finite z Hz) as (m & e & Hx).
  eapply div_self; eassumption.
Qed.

Lemma float64_div_zero (z : Z) :
  0 < z < 2 ^ 63 -> (float64_of_int 0 / float64_of_int z)%float = 0%float.
Proof.
  intros Hz. destruct (float64_of_int_finite z Hz) as (m & e & Hx).
  change (float64_of_int 0) with 0%float.
  eapply div_zero_l; eassumption.
Qed.

End Float64.

(* ===================================================================== *)
(** * Properties of the TextAnalyzer                                      *)
(* ===================================================================== *)

Lemma int32_le (x : Z) : 0 <= x -> int32 x <= x.
Proof.
  intros Hx. unfold int32.
  pose proof (Z.mod_le (x + 2147483648) 4294967296 ltac:(lia) ltac:(lia)).
  lia.
Qed.

Lemma len_filter_le {A} (f : A -> bool) (l : list A) :
  len (List.filter f l) <= len l.
Proof.
  unfold len. apply inj_le. induction l as [|x l IH]; simpl; [lia|].
  destruct (f x); simpl; lia.
Qed.

(** C7. [AnalyzeText] returns (0,0,0) on the empty string, (1,1,5) on
    "Hello" and (3,15,83) on the three-paragraph text of the test table;
    and the paragraph count of any text is at most the number of segments
    that splitting the text at blank lines yields. *)
Theorem C7_AnalyzeText (a : TextAnalyzer) :
  AnalyzeText a "" = (0, 0, 0)
  /\ AnalyzeText a "Hello" = (1, 1, 5)
  /\ AnalyzeText a ("This is the first paragraph." +:+ nl2
                     +:+ "This is the second paragraph." +:+ nl2
                     +:+ "And this is the third.") = (3, 15, 83)
  /\ forall T : string,
       fst (fst (AnalyzeText a T)) <= len (Split T nl2).
Proof.
  split; [reflexivity|]. split; [vm_compute; reflexivity|].
  split; [vm_compute; reflexivity|].
  intros T. unfold AnalyzeText. cbn [fst].
  fold nl2.
  etransitivity; [apply int32_le; unfold len; lia|].
  apply len_filter_le.
Qed.

(** The n-grams that the loop of [GetNGrams] builds. *)
Lemma ngrams_loop_spec (words : list string) (n : Z) :
  0 <= n ->
  forall (fuel : nat) (i : nat),
    Z.of_nat i + Z.of_nat fuel - 1 + n <= len words ->
    ngrams_loop words n fuel (Z.of_nat i)
    = Some (map (fun k => Join (take (Z.to_nat n) (drop k words)) " ")
                (seq i fuel)).
Proof.
  intros Hn fuel. induction fuel as [|fuel IH]; intros i Hi; [reflexivity|].
  cbn [ngrams_loop seq map].
  unfold slice.
  assert (Hb : (0 <=? Z.of_nat i) && (Z.of_nat i <=? Z.of_nat i + n)
               && (Z.of_nat i + n <=? len words) = true).
  { rewrite !andb_true_iff, !Z.leb_le. lia. }
  rewrite Hb. cbn [mbind option_bind].
  replace (Z.of_nat i + 1) with (Z.of_nat (S i)) by lia.
  rewrite IH by lia. cbn [mbind option_bind].
  replace (Z.of_nat i + n - Z.of_nat i) with n by lia.
  rewrite Nat2Z.id. reflexivity.
Qed.

Lemma GetNGrams_spec (a : TextAnalyzer) (T : string) (n : Z) :
  0 <= n ->
  GetNGrams a T n
  = Some (if len (Fields T) <? n then []
          else map (fun k => Join (take (Z.to_nat n) (drop k (Fields T))) " ")
                   (seq 0 (Z.to_nat (len (Fields T) - n + 1)))).
Proof.
  intros Hn. unfold GetNGrams, GetWords.
  destruct (len (Fields T) <? n) eqn:Hlt; [reflexivity|].
  apply Z.ltb_ge in Hlt.
  apply (ngrams_loop_spec (Fields T) n Hn _ 0%nat). lia.
Qed.

(** C8. For a window [n >= 1], [GetNGrams] returns the empty sequence when
    the text has fewer than [n] whitespace-separated tokens, and otherwise
    [tokenCount - n + 1] n-grams, the k-th being the [n] tokens from the
    k-th on, joined by single spaces. *)
Theorem C8_GetNGrams (a : TextAnalyzer) (T : string) (n : Z) :
  1 <= n ->
  let tokens := Fields T in
  (len tokens < n -> GetNGrams a T n = Some [])
  /\ (n <= len tokens ->
      exists ngrams,
        GetNGrams a T n = Some ngrams
        /\ len ngrams = len tokens - n + 1
        /\ forall k : nat, (k < length ngrams)%nat ->
             exists window,
               slice tokens (Z.of_nat k) (Z.of_nat k + n) = Some window
               /\ len window = n
               /\ ngrams !! k = Some (Join window " ")).
Proof.
  intros Hn tokens. rewrite GetNGrams_spec by lia. fold tokens. split.
  - intros Hlt. apply Z.ltb_lt in Hlt. rewrite Hlt. reflexivity.
  - intros Hle. apply Z.ltb_ge in Hle. rewrite Hle.
    eexists. split; [reflexivity|]. split.
    + unfold len. rewrite length_map, length_seq. unfold len in Hle. lia.
    + intros k Hk. rewrite length_map, length_seq in Hk.
      unfold len in *.
      exists (take (Z.to_nat n) (drop k tokens)). split; [|split].
      * unfold slice, len.
        assert (Hb : (0 <=? Z.of_nat k) && (Z.of_nat k <=? Z.of_nat k + n)
                       && (Z.of_nat k + n <=? Z.of_nat (length tokens)) = true).
        { rewrite !andb_true_iff, !Z.leb_le. lia. }
        rewrite Hb. rewrite Nat2Z.id.
        replace (Z.of_nat k + n - Z.of_nat k) with n by lia. reflexivity.
      * rewrite length_take, length_drop. lia.
      * rewrite list_lookup_fmap, lookup_seq_lt by assumption. reflexivity.
Qed.

(** An instance of [C8_GetNGrams]: the trigrams of a sentence of five
    words are three. *)
Lemma C8_GetNGrams_witness :
  1 <= 3
  /\ exists ngrams,
       GetNGrams NewTextAnalyzer "This is a test sentence" 3 = Some ngrams
       /\ len ngrams = 3.
Proof.
  assert (Hn : 1 <= 3) by (vm_compute; discriminate).
  split; [exact Hn|].
  destruct (C8_GetNGrams NewTextAnalyzer "This is a test sentence" 3 Hn)
    as [_ Hge].
  destruct Hge as (ngrams & Hrun & Hlen & _); [vm_compute; discriminate|].
  exists ngrams. split; [exact Hrun|]. rewrite Hlen. reflexivity.
Defined.

(* ===================================================================== *)
(** * Properties of the PlagiarismChecker                                 *)
(* ===================================================================== *)

Lemma size_cons_in (k : string) (X Y : gset string) :
  k ∉ X -> k ∈ Y -> size (({[k]} ∪ X) ∩ Y) = S (size (X ∩ Y)).
Proof.
  intros Hk HY.
  replace (({[k]} ∪ X) ∩ Y) with ({[k]} ∪ (X ∩ Y)) by set_solver.
  rewrite size_union by set_solver. rewrite size_singleton. reflexivity.
Qed.

Lemma size_cons_out (k : string) (X Y : gset string) :
  k ∉ Y -> size (({[k]} ∪ X) ∩ Y) = size (X ∩ Y).
Proof. intros HY. f_equal. set_solver. Qed.

Lemma size_union_intersection (A B : gset string) :
  (size (A ∪ B) + size (A ∩ B) = size A + size B)%nat.
Proof.
  rewrite size_union_alt, (size_difference_alt B A).
  assert (size (B ∩ A) <= size B)%nat
    by (apply subseteq_size; set_solver).
  replace (A ∩ B) with (B ∩ A) by set_solver. lia.
Qed.

Section CheckerFacts.
Context `{UnicodeTables} `{RangeOrder}.

(** ** Ranging over a map *)

Lemma range_map_keys {V} (m : gmap string V) (k : string) :
  k ∈ (range_map m).*1 <-> k ∈ dom m.
Proof.
  rewrite (range_map_perm V m), elem_of_dom. split.
  - intros ([k' v] & -> & Hin)%list_elem_of_fmap.
    apply elem_of_map_to_list in Hin. eauto.
  - intros [v Hv]. apply list_elem_of_fmap. exists (k, v).
    split; [reflexivity|]. apply elem_of_map_to_list. assumption.
Qed.

Lemma range_map_NoDup {V} (m : gmap string V) : NoDup (range_map m).*1.
Proof. rewrite (range_map_perm V m). apply NoDup_fst_map_to_list. Qed.

Lemma range_map_elem {V} (m : gmap string V) (k : string) (v : V) :
  (k, v) ∈ range_map m <-> m !! k = Some v.
Proof. rewrite (range_map_perm V m). apply elem_of_map_to_list. Qed.

Lemma range_map_set {V} (m : gmap string V) :
  list_to_set (range_map m).*1 = dom m.
Proof.
  apply set_eq. intros k. rewrite elem_of_list_to_set. apply range_map_keys.
Qed.

(** ** The n-gram sets *)

Lemma insert_true_lookup {V} (l : list (string * V)) :
  forall (s0 : gmap string bool) (k : string),
    foldl (fun set kv => <[fst kv := true]> set) s0 l !! k
    = if decide (k ∈ l.*1) then Some true else s0 !! k.
Proof.
  induction l as [|[k' v] l IH]; intros s0 k; cbn [foldl fmap list_fmap].
  - destruct (decide (k ∈ [])) as [Hin|_]; [inversion Hin|reflexivity].
  - rewrite IH. cbn [fst].
    destruct (decide (k ∈ l.*1)) as [Hin|Hnin].
    + rewrite decide_True by (right; assumption). reflexivity.
    + destruct (decide (k = k')) as [->|Hne].
      * rewrite decide_True by left. apply lookup_insert_eq.
      * rewrite decide_False by (rewrite elem_of_cons; tauto).
        apply lookup_insert_ne. congruence.
Qed.

Lemma set_of_ngrams_lookup (g : gmap string Z) (k : string) :
  set_of_ngrams g !! k = if decide (k ∈ dom g) then Some true else None.
Proof.
  unfold set_of_ngrams. rewrite insert_true_lookup, lookup_empty.
  destruct (decide (k ∈ (range_map g).*1)) as [Hin|Hnin];
    [rewrite decide_True | rewrite decide_False];
    rewrite <- ?range_map_keys; done.
Qed.

Lemma set_of_ngrams_dom (g : gmap string Z) : dom (set_of_ngrams g) = dom g.
Proof.
  apply set_eq. intros k. rewrite elem_of_dom, set_of_ngrams_lookup.
  destruct (decide (k ∈ dom g)); split; intros Hk; done.
Qed.

Lemma set_of_ngrams_index (g : gmap string Z) (k : string) :
  map_index_bool (set_of_ngrams g) k = true <-> k ∈ dom g.
Proof.
  unfold map_index_bool. rewrite set_of_ngrams_lookup.
  destruct (decide (k ∈ dom g)); cbn; split; intros; done.
Qed.

Lemma len_set_of_ngrams (g : gmap string Z) :
  len_map (set_of_ngrams g) = Z.of_nat (size (dom g)).
Proof.
  unfold len_map. rewrite <- set_of_ngrams_dom, size_dom. reflexivity.
Qed.

(** The loop that counts the intersection. *)
Lemma count_common (Y : gset string) (P : string -> bool) {V}
  (l : list (string * V)) :
  (forall k, P k = true <-> k ∈ Y) ->
  NoDup l.*1 ->
  forall acc : Z,
    foldl (fun intersection kv =>
             if P (fst kv) then intersection + 1 else intersection) acc l
    = acc + Z.of_nat (size ((list_to_set l.*1 : gset string) ∩ Y)).
Proof.
  intros HP. induction l as [|[k v] l IH]; intros Hnd acc;
    cbn [foldl fmap list_fmap fst].
  - rewrite list_to_set_nil, intersection_empty_l_L, size_empty. lia.
  - apply NoDup_cons in Hnd as [Hk Hnd]. rewrite IH by assumption.
    rewrite list_to_set_cons. destruct (P k) eqn:HPk.
    + apply HP in HPk. rewrite size_cons_in; [lia| |assumption].
      rewrite elem_of_list_to_set. assumption.
    + rewrite size_cons_out; [reflexivity|].
      rewrite <- HP. congruence.
Qed.

(** [calculateJaccardSimilarity] computes the Jaccard similarity of the
    key sets of the two frequency maps. *)
Lemma calculateJaccardSimilarity_jaccard (c : PlagiarismChecker)
  (g1 g2 : gmap string Z) :
  calculateJaccardSimilarity c g1 g2 = jaccard (dom g1) (dom g2).
Proof.
  unfold calculateJaccardSimilarity, jaccard.
  rewrite (count_common (dom g2) _ (range_map (set_of_ngrams g1)))
    by (apply set_of_ngrams_index || apply range_map_NoDup).
  rewrite range_map_set, set_of_ngrams_dom, !len_set_of_ngrams, Z.add_0_l.
  pose proof (size_union_intersection (dom g1) (dom g2)) as Hsz.
  replace (Z.of_nat (size (dom g1)) + Z.of_nat (size (dom g2))
           - Z.of_nat (size (dom g1 ∩ dom g2)))
    with (Z.of_nat (size (dom g1 ∪ dom g2))) by lia.
  destruct (decide (size (dom g1 ∪ dom g2) = 0%nat)) as [Hz|Hnz].
  - rewrite Hz. reflexivity.
  - destruct (Z.eqb_spec (Z.of_nat (size (dom g1 ∪ dom g2))) 0); [lia|].
    reflexivity.
Qed.

End CheckerFacts.

Section CheckerTheorems.
Context `{UnicodeTables} `{RangeOrder}.

(** ** The frequency map of the n-grams *)

Lemma count_ngrams_dom (l : list string) :
  forall m0 : gmap string Z,
    dom (foldl (fun ngramFreq ngram =>
                  <[ngram := map_index_int ngramFreq ngram + 1]> ngramFreq)
               m0 l)
    = dom m0 ∪ list_to_set l.
Proof.
  induction l as [|x l IH]; intros m0; cbn [foldl].
  - rewrite list_to_set_nil. set_solver.
  - rewrite IH, dom_insert_L, list_to_set_cons. set_solver.
Qed.

Lemma generateNGrams_total (c : PlagiarismChecker) (text : string) (n : Z) :
  0 <= n ->
  exists g ngrams,
    GetNGrams (textAnalyzer c) text n = Some ngrams
    /\ generateNGrams c text n = Some g
    /\ dom g = list_to_set ngrams.
Proof.
  intros Hn. unfold generateNGrams. rewrite GetNGrams_spec by assumption.
  cbn [mbind option_bind]. eexists _, _. split; [reflexivity|].
  split; [reflexivity|]. rewrite count_ngrams_dom. set_solver.
Qed.

(** A text with fewer than [n] tokens has no n-gram; a text with at least
    [n >= 1] tokens has one. *)
Lemma generateNGrams_empty (c : PlagiarismChecker) (text : string) (n : Z)
  (g : gmap string Z) :
  1 <= n -> generateNGrams c text n = Some g ->
  (len (Fields text) < n -> g = ∅)
  /\ (n <= len (Fields text) -> g <> ∅).
Proof.
  intros Hn Hg. unfold generateNGrams in Hg.
  rewrite GetNGrams_spec in Hg by lia. cbn [mbind option_bind] in Hg.
  injection Hg as <-. split.
  - intros Hlt. apply Z.ltb_lt in Hlt. rewrite Hlt. reflexivity.
  - intros Hle. assert (Hge := Hle). apply Z.ltb_ge in Hge. rewrite Hge.
    destruct (Z.to_nat (len (Fields text) - n + 1)) as [|k] eqn:Hk; [lia|].
    cbn [seq map foldl]. intros Hempty.
    apply (f_equal dom) in Hempty.
    rewrite count_ngrams_dom, dom_insert_L, dom_empty_L in Hempty.
    set_solver.
Qed.

(** ** One candidate *)

Lemma check_one_spec (c : PlagiarismChecker) (content : string)
  (g1 : gmap string Z) (acc : list string) (id other : string) :
  0 <= NGramSize c ->
  generateNGrams c (preprocessText c content) (NGramSize c) = Some g1 ->
  (candidate_matches c content other
   /\ check_one c (preprocessText c content) g1 acc (id, other)
      = Some (acc ++ [id]))
  \/ (~ candidate_matches c content other
      /\ check_one c (preprocessText c content) g1 acc (id, other) = Some acc).
Proof.
  intros Hn Hg1. unfold check_one, candidate_matches.
  destruct (String.eqb_spec (calculateHash c (preprocessText c content))
              (calculateHash c (preprocessText c other))) as [Heq|Hne].
  - left. split; [left; assumption|reflexivity].
  - destruct (generateNGrams_total c (preprocessText c other) (NGramSize c) Hn)
      as (g2 & ngrams & _ & Hg2 & _).
    rewrite Hg2. cbn [mbind option_bind].
    rewrite calculateJaccardSimilarity_jaccard.
    destruct (SimilarityThreshold c <=? jaccard (dom g1) (dom g2))%float eqn:Hle.
    + left. split; [|reflexivity]. right. exists g1, g2. auto.
    + right. split; [|reflexivity].
      intros [Heq|(g1' & g2' & Hg1' & Hg2' & Hle')]; [contradiction|].
      congruence.
Qed.

(** ** The loop over the candidates *)

Lemma check_loop_spec (c : PlagiarismChecker) (content : string)
  (g1 : gmap string Z) :
  0 <= NGramSize c ->
  generateNGrams c (preprocessText c content) (NGramSize c) = Some g1 ->
  forall (entries : list (string * string)) (acc : list string),
  exists found,
    check_loop c (preprocessText c content) g1 entries acc = Some (acc ++ found)
    /\ sublist found entries.*1
    /\ forall id, id ∈ found ->
         exists other, (id, other) ∈ entries /\ candidate_matches c content other.
Proof.
  intros Hn Hg1 entries.
  induction entries as [|[id other] entries IH]; intros acc; cbn [check_loop].
  - exists []. rewrite app_nil_r. split; [reflexivity|].
    split; [constructor|]. intros id Hin. inversion Hin.
  - destruct (check_one_spec c content g1 acc id other Hn Hg1)
      as [[Hm ->]|[Hm ->]]; cbn [mbind option_bind].
    + destruct (IH (acc ++ [id])) as (found & -> & Hsub & Hall).
      exists (id :: found). rewrite <- app_assoc. split; [reflexivity|].
      split; [cbn; constructor; assumption|].
      intros id' [->|Hin]%elem_of_cons.
      * exists other. split; [left|assumption].
      * destruct (Hall id' Hin) as (o & Ho & Hmo).
        exists o. split; [right; assumption|assumption].
    + destruct (IH acc) as (found & -> & Hsub & Hall).
      exists found. split; [reflexivity|].
      split; [cbn; apply sublist_cons; assumption|].
      intros id' Hin. destruct (Hall id' Hin) as (o & Ho & Hmo).
      exists o. split; [right; assumption|assumption].
Qed.

Lemma check_loop_complete (c : PlagiarismChecker) (content : string)
  (g1 : gmap string Z) :
  0 <= NGramSize c ->
  generateNGrams c (preprocessText c content) (NGramSize c) = Some g1 ->
  forall (entries : list (string * string)) (acc ids : list string),
    check_loop c (preprocessText c content) g1 entries acc = Some ids ->
    forall id other,
      (id, other) ∈ entries -> candidate_matches c content other -> id ∈ ids.
Proof.
  intros Hn Hg1 entries.
  induction entries as [|[id0 other0] entries IH]; intros acc ids Hloop id other Hin Hm.
  - inversion Hin.
  - cbn [check_loop] in Hloop.
    destruct (check_one_spec c content g1 acc id0 other0 Hn Hg1)
      as [[Hm0 Hone]|[Hm0 Hone]]; rewrite Hone in Hloop;
      cbn [mbind option_bind] in Hloop.
    + apply elem_of_cons in Hin as [Heq|Hin].
      * injection Heq as -> ->.
        destruct (check_loop_spec c content g1 Hn Hg1 entries (acc ++ [id0]))
          as (found & Hf & _).
        rewrite Hf in Hloop. injection Hloop as <-.
        rewrite !elem_of_app, list_elem_of_singleton. auto.
      * eapply IH; eassumption.
    + apply elem_of_cons in Hin as [Heq|Hin].
      * injection Heq as -> ->. contradiction.
      * eapply IH; eassumption.
Qed.

End CheckerTheorems.

(** ** The similarity measure *)

Lemma jaccard_comm (A B : gset string) : jaccard A B = jaccard B A.
Proof.
  unfold jaccard.
  rewrite (union_comm_L A B), (intersection_comm_L A B). reflexivity.
Qed.

Lemma jaccard_self (A : gset string) :
  Z.of_nat (size A) < 2 ^ 63 ->
  jaccard A A = if decide (A = ∅) then 0%float else 1%float.
Proof.
  intros Hsz. unfold jaccard.
  rewrite union_idemp_L, intersection_idemp_L.
  destruct (decide (A = ∅)) as [->|Hne].
  - rewrite size_empty. reflexivity.
  - destruct (decide (size A = 0%nat)) as [Hz|Hnz].
    + apply size_empty_iff in Hz. apply leibniz_equiv in Hz. contradiction.
    + apply Float64.float64_div_self. lia.
Qed.

Lemma jaccard_disjoint (A B : gset string) :
  A ∩ B = ∅ -> Z.of_nat (size (A ∪ B)) < 2 ^ 63 -> jaccard A B = 0%float.
Proof.
  intros Hd Hsz. unfold jaccard. rewrite Hd, size_empty.
  destruct (decide (size (A ∪ B) = 0%nat)) as [Hz|Hnz]; [reflexivity|].
  apply Float64.float64_div_zero. lia.
Qed.

Lemma float_zero_not_one : 0%float <> 1%float.
Proof.
  intros Heq. apply (f_equal (fun x => PrimFloat.eqb x 1)) in Heq.
  vm_compute in Heq. discriminate.
Qed.

(** C2, as amended.  The similarity that [calculateJaccardSimilarity]
    computes is symmetric.  The similarity of a document against itself
    is 1.0 when its normalized form has at least [NGramSize] tokens, and
    0.0 when it has fewer (its n-gram set is then empty).  The similarity
    of two n-gram sets with no common n-gram is 0.0.  The lengths of the
    maps are Go [int]s, below 2^63. *)
Theorem C2_similarity_properties `{UnicodeTables} `{RangeOrder}
  (c : PlagiarismChecker) :
  (forall g1 g2 : gmap string Z,
     calculateJaccardSimilarity c g1 g2 = calculateJaccardSimilarity c g2 g1)
  /\ (forall (doc : string) (g : gmap string Z),
        1 <= NGramSize c ->
        generateNGrams c (preprocessText c doc) (NGramSize c) = Some g ->
        len_map g < 2 ^ 63 ->
        let tokens := Fields (preprocessText c doc) in
        (NGramSize c <= len tokens ->
         calculateJaccardSimilarity c g g = 1%float)
        /\ (len tokens < NGramSize c ->
            calculateJaccardSimilarity c g g = 0%float))
  /\ (forall g1 g2 : gmap string Z,
        dom g1 ∩ dom g2 = ∅ ->
        len_map g1 + len_map g2 < 2 ^ 63 ->
        calculateJaccardSimilarity c g1 g2 = 0%float).
Proof.
  split; [|split].
  - intros g1 g2. rewrite !calculateJaccardSimilarity_jaccard.
    apply jaccard_comm.
  - intros doc g Hn Hg Hsz tokens.
    destruct (generateNGrams_empty c _ _ g Hn Hg) as [Hlt Hge].
    rewrite calculateJaccardSimilarity_jaccard, jaccard_self
      by (unfold len_map in Hsz; rewrite size_dom; assumption).
    split; intros Htok.
    + rewrite decide_False; [reflexivity|].
      intros Hdom. apply dom_empty_iff_L in Hdom. apply Hge; assumption.
    + rewrite (Hlt Htok), dom_empty_L, decide_True; reflexivity.
  - intros g1 g2 Hd Hsz. rewrite calculateJaccardSimilarity_jaccard.
    apply jaccard_disjoint; [assumption|].
    pose proof (size_union_intersection (dom g1) (dom g2)) as Hs.
    unfold len_map in Hsz. rewrite !size_dom in Hs. lia.
Qed.

(** An instance of [C2_similarity_properties]: a sentence of four
    significant words is at similarity 1.0 of itself, and two sentences
    with no common trigram are at similarity 0.0. *)
Lemma C2_similarity_properties_witness :
  let c := NewPlagiarismChecker in
  let ngrams doc :=
    default ∅ (generateNGrams c
                 (@preprocessText ascii_tables c doc) (NGramSize c)) in
  @calculateJaccardSimilarity listed_order c
    (ngrams "the quick brown fox jumps") (ngrams "the quick brown fox jumps")
  = 1%float
  /\ @calculateJaccardSimilarity listed_order c
       (ngrams "the quick brown fox jumps") (ngrams "a lazy dog sleeps here")
     = 0%float.
Proof.
  intros c ngrams.
  destruct (@C2_similarity_properties ascii_tables listed_order c)
    as (_ & Hself & Hdisj).
  split.
  - apply (Hself "the quick brown fox jumps");
      [vm_compute; discriminate | vm_compute; reflexivity
      | vm_compute; reflexivity | vm_compute; discriminate].
  - apply Hdisj; [vm_compute; reflexivity | vm_compute; reflexivity].
Defined.

(** The claim C2 as the specification states it fails: the similarity of
    the document "Hello world" against itself is 0.0, not 1.0, since a
    text of two tokens has no trigram. *)
Lemma C2_counterexample :
  let c := NewPlagiarismChecker in
  exists g : gmap string Z,
    generateNGrams c (@preprocessText ascii_tables c "Hello world")
      (NGramSize c) = Some g
    /\ @calculateJaccardSimilarity listed_order c g g = 0%float
    /\ @calculateJaccardSimilarity listed_order c g g <> 1%float.
Proof.
  exists ∅. split; [vm_compute; reflexivity|].
  split; [vm_compute; reflexivity|].
  assert (Hv : @calculateJaccardSimilarity listed_order NewPlagiarismChecker ∅ ∅
               = 0%float) by (vm_compute; reflexivity).
  cbv zeta. rewrite Hv. apply float_zero_not_one.
Qed.

(** ** CheckPlagiarism *)

(** The identifiers that [CheckPlagiarism] returns, for any checker whose
    window is not negative. *)
Lemma CheckPlagiarism_ids `{UnicodeTables} `{RangeOrder}
  (c : PlagiarismChecker) (content : string)
  (otherContents : gmap string string) :
  0 <= NGramSize c ->
  exists matchingIds : list string,
    CheckPlagiarism c content otherContents
    = Some (0 <? len matchingIds, matchingIds)
    /\ (forall id, id ∈ matchingIds <->
          exists other, otherContents !! id = Some other
                        /\ candidate_matches c content other)
    /\ matchingIds `sublist_of` (range_map otherContents).*1.
Proof.
  intros Hn. unfold CheckPlagiarism.
  destruct (generateNGrams_total c (preprocessText c content) (NGramSize c) Hn)
    as (g1 & ngrams & _ & Hg1 & _).
  rewrite Hg1. cbn [mbind option_bind].
  destruct (check_loop_spec c content g1 Hn Hg1 (range_map otherContents) [])
    as (found & Hloop & Hsub & Hsound).
  rewrite Hloop. cbn [mbind option_bind app].
  exists found. split; [reflexivity|]. split; [|exact Hsub].
  intros id. split.
  - intros Hin. destruct (Hsound id Hin) as (other & Ho & Hm).
    exists other. split; [apply range_map_elem; assumption|assumption].
  - intros (other & Ho & Hm).
    apply (check_loop_complete c content g1 Hn Hg1 _ _ _ Hloop id other);
      [apply range_map_elem; assumption|assumption].
Qed.

(** C1. [CheckPlagiarism] reports a match exactly when some candidate of
    the corpus matches, and the identifiers it returns are exactly those
    of the matching candidates, each once; a candidate matches when the
    hashes of the two normalized strings are equal or the Jaccard
    similarity of their n-gram sets is at or above the threshold.  The
    checker that [NewPlagiarismChecker] builds has threshold 0.3 and
    window 3.  ([NGramSize] is not negative: a negative window panics.) *)
Theorem C1_CheckPlagiarism `{UnicodeTables} `{RangeOrder}
  (c : PlagiarismChecker) (content : string)
  (otherContents : gmap string string) :
  0 <= NGramSize c ->
  (exists (isMatch : bool) (matchingIds : list string),
     CheckPlagiarism c content otherContents = Some (isMatch, matchingIds)
     /\ (isMatch = true <->
         exists id other, otherContents !! id = Some other
                          /\ candidate_matches c content other)
     /\ (forall id, id ∈ matchingIds <->
           exists other, otherContents !! id = Some other
                         /\ candidate_matches c content other)
     /\ NoDup matchingIds)
  /\ SimilarityThreshold NewPlagiarismChecker = 0.3%float
  /\ NGramSize NewPlagiarismChecker = 3.
Proof.
  intros Hn. split; [|split; reflexivity].
  destruct (CheckPlagiarism_ids c content otherContents Hn)
    as (found & Hrun & Hiff & Hsub).
  exists (0 <? len found), found. split; [exact Hrun|].
  split; [|split; [exact Hiff|]].
  - rewrite Z.ltb_lt. unfold len. split.
    + intros Hlen. destruct found as [|id found]; [cbn in Hlen; lia|].
      destruct (proj1 (Hiff id) ltac:(left)) as (other & Ho & Hm). eauto.
    + intros (id & other & Ho & Hm).
      assert (Hin : id ∈ found) by (apply Hiff; eauto).
      destruct found; [inversion Hin|cbn; lia].
  - eapply sublist_NoDup; [apply (range_map_NoDup otherContents)|exact Hsub].
Qed.

(** An instance of [C1_CheckPlagiarism]: the default checker on a corpus of
    two documents. *)
Lemma C1_CheckPlagiarism_witness :
  0 <= NGramSize NewPlagiarismChecker
  /\ exists (isMatch : bool) (matchingIds : list string),
       @CheckPlagiarism ascii_tables listed_order NewPlagiarismChecker
         "This is a test document for plagiarism detection."
         {[ "f1" := "This is a test document for plagiarism detection.";
            "f4" := "This document has completely different content." ]}
       = Some (isMatch, matchingIds)
       /\ NoDup matchingIds.
Proof.
  assert (Hn : 0 <= NGramSize NewPlagiarismChecker) by (vm_compute; discriminate).
  split; [exact Hn|].
  destruct (@C1_CheckPlagiarism ascii_tables listed_order NewPlagiarismChecker
              "This is a test document for plagiarism detection."
              {[ "f1" := "This is a test document for plagiarism detection.";
                 "f4" := "This document has completely different content." ]}
              Hn)
    as ((isMatch & ids & Hrun & _ & _ & Hnd) & _).
  exists isMatch, ids. split; assumption.
Defined.

Lemma generateNGrams_empty_text (c : PlagiarismChecker) (n : Z) :
  1 <= n -> generateNGrams c "" n = Some ∅.
Proof.
  intros Hn. unfold generateNGrams. rewrite GetNGrams_spec by lia.
  change (Fields "") with (@nil string). change (len []) with 0.
  destruct (Z.ltb_spec 0 n); [reflexivity|lia].
Qed.

(** C10. When the normalized forms of the content and of a candidate are
    both the empty string, the hashes are equal and [CheckPlagiarism]
    reports a match that includes the candidate's identifier, although the
    n-gram sets of both are empty and their Jaccard similarity is 0.0. *)
Theorem C10_empty_normalized_forms `{UnicodeTables} `{RangeOrder}
  (c : PlagiarismChecker) (content : string)
  (otherContents : gmap string string) (id other : string) :
  1 <= NGramSize c ->
  preprocessText c content = "" ->
  otherContents !! id = Some other ->
  preprocessText c other = "" ->
  calculateHash c (preprocessText c content)
    = calculateHash c (preprocessText c other)
  /\ (exists matchingIds,
        CheckPlagiarism c content otherContents = Some (true, matchingIds)
        /\ id ∈ matchingIds)
  /\ generateNGrams c (preprocessText c content) (NGramSize c) = Some ∅
  /\ generateNGrams c (preprocessText c other) (NGramSize c) = Some ∅
  /\ calculateJaccardSimilarity c ∅ ∅ = 0%float.
Proof.
  intros Hn Hc Ho Hother.
  assert (Hhash : calculateHash c (preprocessText c content)
                  = calculateHash c (preprocessText c other))
    by (rewrite Hc, Hother; reflexivity).
  split; [exact Hhash|]. split.
  - destruct (CheckPlagiarism_ids c content otherContents ltac:(lia))
      as (ids & Hrun & Hids & _).
    assert (Hm : candidate_matches c content other) by (left; exact Hhash).
    assert (Hin : id ∈ ids) by (apply Hids; eauto).
    exists ids. split; [|exact Hin]. rewrite Hrun. do 3 f_equal.
    apply Z.ltb_lt. destruct ids; [inversion Hin|unfold len; cbn; lia].
  - rewrite Hc, Hother, generateNGrams_empty_text by assumption.
    split; [reflexivity|]. split; [reflexivity|].
    rewrite calculateJaccardSimilarity_jaccard, dom_empty_L.
    apply jaccard_disjoint; [set_solver|].
    rewrite union_idemp_L, size_empty. lia.
Qed.

(** An instance of [C10_empty_normalized_forms]: two documents made of stop
    words and punctuation. *)
Lemma C10_empty_normalized_forms_witness :
  @preprocessText ascii_tables NewPlagiarismChecker "The, and: is!" = ""
  /\ @preprocessText ascii_tables NewPlagiarismChecker "of the ... a" = ""
  /\ exists matchingIds,
       @CheckPlagiarism ascii_tables listed_order NewPlagiarismChecker
         "The, and: is!" {[ "x" := "of the ... a" ]}
       = Some (true, matchingIds)
       /\ "x" ∈ matchingIds.
Proof.
  assert (H1 : @preprocessText ascii_tables NewPlagiarismChecker
                 "The, and: is!" = "") by (vm_compute; reflexivity).
  assert (H2 : @preprocessText ascii_tables NewPlagiarismChecker
                 "of the ... a" = "") by (vm_compute; reflexivity).
  split; [exact H1|]. split; [exact H2|].
  destruct (@C10_empty_normalized_forms ascii_tables listed_order
              NewPlagiarismChecker "The, and: is!"
              {[ "x" := "of the ... a" ]} "x" "of the ... a")
    as (_ & Hmatch & _);
    [vm_compute; discriminate | exact H1 | vm_compute; reflexivity
    | exact H2 |].
  exact Hmatch.
Defined.

(* ===================================================================== *)
(** * Properties of the AnalysisService                                   *)
(* ===================================================================== *)

(** ** Traces *)

Lemma comparisons_app (a b : list Event) :
  comparisons (a ++ b) = comparisons a ++ comparisons b.
Proof. apply omap_app. Qed.
Lemma comparisons_cons (ev : Event) (tr : list Event) :
  comparisons (ev :: tr)
  = match comparison ev with
    | Some c => c :: comparisons tr
    | None => comparisons tr
    end.
Proof. reflexivity. Qed.
Lemma comparisons_nil : comparisons [] = [].
Proof. reflexivity. Qed.

Lemma save_calls_app (a b : list Event) :
  save_calls (a ++ b) = save_calls a ++ save_calls b.
Proof. apply omap_app. Qed.
Lemma save_calls_cons (ev : Event) (tr : list Event) :
  save_calls (ev :: tr)
  = match save_call ev with
    | Some r => r :: save_calls tr
    | None => save_calls tr
    end.
Proof. reflexivity. Qed.
Lemma save_calls_nil : save_calls [] = [].
Proof. reflexivity. Qed.

Lemma fetches_app (a b : list Event) :
  fetches (a ++ b) = fetches a ++ fetches b.
Proof. apply omap_app. Qed.
Lemma fetches_cons (ev : Event) (tr : list Event) :
  fetches (ev :: tr)
  = match fetch_call ev with
    | Some k => k :: fetches tr
    | None => fetches tr
    end.
Proof. reflexivity. Qed.
Lemma fetches_nil : fetches [] = [].
Proof. reflexivity. Qed.

Lemma listings_app (a b : list Event) :
  listings (a ++ b) = listings a ++ listings b.
Proof. apply omap_app. Qed.
Lemma listings_cons (ev : Event) (tr : list Event) :
  listings (ev :: tr)
  = match listing_call ev with
    | Some u => u :: listings tr
    | None => listings tr
    end.
Proof. reflexivity. Qed.
Lemma listings_nil : listings [] = [].
Proof. reflexivity. Qed.

Create Rewrite HintDb trace.
#[global] Hint Rewrite comparisons_app comparisons_cons comparisons_nil
  save_calls_app save_calls_cons save_calls_nil
  fetches_app fetches_cons fetches_nil
  listings_app listings_cons listings_nil : trace.

(** Read a trace: the calls of one kind in it. *)
Ltac read_trace :=
  repeat (autorewrite with trace;
          cbn [save_call fetch_call listing_call comparison]);
  repeat match goal with
         | H : comparisons _ = _ |- _ => rewrite H
         | H : save_calls _ = _ |- _ => rewrite H
         | H : fetches _ = _ |- _ => rewrite H
         | H : listings _ = _ |- _ => rewrite H
         end;
  cbn [app]; rewrite ?app_nil_r.

(** Answer the [Printf] call at the head of the goal. *)
Ltac answer_printf h w2 :=
  cbn [run];
  match goal with
  | |- context [h unit (Printf ?m) ?w] =>
    destruct (h unit (Printf m) w) as [[] w2] eqn:?
  end.

Section ServiceFacts.
Context {W : Type} (h : Handler W).

Lemma run_bind {A B} (m : Prog A) (f : A -> Prog B) :
  forall w : W,
    run h (bind m f) w
    = let '(a, w1, tr1) := run h m w in
      match a with
      | Some x => let '(b, w2, tr2) := run h (f x) w1 in (b, w2, tr1 ++ tr2)
      | None => (None, w1, tr1)
      end.
Proof.
  induction m as [a| |X op k IH|e k IH]; intros w; cbn [bind run].
  - destruct (run h (f a) w) as [[b w2] tr2]. reflexivity.
  - reflexivity.
  - destruct (h X op w) as [x w1]. rewrite IH.
    destruct (run h (k x) w1) as [[[a|] w2] tr1]; [|reflexivity].
    destruct (run h (f a) w2) as [[b w3] tr2]. reflexivity.
  - rewrite IH.
    destruct (run h k w) as [[[a|] w2] tr1]; [|reflexivity].
    destruct (run h (f a) w2) as [[b w3] tr2]. reflexivity.
Qed.

(** The loop over the corpus: it fetches every listed identifier but the
    target's, in order, keeps the contents fetched with success, and goes
    on after a failure. *)
Lemma run_fetch_others (fileID : string) (otherFileIDs : list string) :
  forall (acc : gmap string string) (w : W),
  exists corpus w' tr,
    run h (fetch_others fileID otherFileIDs acc) w = (Some corpus, w', tr)
    /\ fetches tr
       = List.filter (fun k => negb (String.eqb k fileID)) otherFileIDs
    /\ corpus = fill_corpus acc tr
    /\ save_calls tr = [] /\ comparisons tr = [] /\ listings tr = [].
Proof.
  unfold fetches, save_calls, comparisons, listings.
  induction otherFileIDs as [|k ids IH]; intros acc w; cbn [fetch_others].
  - exists acc, w, []. repeat split; reflexivity.
  - cbn [List.filter]. destruct (String.eqb k fileID) eqn:Hk; cbn [negb].
    + apply IH.
    + cbn [run]. destruct (h _ (GetFile k) w) as [[[nm content]|e] w1] eqn:Hget.
      * destruct (IH (<[k := content]> acc) w1)
          as (corpus & w' & tr & Hrun & Hf & Hc & Hs & Hcmp & Hl).
        rewrite Hrun. eexists _, _, _. split; [reflexivity|].
        cbn. rewrite Hf, Hs, Hcmp, Hl. repeat split; try reflexivity.
        exact Hc.
      * answer_printf h w2.
        destruct (IH acc w2)
          as (corpus & w' & tr & Hrun & Hf & Hc & Hs & Hcmp & Hl).
        rewrite Hrun. eexists _, _, _. split; [reflexivity|].
        cbn. rewrite Hf, Hs, Hcmp, Hl. repeat split; try reflexivity.
        exact Hc.
Qed.

(** The loop over the similar files never fails the request. *)
Lemma run_save_similar (fileID : string) (similarFileIDs : list string) :
  forall w : W,
  exists w' tr,
    run h (save_similar fileID similarFileIDs) w = (Some tt, w', tr)
    /\ save_calls tr = [] /\ comparisons tr = []
    /\ fetches tr = [] /\ listings tr = [].
Proof.
  unfold fetches, save_calls, comparisons, listings.
  induction similarFileIDs as [|k ids IH]; intros w; cbn [save_similar run].
  - exists w, []. repeat split; reflexivity.
  - destruct (h _ (SaveSimilarFile fileID k) w) as [[e|] w1].
    + answer_printf h w2.
      destruct (IH w2) as (w' & tr & Hrun & Hs & Hc & Hf & Hl).
      rewrite Hrun. eexists _, _. split; [reflexivity|].
      cbn. rewrite Hs, Hc, Hf, Hl. repeat split; reflexivity.
    + destruct (IH w1) as (w' & tr & Hrun & Hs & Hc & Hf & Hl).
      rewrite Hrun. eexists _, _. split; [reflexivity|].
      cbn. rewrite Hs, Hc, Hf, Hl. repeat split; reflexivity.
Qed.

(** The keys of the corpus are listed identifiers other than the target's. *)
Lemma fill_corpus_dom (tr : list Event) :
  forall acc : gmap string string,
    dom (fill_corpus acc tr) ⊆ dom acc ∪ list_to_set (fetches tr).
Proof.
  induction tr as [|ev tr IH]; intros acc; cbn [fill_corpus foldl].
  - set_solver.
  - fold (fill_corpus (match fetched_content ev with
                       | Some (k, v) => <[k:=v]> acc | None => acc end) tr).
    etransitivity; [apply IH|].
    unfold fetches. cbn [omap list_omap].
    destruct ev as [X op a|c o]; cbn [fetched_content fetch_call].
    + destruct op; try set_solver.
      destruct a as [[nm content]|e]; cbn.
      * rewrite dom_insert. set_solver.
      * set_solver.
    + set_solver.
Qed.

End ServiceFacts.

Lemma wraps_refl (e : error) : wraps e e.
Proof. destruct e; left; reflexivity. Qed.

(** ** A failure of the corpus listing *)

(** C4. For an identifier with no stored result, when the listing of the
    corpus identifiers ([GetAllFileIDs]) fails, [AnalyzeFile] returns an
    error that reports this failure of the collaborator, which it wraps,
    with zero results, and [SaveAnalysisResult] is never called: no
    AnalysisResult is persisted. *)
Theorem C4_listing_failure `{UnicodeTables} `{RangeOrder} {W : Type}
  (h : Handler W) (s : AnalysisService) (fileID : string)
  (generateWordCloud : bool) (w w1 w2 w3 : W) (e0 e : error)
  (name content : string) :
  h _ (GetAnalysisResult fileID) w = (Err e0, w1) ->
  h _ (GetFile fileID) w1 = (Ok (name, content), w2) ->
  h _ GetAllFileIDs w2 = (Err e, w3) ->
  exists tr,
    run h (AnalyzeFile s fileID generateWordCloud) w
    = (Some (failed (Errorf "failed to get all file IDs" e)), w3, tr)
    /\ wraps (Errorf "failed to get all file IDs" e) e
    /\ save_calls tr = []
    /\ comparisons tr = [].
Proof.
  intros Hmiss Hget Hlist. unfold AnalyzeFile. cbn [run].
  rewrite Hmiss. cbn [run]. rewrite Hget.
  destruct (AnalyzeText (s_textAnalyzer s) content) as [[p wd] ch].
  cbn [run]. rewrite Hlist. cbn [run].
  eexists. split; [reflexivity|]. split; [right; apply wraps_refl|].
  split; reflexivity.
Qed.

(** An instance of [C4_listing_failure]: the third call, the listing, meets
    an outage. *)
Lemma C4_listing_failure_witness :
  exists w' tr,
    run Mem.handler
      (@AnalyzeFile ascii_tables listed_order service "doc" false)
      (Scenario.single [2%nat])
    = (Some (failed (Errorf "failed to get all file IDs"
                       (Errorf "failed to query all file IDs" Mem.unavailable))),
       w', tr)
    /\ save_calls tr = [].
Proof.
  edestruct (@C4_listing_failure ascii_tables listed_order _ Mem.handler
               service "doc" false (Scenario.single [2%nat])
               (Scenario.after (GetAnalysisResult "doc") (Scenario.single [2%nat]))
               (Scenario.after (GetFile "doc")
                  (Scenario.after (GetAnalysisResult "doc") (Scenario.single [2%nat]))))
    as (tr & Hrun & _ & Hsave & _);
    [vm_compute; reflexivity ..|].
  eexists _, tr. split; [exact Hrun|exact Hsave].
Defined.

(** ** The second fetch of the target *)

(** C9. With no stored result and a word cloud requested, [AnalyzeFile]
    fetches the content of the target a second time, after the corpus has
    been fetched and the similarity check has run; when this second fetch
    fails the request returns an error with zero results and
    [SaveAnalysisResult] is never called. *)
Theorem C9_second_fetch_failure `{UnicodeTables} `{RangeOrder} {W : Type}
  (h : Handler W) (s : AnalysisService) (fileID : string)
  (w w1 w2 w3 w4 w5 : W) (e0 e : error) (name content : string)
  (otherFileIDs : list string) (corpus : gmap string string)
  (trf : list Event) :
  0 <= NGramSize (s_plagiarismChecker s) ->
  h _ (GetAnalysisResult fileID) w = (Err e0, w1) ->
  h _ (GetFile fileID) w1 = (Ok (name, content), w2) ->
  h _ GetAllFileIDs w2 = (Ok otherFileIDs, w3) ->
  run h (fetch_others fileID otherFileIDs ∅) w3 = (Some corpus, w4, trf) ->
  h _ (GetFile fileID) w4 = (Err e, w5) ->
  exists tr,
    run h (AnalyzeFile s fileID true) w
    = (Some (failed (Errorf "failed to get file content" e)), w5, tr)
    /\ fetches tr = fileID :: fetches trf ++ [fileID]
    /\ comparisons tr = [(content, corpus)]
    /\ save_calls tr = [].
Proof.
  intros Hn Hmiss Hget Hlist Hloop Hget2. unfold AnalyzeFile. cbn [run].
  rewrite Hmiss. cbn [run]. rewrite Hget.
  destruct (AnalyzeText (s_textAnalyzer s) content) as [[p wd] ch].
  cbn [run]. rewrite Hlist. unfold analyze_fresh.
  rewrite run_bind, Hloop. cbn [run].
  destruct (CheckPlagiarism_ids (s_plagiarismChecker s) content corpus Hn)
    as (sims & -> & _).
  rewrite run_bind. unfold word_cloud. cbn [run]. rewrite Hget2. cbn [run].
  destruct (run_fetch_others h fileID otherFileIDs ∅ w3)
    as (corpus' & w4' & trf' & Hloop' & _ & _ & Hs & Hc & _).
  rewrite Hloop in Hloop'. injection Hloop' as <- <- <-.
  eexists. split; [reflexivity|].
  repeat split; read_trace; reflexivity.
Qed.

(** An instance of [C9_second_fetch_failure]: the fourth call, the second
    fetch of the target, meets an outage. *)
Lemma C9_second_fetch_failure_witness :
  exists w' tr,
    run Mem.handler
      (@AnalyzeFile ascii_tables listed_order service "doc" true)
      (Scenario.single [3%nat])
    = (Some (failed (Errorf "failed to get file content"
                       (Errorf "failed to get file" Mem.unavailable))),
       w', tr)
    /\ fetches tr = ["doc"; "doc"]
    /\ save_calls tr = [].
Proof.
  edestruct (@C9_second_fetch_failure ascii_tables listed_order _ Mem.handler
               service "doc" (Scenario.single [3%nat]))
    as (tr & Hrun & Hf & _ & Hsave);
    [vm_compute; discriminate | vm_compute; reflexivity ..|].
  eexists _, tr. split; [exact Hrun|]. split; [exact Hf|exact Hsave].
Defined.

(** ** The corpus of the comparison *)

Section ServiceRuns.
Context {W : Type} (h : Handler W).

(** The word-cloud branch never panics, and neither compares nor saves a
    result. *)
Lemma run_word_cloud (fileID : string) (generateWordCloud : bool)
  (location : string) (w : W) :
  exists o w' tr,
    run h (word_cloud fileID generateWordCloud location) w = (Some o, w', tr)
    /\ comparisons tr = [] /\ save_calls tr = [] /\ listings tr = [].
Proof.
  unfold word_cloud. destruct generateWordCloud; cbn [run].
  - destruct (h _ (GetFile fileID) w) as [[[nm text]|e] w1]; cbn [run].
    + destruct (h _ (GenerateWordCloud text) w1) as [[[img loc]|e] w2];
        cbn [run].
      * destruct (h _ (SaveWordCloud loc img) w2) as [[e|] w3].
        -- answer_printf h w4. eexists _, _, _. repeat split; reflexivity.
        -- cbn [run]. eexists _, _, _. repeat split; reflexivity.
      * answer_printf h w3. eexists _, _, _. repeat split; reflexivity.
    + eexists _, _, _. repeat split; reflexivity.
  - eexists _, _, _. repeat split; reflexivity.
Qed.

(** What follows a saved result never fails the request. *)
Lemma run_edges (fileID : string) (isP : bool) (sims : list string) (w : W) :
  exists w' tr,
    run h (if isP then save_similar fileID sims else Ret tt) w
    = (Some tt, w', tr)
    /\ save_calls tr = [] /\ comparisons tr = []
    /\ fetches tr = [] /\ listings tr = [].
Proof.
  destruct isP; [apply run_save_similar|].
  cbn [run]. eexists _, _. repeat split; reflexivity.
Qed.

End ServiceRuns.

Lemma fill_corpus_keys (fileID : string) (otherFileIDs : list string)
  (tr : list Event) :
  fetches tr = List.filter (fun k => negb (String.eqb k fileID)) otherFileIDs ->
  forall k, k ∈ dom (corpus_of tr) -> k ∈ otherFileIDs /\ k <> fileID.
Proof.
  intros Hf k Hk. apply fill_corpus_dom in Hk.
  rewrite dom_empty, Hf in Hk.
  assert (Hin : k ∈ List.filter (fun k => negb (String.eqb k fileID)) otherFileIDs)
    by set_solver.
  apply list_elem_of_In, filter_In in Hin as [Hin Hne].
  split; [apply list_elem_of_In; assumption|].
  intros ->. rewrite String.eqb_refl in Hne. discriminate.
Qed.

(** Every entry of the corpus was fetched with success. *)
Lemma fill_corpus_lookup (tr : list Event) :
  forall (acc : gmap string string) (k v : string),
    fill_corpus acc tr !! k = Some v ->
    acc !! k = Some v
    \/ exists nm, EvCall (GetFile k) (Ok (nm, v)) ∈ tr.
Proof.
  induction tr as [|ev tr IH]; intros acc k v Hk; cbn [fill_corpus foldl] in Hk.
  - left. exact Hk.
  - apply IH in Hk as [Hk|(nm & Hin)];
      [|right; exists nm; right; exact Hin].
    destruct ev as [X op a|c o]; cbn [fetched_content] in Hk;
      [|left; exact Hk].
    destruct op; try (left; exact Hk).
    destruct a as [[nm content]|e]; [|left; exact Hk].
    destruct (decide (fileID = k)) as [->|Hne].
    + rewrite lookup_insert_eq in Hk. injection Hk as ->.
      right. exists nm. left.
    + rewrite lookup_insert_ne in Hk by exact Hne. left. exact Hk.
Qed.

(** C5. In a fresh analysis the loop fetches every identifier of the
    listing but the target's own, and the corpus given to the similarity
    check holds the contents that were fetched with success: the target is
    not in it, every entry is the content that a successful fetch of a
    listed identifier returned, and a document whose fetch fails is left
    out while the request goes on and, when the result is saved,
    succeeds. *)
Theorem C5_comparison_corpus `{UnicodeTables} `{RangeOrder} {W : Type}
  (h : Handler W) (s : AnalysisService) (fileID : string)
  (generateWordCloud : bool) (w w1 w2 w3 : W) (e0 : error)
  (name content : string) (otherFileIDs : list string) :
  h _ (GetAnalysisResult fileID) w = (Err e0, w1) ->
  h _ (GetFile fileID) w1 = (Ok (name, content), w2) ->
  h _ GetAllFileIDs w2 = (Ok otherFileIDs, w3) ->
  exists (corpus : gmap string string) (w4 : W) (trf : list Event),
    run h (fetch_others fileID otherFileIDs ∅) w3 = (Some corpus, w4, trf)
    /\ fetches trf
       = List.filter (fun k => negb (String.eqb k fileID)) otherFileIDs
    /\ corpus = corpus_of trf
    /\ (fileID ∉ dom corpus)
    /\ (forall k, k ∈ dom corpus -> k ∈ otherFileIDs /\ k <> fileID)
    /\ (forall k v, corpus !! k = Some v ->
          exists nm, EvCall (GetFile k) (Ok (nm, v)) ∈ trf)
    /\ (exists r w' tr,
          run h (AnalyzeFile s fileID generateWordCloud) w = (r, w', tr)
          /\ comparisons tr = [(content, corpus)])
    /\ (forall isP sims w5,
          let '(p, wd, ch) := AnalyzeText (s_textAnalyzer s) content in
          CheckPlagiarism (s_plagiarismChecker s) content corpus
            = Some (isP, sims) ->
          h _ (SaveAnalysisResult fileID p wd ch isP "") w4 = (None, w5) ->
          exists w' tr,
            run h (AnalyzeFile s fileID false) w
            = (Some {| paragraphCount := p; wordCount := wd;
                       characterCount := ch; isPlagiarism := isP;
                       similarFileIDs := sims; wordCloudLocation := "";
                       err := None |}, w', tr)).
Proof.
  intros Hmiss Hget Hlist.
  destruct (run_fetch_others h fileID otherFileIDs ∅ w3)
    as (corpus & w4 & trf & Hloop & Hf & Hc & Hs & Hcmp & Hl).
  exists corpus, w4, trf. split; [exact Hloop|]. split; [exact Hf|].
  split; [exact Hc|].
  assert (Hkeys : forall k, k ∈ dom corpus -> k ∈ otherFileIDs /\ k <> fileID).
  { rewrite Hc. apply fill_corpus_keys. exact Hf. }
  split; [intros Hin; apply Hkeys in Hin as [_ Hne]; congruence|].
  split; [exact Hkeys|]. split.
  { intros k v Hk. rewrite Hc in Hk.
    apply fill_corpus_lookup in Hk as [Hk|Hk]; [|exact Hk].
    rewrite lookup_empty in Hk. discriminate. }
  split.
  - unfold AnalyzeFile. cbn [run]. rewrite Hmiss. cbn [run]. rewrite Hget.
    destruct (AnalyzeText (s_textAnalyzer s) content) as [[p wd] ch].
    cbn [run]. rewrite Hlist. unfold analyze_fresh.
    rewrite run_bind, Hloop. cbn [run].
    destruct (CheckPlagiarism (s_plagiarismChecker s) content corpus)
      as [[isP sims]|].
    + rewrite run_bind.
      destruct (run_word_cloud h fileID generateWordCloud "" w4)
        as (o & w5 & trw & -> & Hcw & _).
      destruct o as [early|loc]; cbn [run].
      * eexists _, _, _. split; [reflexivity|].
        read_trace. reflexivity.
      * destruct (h _ (SaveAnalysisResult fileID p wd ch isP loc) w5)
          as [[e|] w6]; cbn [run].
        -- eexists _, _, _. split; [reflexivity|].
           read_trace. reflexivity.
        -- rewrite run_bind.
           destruct (run_edges h fileID isP sims w6)
             as (w7 & trs & -> & _ & Hcs & _). cbn [run].
           eexists _, _, _. split; [reflexivity|].
           read_trace. reflexivity.
    + eexists _, _, _. split; [reflexivity|].
      read_trace. reflexivity.
  - intros isP sims w5.
    destruct (AnalyzeText (s_textAnalyzer s) content) as [[p wd] ch] eqn:Hstats.
    intros Hcheck Hsave.
    unfold AnalyzeFile. cbn [run]. rewrite Hmiss. cbn [run]. rewrite Hget.
    rewrite Hstats. cbn [run]. rewrite Hlist. unfold analyze_fresh.
    rewrite run_bind, Hloop. cbn [run]. rewrite Hcheck.
    rewrite run_bind. cbn [word_cloud run]. rewrite Hsave.
    rewrite run_bind.
    destruct (run_edges h fileID isP sims w5) as (w7 & trs & -> & _).
    cbn [run]. eexists _, _. reflexivity.
Qed.

(** An instance of [C5_comparison_corpus]: of the three documents of the
    listing, the target is skipped and the document whose fetch meets an
    outage (the fifth call) is left out of the corpus. *)
Lemma C5_comparison_corpus_witness :
  exists r w' tr corpus,
    run Scenario.listing
      (@AnalyzeFile ascii_tables listed_order service "target" false)
      Scenario.three
    = (r, w', tr)
    /\ comparisons tr = [("Hello", corpus)]
    /\ dom corpus = {[ "a" ]}.
Proof.
  edestruct (@C5_comparison_corpus ascii_tables listed_order _
               Scenario.listing service "target" false Scenario.three)
    as (corpus & w4 & trf & Hloop & Hf & Hc & _ & _ & _
        & (r & w' & tr & Hrun & Hcmp) & _);
    [vm_compute; reflexivity ..|].
  exists r, w', tr, corpus. split; [exact Hrun|]. split; [exact Hcmp|].
  vm_compute in Hloop. injection Hloop as <- _ _.
  vm_compute. reflexivity.
Defined.

(** ** A failure of the word cloud *)

(** C6. With a word cloud requested, when the rendering fails, or the
    rendering succeeds and saving the image fails, the request goes on:
    the result is handed to [SaveAnalysisResult] with an empty word-cloud
    location and, when that call succeeds, is returned with no error and an
    empty location.  An error of the request, if any, is the failure of
    [SaveAnalysisResult], never that of the word cloud. *)
Theorem C6_word_cloud_failure `{UnicodeTables} `{RangeOrder} {W : Type}
  (h : Handler W) (s : AnalysisService) (fileID : string)
  (w w1 w2 w3 w4 w5 w7 : W) (e0 : error) (name content name' text : string)
  (otherFileIDs : list string) (corpus : gmap string string)
  (trf : list Event) (p wd ch : Z) (isP : bool) (sims : list string) :
  h _ (GetAnalysisResult fileID) w = (Err e0, w1) ->
  h _ (GetFile fileID) w1 = (Ok (name, content), w2) ->
  AnalyzeText (s_textAnalyzer s) content = (p, wd, ch) ->
  h _ GetAllFileIDs w2 = (Ok otherFileIDs, w3) ->
  run h (fetch_others fileID otherFileIDs ∅) w3 = (Some corpus, w4, trf) ->
  CheckPlagiarism (s_plagiarismChecker s) content corpus = Some (isP, sims) ->
  h _ (GetFile fileID) w4 = (Ok (name', text), w5) ->
  ((exists e w6,
      h _ (GenerateWordCloud text) w5 = (Err e, w6)
      /\ w7 = snd (h _ (Printf ("Failed to generate word cloud: " +:+ Error e
                                 +:+ String "010" "")) w6))
   \/ (exists image location w6 e w6',
         h _ (GenerateWordCloud text) w5 = (Ok (image, location), w6)
         /\ h _ (SaveWordCloud location image) w6 = (Some e, w6')
         /\ w7 = snd (h _ (Printf ("Failed to save word cloud: " +:+ Error e
                                    +:+ String "010" "")) w6'))) ->
  exists r w' tr,
    run h (AnalyzeFile s fileID true) w = (Some r, w', tr)
    /\ save_calls tr
       = [(fileID, {| st_paragraphCount := p; st_wordCount := wd;
                      st_characterCount := ch; st_isPlagiarism := isP;
                      st_wordCloudLocation := "" |})]
    /\ (forall w8,
          h _ (SaveAnalysisResult fileID p wd ch isP "") w7 = (None, w8) ->
          r = {| paragraphCount := p; wordCount := wd; characterCount := ch;
                 isPlagiarism := isP; similarFileIDs := sims;
                 wordCloudLocation := ""; err := None |})
    /\ (forall e', err r = Some e' ->
          exists e'' w8,
            h _ (SaveAnalysisResult fileID p wd ch isP "") w7 = (Some e'', w8)
            /\ e' = Errorf "failed to save analysis results" e'').
Proof.
  intros Hmiss Hget Hstats Hlist Hloop Hcheck Hget2 Hfail.
  destruct (run_fetch_others h fileID otherFileIDs ∅ w3)
    as (corpus' & w4' & trf' & Hloop' & _ & _ & Hs & _).
  rewrite Hloop in Hloop'. injection Hloop' as <- <- <-.
  assert (Hwc : exists trw,
            run h (word_cloud fileID true "") w4 = (Some (inr ""), w7, trw)
            /\ save_calls trw = []).
  { unfold word_cloud. cbn [run]. rewrite Hget2. cbn [run].
    destruct Hfail as [(e & w6 & Hgen & ->)|(img & loc & w6 & e & w6' & Hgen & Hsv & ->)].
    - rewrite Hgen. cbn [run].
      destruct (h unit (Printf _) w6) as [[] w7'] eqn:Hp. cbn [snd run].
      eexists. split; reflexivity.
    - rewrite Hgen. cbn [run]. rewrite Hsv. cbn [run].
      destruct (h unit (Printf _) w6') as [[] w7'] eqn:Hp. cbn [snd run].
      eexists. split; reflexivity. }
  destruct Hwc as (trw & Hwc & Hsw).
  unfold AnalyzeFile. cbn [run]. rewrite Hmiss. cbn [run]. rewrite Hget.
  rewrite Hstats. cbn [run]. rewrite Hlist. unfold analyze_fresh.
  rewrite run_bind, Hloop. cbn [run]. rewrite Hcheck.
  rewrite run_bind, Hwc. cbn [run].
  destruct (h _ (SaveAnalysisResult fileID p wd ch isP "") w7)
    as [[e|] w8] eqn:Hsave; cbn [run].
  - eexists _, _, _. split; [reflexivity|]. split; [read_trace; reflexivity|].
    split.
    + intros w8' Hnone. discriminate.
    + intros e' He'. cbn in He'. injection He' as <-. eauto.
  - rewrite run_bind.
    destruct (run_edges h fileID isP sims w8) as (w9 & trs & -> & Hss & _).
    cbn [run].
    eexists _, _, _. split; [reflexivity|]. split; [read_trace; reflexivity|].
    split.
    + intros w8' Hnone. reflexivity.
    + intros e' He'. cbn in He'. discriminate.
Qed.

(** An instance of [C6_word_cloud_failure]: the rendering, the fifth call,
    meets an outage; the result is saved and returned with an empty
    location. *)
Lemma C6_word_cloud_failure_witness :
  exists r w' tr,
    run Mem.handler
      (@AnalyzeFile ascii_tables listed_order service "doc" true)
      (Scenario.single [4%nat])
    = (Some r, w', tr)
    /\ err r = None /\ wordCloudLocation r = ""
    /\ save_calls tr
       = [("doc", {| st_paragraphCount := 1; st_wordCount := 1;
                     st_characterCount := 5; st_isPlagiarism := false;
                     st_wordCloudLocation := "" |})].
Proof.
  edestruct (@C6_word_cloud_failure ascii_tables listed_order _ Mem.handler
               service "doc" (Scenario.single [4%nat]))
    as (r & w' & tr & Hrun & Hsaved & Hok & _);
    [vm_compute; reflexivity ..
    | left; eexists _, _; split; [vm_compute; reflexivity|reflexivity]
    |].
  exists r, w', tr. split; [exact Hrun|].
  erewrite (Hok _) by (vm_compute; reflexivity).
  split; [reflexivity|]. split; [reflexivity|exact Hsaved].
Defined.

(** ** The stored result *)

(** C3. [AnalyzeFile(id, false)], called on an identifier with no stored
    result and returning with no error, has handed its result to
    [SaveAnalysisResult] and has compared once.  When the repository then
    returns this row (and the similar files, for a plagiarism), a second
    call returns the same statistics, verdict and location with no error,
    from the repository alone: it fetches no file, lists no corpus,
    compares nothing and saves nothing.  The two calls together have
    compared exactly once. *)
Theorem C3_second_call_from_store `{UnicodeTables} `{RangeOrder} {W : Type}
  (h : Handler W) (s : AnalysisService) (fileID : string)
  (w w0 w1 w2 : W) (e0 : error) (r1 : Analysis) (tr1 : list Event) :
  h _ (GetAnalysisResult fileID) w = (Err e0, w0) ->
  run h (AnalyzeFile s fileID false) w = (Some r1, w1, tr1) ->
  err r1 = None ->
  h _ (GetAnalysisResult fileID) w1 = (Ok (row_of r1), w2) ->
  (isPlagiarism r1 = true ->
   exists sims w3, h _ (GetSimilarFiles fileID) w2 = (Ok sims, w3)) ->
  save_calls tr1 = [(fileID, row_of r1)]
  /\ length (comparisons tr1) = 1%nat
  /\ exists r2 w' tr2,
       run h (AnalyzeFile s fileID false) w1 = (Some r2, w', tr2)
       /\ err r2 = None
       /\ paragraphCount r2 = paragraphCount r1
       /\ wordCount r2 = wordCount r1
       /\ characterCount r2 = characterCount r1
       /\ isPlagiarism r2 = isPlagiarism r1
       /\ wordCloudLocation r2 = wordCloudLocation r1
       /\ fetches tr2 = [] /\ listings tr2 = []
       /\ comparisons tr2 = [] /\ save_calls tr2 = []
       /\ length (comparisons (tr1 ++ tr2)) = 1%nat.
Proof.
  intros Hmiss Hrun1 Herr Hread Hsim.
  (* the first call *)
  unfold AnalyzeFile in Hrun1. cbn [run] in Hrun1. rewrite Hmiss in Hrun1.
  cbn [run] in Hrun1.
  destruct (h _ (GetFile fileID) w0) as [[[nm content]|e] wa];
    [|cbn [run] in Hrun1; injection Hrun1 as <- _ _; discriminate].
  destruct (AnalyzeText (s_textAnalyzer s) content) as [[p wd] ch].
  cbn [run] in Hrun1.
  destruct (h _ GetAllFileIDs wa) as [[ids|e] wb];
    [|cbn [run] in Hrun1; injection Hrun1 as <- _ _; discriminate].
  unfold analyze_fresh in Hrun1. rewrite run_bind in Hrun1.
  destruct (run_fetch_others h fileID ids ∅ wb)
    as (corpus & wc & trf & Hloop & _ & _ & Hsf & Hcf & _).
  rewrite Hloop in Hrun1. cbn [run] in Hrun1.
  destruct (CheckPlagiarism (s_plagiarismChecker s) content corpus)
    as [[isP sims1]|]; [|cbn [run] in Hrun1; discriminate].
  rewrite run_bind in Hrun1. cbn [word_cloud run] in Hrun1.
  destruct (h _ (SaveAnalysisResult fileID p wd ch isP "") wc) as [[e|] wd'];
    [cbn [run] in Hrun1; injection Hrun1 as <- _ _; discriminate|].
  rewrite run_bind in Hrun1.
  destruct (run_edges h fileID isP sims1 wd')
    as (we & tre & Hedges & Hse & Hce & _).
  rewrite Hedges in Hrun1. cbn [run] in Hrun1.
  injection Hrun1 as <- <- Htr.
  cbn [row_of paragraphCount wordCount characterCount isPlagiarism
       wordCloudLocation] in *.
  assert (Hcmp1 : comparisons tr1 = [(content, corpus)])
    by (rewrite <- Htr; read_trace; reflexivity).
  split; [rewrite <- Htr; read_trace; reflexivity|].
  split; [rewrite Hcmp1; reflexivity|].
  (* the second call *)
  unfold AnalyzeFile. cbn [run]. rewrite Hread.
  destruct isP; cbn [run row_of st_isPlagiarism st_paragraphCount st_wordCount
                     st_characterCount st_wordCloudLocation
                     paragraphCount wordCount characterCount isPlagiarism
                     wordCloudLocation].
  - destruct (Hsim eq_refl) as (sims2 & w3 & Hget). rewrite Hget.
    cbn [run]. eexists _, _, _. split; [reflexivity|].
    cbn [err paragraphCount wordCount characterCount isPlagiarism
         wordCloudLocation].
    repeat (split; [reflexivity|]).
    rewrite comparisons_app, Hcmp1. reflexivity.
  - eexists _, _, _. split; [reflexivity|].
    cbn [err paragraphCount wordCount characterCount isPlagiarism
         wordCloudLocation].
    repeat (split; [reflexivity|]).
    rewrite comparisons_app, Hcmp1. reflexivity.
Qed.

(** An instance of [C3_second_call_from_store]: the second of two documents
    with the same content is analyzed twice; the second call answers from
    the stored row and the stored similar files. *)
Lemma C3_second_call_from_store_witness :
  exists r1 w1 tr1 r2 w2 tr2,
    run Mem.handler
      (@AnalyzeFile ascii_tables listed_order service "second" false)
      Scenario.twins = (Some r1, w1, tr1)
    /\ run Mem.handler
         (@AnalyzeFile ascii_tables listed_order service "second" false)
         w1 = (Some r2, w2, tr2)
    /\ isPlagiarism r1 = true
    /\ (paragraphCount r2, wordCount r2, characterCount r2) = (1, 8, 49)
    /\ length (comparisons (tr1 ++ tr2)) = 1%nat.
Proof.
  pose proof (@C3_second_call_from_store ascii_tables listed_order _
                Mem.handler service "second" Scenario.twins) as Hthm.
  destruct (run Mem.handler
              (@AnalyzeFile ascii_tables listed_order service "second" false)
              Scenario.twins) as [[o1 w1] tr1] eqn:Hrun1.
  vm_compute in Hrun1. injection Hrun1 as <- <- <-.
  edestruct Hthm as (_ & _ & r2 & w2 & tr2 & Hrun2 & _ & Hp & Hw & Hc & _
                     & _ & _ & _ & _ & _ & Hone);
    [vm_compute; reflexivity | reflexivity | reflexivity
    | vm_compute; reflexivity
    | intros _; eexists _, _; vm_compute; reflexivity |].
  eexists _, _, _, r2, w2, tr2. split; [reflexivity|].
  split; [exact Hrun2|]. split; [reflexivity|].
  split; [rewrite Hp, Hw, Hc; reflexivity|exact Hone].
Defined.

(* ===================================================================== *)
(** * Further properties of the AnalysisService                           *)
(* ===================================================================== *)

Lemma edge_calls_app (a b : list Event) :
  edge_calls (a ++ b) = edge_calls a ++ edge_calls b.
Proof. apply omap_app. Qed.
Lemma edge_calls_cons (ev : Event) (tr : list Event) :
  edge_calls (ev :: tr)
  = match edge_call ev with
    | Some e => e :: edge_calls tr
    | None => edge_calls tr
    end.
Proof. reflexivity. Qed.
Lemma edge_calls_nil : edge_calls [] = [].
Proof. reflexivity. Qed.
Lemma kinds_app (a b : list Event) : kinds (a ++ b) = kinds a ++ kinds b.
Proof. apply map_app. Qed.
Lemma kinds_cons (ev : Event) (tr : list Event) :
  kinds (ev :: tr) = kind_of ev :: kinds tr.
Proof. reflexivity. Qed.
Lemma kinds_nil : kinds [] = [].
Proof. reflexivity. Qed.

#[global] Hint Rewrite edge_calls_app edge_calls_cons edge_calls_nil
  kinds_app kinds_cons kinds_nil : trace.

Lemma save_answers_app (a b : list Event) :
  save_answers (a ++ b) = save_answers a ++ save_answers b.
Proof. apply omap_app. Qed.
Lemma save_answers_cons (ev : Event) (tr : list Event) :
  save_answers (ev :: tr)
  = match save_answer ev with
    | Some a => a :: save_answers tr
    | None => save_answers tr
    end.
Proof. reflexivity. Qed.
Lemma save_answers_nil : save_answers [] = [].
Proof. reflexivity. Qed.

#[global] Hint Rewrite save_answers_app save_answers_cons save_answers_nil
  : trace.

(** A trace without an event of some kind shows nothing of that kind. *)
Lemma kinds_quiet (ks : list Kind) (tr : list Event) :
  incl (kinds tr) ks ->
  (~ In KSaveAnalysisResult ks -> save_calls tr = [] /\ save_answers tr = [])
  /\ (~ In KCheckPlagiarism ks -> comparisons tr = [])
  /\ (~ In KGetAllFileIDs ks -> listings tr = [])
  /\ (~ In KSaveSimilarFile ks -> edge_calls tr = []).
Proof.
  intros Hincl.
  induction tr as [|ev tr IH]; [repeat split; reflexivity|].
  assert (Hev : In (kind_of ev) ks) by (apply Hincl; left; reflexivity).
  destruct IH as (IHs & IHc & IHl & IHe);
    [intros k Hk; apply Hincl; right; exact Hk|].
  unfold save_calls, save_answers, comparisons, listings, edge_calls in *.
  split; [|split; [|split]]; intros Hno;
    (destruct ev as [X op a|c o]; [destruct op|]); cbn in Hev |- *;
    try contradiction; try (apply IHs; exact Hno); try (apply IHc; exact Hno);
    try (apply IHl; exact Hno); try (apply IHe; exact Hno).
Qed.

Lemma kinds_absent (ks : list Kind) (tr : list Event) (k : Kind) :
  incl (kinds tr) ks -> ~ In k ks -> ~ In k (kinds tr).
Proof. intros Hincl Hno Hin. apply Hno, Hincl, Hin. Qed.

(** The kinds of a trace made of parts lie within a list of kinds. *)
Ltac kinds_within :=
  unfold kinds in *;
  repeat first
    [ apply incl_nil_l
    | rewrite map_app; apply incl_app
    | rewrite map_cons; apply incl_cons; [cbn [kind_of In]; auto 12|]
    | (eapply incl_tran; [eassumption|];
       let k := fresh "k" in let Hk := fresh "Hk" in
       intros k Hk; cbn [In] in *; intuition (subst; auto 12)) ].

Ltac not_listed :=
  cbn; let Hin := fresh "Hin" in
  intros Hin; repeat destruct Hin as [Hin|Hin];
  solve [discriminate Hin | contradiction].

(** What a part of a trace cannot show, from the kinds of its events. *)
Ltac quiet Hk :=
  let Hs := fresh "Hs" in let Hc := fresh "Hc" in
  let Hl := fresh "Hl" in let He := fresh "He" in
  destruct (kinds_quiet _ _ Hk) as (Hs & Hc & Hl & He);
  try (let H' := fresh "Hq" in
       assert (H' := Hs ltac:(not_listed)); destruct H' as [? ?]);
  try (let H' := fresh "Hq" in assert (H' := Hc ltac:(not_listed)));
  try (let H' := fresh "Hq" in assert (H' := Hl ltac:(not_listed)));
  try (let H' := fresh "Hq" in assert (H' := He ltac:(not_listed)));
  clear Hs Hc Hl He.

(** Read a trace, the edges and the kinds of its events included. *)
Ltac read_events :=
  repeat (autorewrite with trace;
          cbn [save_call save_answer fetch_call listing_call comparison
               edge_call kind_of]);
  repeat match goal with
         | H : comparisons _ = _ |- _ => rewrite H
         | H : save_calls _ = _ |- _ => rewrite H
         | H : save_answers _ = _ |- _ => rewrite H
         | H : fetches _ = _ |- _ => rewrite H
         | H : listings _ = _ |- _ => rewrite H
         | H : edge_calls _ = _ |- _ => rewrite H
         end;
  cbn [app]; rewrite ?app_nil_r.

Section ServiceMore.
Context {W : Type} (h : Handler W).

(** The corpus loop only fetches and logs. *)
Lemma run_fetch_others_kinds (fileID : string) (otherFileIDs : list string) :
  forall (acc : gmap string string) (w : W) o w' tr,
    run h (fetch_others fileID otherFileIDs acc) w = (o, w', tr) ->
    incl (kinds tr) [KGetFile; KPrintf] /\ edge_calls tr = [].
Proof.
  induction otherFileIDs as [|k ids IH]; intros acc w o w' tr Hrun;
    cbn [fetch_others] in Hrun.
  - cbn [run] in Hrun. injection Hrun as _ _ <-.
    split; [apply incl_nil_l|reflexivity].
  - destruct (String.eqb k fileID); [eapply IH; exact Hrun|].
    cbn [run] in Hrun.
    destruct (h _ (GetFile k) w) as [[[nm content]|e] w1].
    + destruct (run h (fetch_others fileID ids (<[k:=content]> acc)) w1)
        as [[o1 w2] tr1] eqn:Hrest.
      injection Hrun as _ _ <-. apply IH in Hrest as [Hk He].
      split; [|exact He].
      apply incl_cons; [cbn; auto|exact Hk].
    + cbn [run] in Hrun.
      destruct (h unit (Printf _) w1) as [[] w2].
      destruct (run h (fetch_others fileID ids acc) w2)
        as [[o1 w3] tr1] eqn:Hrest.
      injection Hrun as _ _ <-. apply IH in Hrest as [Hk He].
      split; [|exact He].
      apply incl_cons; [cbn; auto|].
      apply incl_cons; [cbn; auto|exact Hk].
Qed.

(** The loop over the similar files hands every identifier to
    [SaveSimilarFile], in order, whatever the calls answer. *)
Lemma run_save_similar_edges (fileID : string) (similarFileIDs : list string) :
  forall w : W,
  exists w' tr,
    run h (save_similar fileID similarFileIDs) w = (Some tt, w', tr)
    /\ edge_calls tr = map (fun k => (fileID, k)) similarFileIDs
    /\ incl (kinds tr) [KSaveSimilarFile; KPrintf].
Proof.
  induction similarFileIDs as [|k ids IH]; intros w; cbn [save_similar run].
  - exists w, []. repeat split. apply incl_nil_l.
  - destruct (h _ (SaveSimilarFile fileID k) w) as [[e|] w1].
    + answer_printf h w2.
      destruct (IH w2) as (w' & tr & Hrun & He & Hk).
      rewrite Hrun. eexists _, _. split; [reflexivity|].
      split; [read_events; reflexivity|].
      apply incl_cons; [cbn; auto|].
      apply incl_cons; [cbn; auto|exact Hk].
    + destruct (IH w1) as (w' & tr & Hrun & He & Hk).
      rewrite Hrun. eexists _, _. split; [reflexivity|].
      split; [read_events; reflexivity|].
      apply incl_cons; [cbn; auto|exact Hk].
Qed.

(** What follows a saved result: the edges of a positive verdict. *)
Lemma run_edges_kinds (fileID : string) (isP : bool) (sims : list string)
  (w : W) :
  exists w' tr,
    run h (if isP then save_similar fileID sims else Ret tt) w
    = (Some tt, w', tr)
    /\ edge_calls tr = (if isP then map (fun k => (fileID, k)) sims else [])
    /\ incl (kinds tr) [KSaveSimilarFile; KPrintf].
Proof.
  destruct isP; [apply run_save_similar_edges|].
  cbn [run]. eexists _, _. repeat split. apply incl_nil_l.
Qed.

(** The word-cloud branch: it never panics; it returns early only with an
    error and zero values; the location it yields is the one it was given
    or one under which an image has just been saved. *)
Lemma run_word_cloud_shape (fileID : string) (generateWordCloud : bool)
  (location : string) (w : W) :
  exists x w' tr,
    run h (word_cloud fileID generateWordCloud location) w = (Some x, w', tr)
    /\ edge_calls tr = [] /\ save_calls tr = []
    /\ incl (kinds tr)
            [KGetFile; KGenerateWordCloud; KSaveWordCloud; KPrintf]
    /\ (generateWordCloud = false -> tr = [] /\ x = inr location)
    /\ match x with
       | inl early => exists e, early = failed e
       | inr loc =>
         loc = location
         \/ exists tr1 img tr2,
              tr = tr1 ++ EvCall (SaveWordCloud loc img) None :: tr2
       end.
Proof.
  unfold word_cloud. destruct generateWordCloud; cbn [run].
  - destruct (h _ (GetFile fileID) w) as [[[nm text]|e] w1]; cbn [run].
    + destruct (h _ (GenerateWordCloud text) w1) as [[[img loc]|e] w2];
        cbn [run].
      * destruct (h _ (SaveWordCloud loc img) w2) as [[e|] w3].
        -- answer_printf h w4. eexists _, _, _. split; [reflexivity|].
           repeat split; try discriminate;
             [repeat (apply incl_cons; [cbn; auto|]); apply incl_nil_l
             |left; reflexivity].
        -- cbn [run]. eexists _, _, _. split; [reflexivity|].
           repeat split; try discriminate;
             [repeat (apply incl_cons; [cbn; auto|]); apply incl_nil_l|].
           right. exists [EvCall (GetFile fileID) (Ok (nm, text));
                          EvCall (GenerateWordCloud text) (Ok (img, loc))],
                         img, []. reflexivity.
      * answer_printf h w3. eexists _, _, _. split; [reflexivity|].
        repeat split; try discriminate;
          [repeat (apply incl_cons; [cbn; auto|]); apply incl_nil_l
          |left; reflexivity].
    + eexists _, _, _. split; [reflexivity|].
      repeat split; try discriminate;
        [repeat (apply incl_cons; [cbn; auto|]); apply incl_nil_l
        |eexists; reflexivity].
  - eexists _, _, _. split; [reflexivity|].
    repeat split; [apply incl_nil_l|left; reflexivity].
Qed.

End ServiceMore.

(** The run of a fresh analysis, step by step. *)
Lemma run_analyze_fresh `{UnicodeTables} `{RangeOrder} {W : Type}
  (h : Handler W) (s : AnalysisService) (fileID : string)
  (generateWordCloud : bool) (content : string) (p wd ch : Z)
  (ids : list string) (w : W) :
  exists corpus wf trf,
    run h (fetch_others fileID ids ∅) w = (Some corpus, wf, trf)
    /\ (forall k, k ∈ dom corpus -> k ∈ ids /\ k <> fileID)
    /\ match CheckPlagiarism (s_plagiarismChecker s) content corpus with
       | None =>
         run h (analyze_fresh s fileID generateWordCloud content p wd ch ids) w
         = (None, wf, trf ++ [EvCheckPlagiarism content corpus])
       | Some (isP, sims) =>
         exists x ww trw,
           run h (word_cloud fileID generateWordCloud "") wf
           = (Some x, ww, trw)
           /\ match x with
              | inl early =>
                run h (analyze_fresh s fileID generateWordCloud content
                         p wd ch ids) w
                = (Some early, ww,
                   trf ++ EvCheckPlagiarism content corpus :: trw)
              | inr loc =>
                let save := SaveAnalysisResult fileID p wd ch isP loc in
                match h _ save ww with
                | (Some e, ws) =>
                  run h (analyze_fresh s fileID generateWordCloud content
                           p wd ch ids) w
                  = (Some (failed
                             (Errorf "failed to save analysis results" e)),
                     ws,
                     trf ++ EvCheckPlagiarism content corpus
                         :: trw ++ [EvCall save (Some e)])
                | (None, ws) =>
                  exists we tre,
                    run h (if isP then save_similar fileID sims else Ret tt) ws
                    = (Some tt, we, tre)
                    /\ run h (analyze_fresh s fileID generateWordCloud content
                                p wd ch ids) w
                       = (Some {| paragraphCount := p; wordCount := wd;
                                  characterCount := ch; isPlagiarism := isP;
                                  similarFileIDs := sims;
                                  wordCloudLocation := loc; err := None |},
                          we,
                          trf ++ EvCheckPlagiarism content corpus
                              :: trw ++ EvCall save None :: tre)
                end
              end
       end.
Proof.
  destruct (run_fetch_others h fileID ids ∅ w)
    as (corpus & wf & trf & Hloop & Hf & Hc & _).
  exists corpus, wf, trf. split; [exact Hloop|].
  split; [subst corpus; apply fill_corpus_keys; exact Hf|].
  unfold analyze_fresh. rewrite run_bind, Hloop. cbn [run].
  destruct (CheckPlagiarism (s_plagiarismChecker s) content corpus)
    as [[isP sims]|]; [|reflexivity].
  destruct (run_word_cloud_shape h fileID generateWordCloud "" wf)
    as (x & ww & trw & Hwc & _).
  exists x, ww, trw. split; [exact Hwc|].
  rewrite run_bind, Hwc. destruct x as [early|loc]; cbn [run].
  - rewrite app_nil_r. reflexivity.
  - destruct (h _ (SaveAnalysisResult fileID p wd ch isP loc) ww)
      as [[e|] ws]; cbn [run]; [reflexivity|].
    destruct (run_edges_kinds h fileID isP sims ws) as (we & tre & He & _).
    exists we, tre. split; [exact He|].
    rewrite run_bind, He. cbn [run]. rewrite app_nil_r. reflexivity.
Qed.

(** The identifiers that [CheckPlagiarism] returns are keys of the corpus,
    each at most once, and the verdict says whether there is one. *)
Lemma CheckPlagiarism_keys `{UnicodeTables} `{RangeOrder}
  (c : PlagiarismChecker) (content : string)
  (otherContents : gmap string string) (isP : bool) (sims : list string) :
  CheckPlagiarism c content otherContents = Some (isP, sims) ->
  isP = (0 <? len sims)
  /\ NoDup sims
  /\ forall k, k ∈ sims -> k ∈ dom otherContents.
Proof.
  unfold CheckPlagiarism.
  destruct (generateNGrams c (preprocessText c content) (NGramSize c))
    as [g1|]; [|discriminate].
  cbn [mbind option_bind].
  assert (Hloop : forall entries acc found,
             check_loop c (preprocessText c content) g1 entries acc
             = Some found ->
             exists more, found = acc ++ more /\ sublist more entries.*1).
  { induction entries as [|[id other] entries IH]; intros acc found;
      cbn [check_loop].
    - intros [= <-]. exists []. rewrite app_nil_r. split; [reflexivity|constructor].
    - destruct (check_one c (preprocessText c content) g1 acc (id, other))
        as [ids|] eqn:Hone; [|discriminate].
      cbn [mbind option_bind]. intros Hrest.
      apply IH in Hrest as (more & -> & Hsub).
      unfold check_one in Hone.
      destruct (String.eqb _ _).
      + injection Hone as <-. exists (id :: more).
        rewrite <- app_assoc. split; [reflexivity|].
        cbn. constructor. exact Hsub.
      + destruct (generateNGrams c (preprocessText c other) (NGramSize c));
          [|discriminate].
        cbn [mbind option_bind] in Hone.
        destruct (PrimFloat.leb _ _); injection Hone as <-.
        * exists (id :: more). rewrite <- app_assoc. split; [reflexivity|].
          cbn. constructor. exact Hsub.
        * exists more. split; [reflexivity|]. cbn. constructor. exact Hsub. }
  destruct (check_loop c (preprocessText c content) g1
              (range_map otherContents) []) as [found|] eqn:Hfound;
    [|discriminate].
  cbn [mbind option_bind]. intros [= <- <-].
  apply Hloop in Hfound as (more & -> & Hsub). cbn [app] in *.
  split; [reflexivity|]. split.
  - eapply sublist_NoDup; [apply (range_map_NoDup otherContents)|exact Hsub].
  - intros k Hk. eapply elem_of_sublist in Hk; [|exact Hsub].
    apply list_elem_of_fmap in Hk as ([k' v] & -> & Hkv).
    apply range_map_elem in Hkv. apply elem_of_dom. eexists. exact Hkv.
Qed.

Lemma incl_kinds_In (ks : list Kind) (tr : list Event) (ev : Event) :
  incl (kinds tr) ks -> In ev tr -> In (kind_of ev) ks.
Proof. intros Hi Hin. apply Hi. unfold kinds. apply in_map. exact Hin. Qed.

(** Follow a run of [AnalyzeFile] along each of its paths: a stored result
    with and without similar files, an early failure of the fresh analysis,
    a failed save, a success, a panic, a failed listing and a failed fetch
    of the target. *)
Ltac follow_AnalyzeFile h s fileID gwc w :=
  unfold AnalyzeFile; cbn [run];
  let row := fresh "row" in let e0 := fresh "e0" in let w0 := fresh "w0" in
  let Hres := fresh "Hres" in
  destruct (h _ (GetAnalysisResult fileID) w) as [[row|e0] w0] eqn:Hres;
  [ let Hplag := fresh "Hplag" in
    destruct (st_isPlagiarism row) eqn:Hplag; cbn [run];
    [ let stored := fresh "stored" in let e1 := fresh "e1" in
      let w1 := fresh "w1" in let Hsims := fresh "Hsims" in
      destruct (h _ (GetSimilarFiles fileID) w0) as [[stored|e1] w1] eqn:Hsims;
      cbn [run]
    | ]
  | cbn [run];
    let nm := fresh "nm" in let content := fresh "content" in
    let e1 := fresh "e1" in let w1 := fresh "w1" in
    let Hget := fresh "Hget" in
    destruct (h _ (GetFile fileID) w0) as [[[nm content]|e1] w1] eqn:Hget;
    cbn [run];
    [ let p := fresh "p" in let wd := fresh "wd" in let ch := fresh "ch" in
      destruct (AnalyzeText (s_textAnalyzer s) content) as [[p wd] ch];
      cbn [run];
      let ids := fresh "ids" in let e2 := fresh "e2" in
      let w2 := fresh "w2" in let Hlist := fresh "Hlist" in
      destruct (h _ GetAllFileIDs w1) as [[ids|e2] w2] eqn:Hlist; cbn [run];
      [ let corpus := fresh "corpus" in let wf := fresh "wf" in
        let trf := fresh "trf" in let Hloop := fresh "Hloop" in
        let Hkeys := fresh "Hkeys" in let Hcases := fresh "Hcases" in
        let Hkf := fresh "Hkf" in let Hef := fresh "Hef" in
        destruct (run_analyze_fresh h s fileID gwc content p wd ch ids w2)
          as (corpus & wf & trf & Hloop & Hkeys & Hcases);
        destruct (run_fetch_others_kinds h fileID ids _ _ _ _ _ Hloop)
          as [Hkf Hef];
        let isP := fresh "isP" in let sims := fresh "sims" in
        let Hcheck := fresh "Hcheck" in
        destruct (CheckPlagiarism (s_plagiarismChecker s) content corpus)
          as [[isP sims]|] eqn:Hcheck;
        [ let x := fresh "x" in let ww := fresh "ww" in
          let trw := fresh "trw" in let Hwc := fresh "Hwc" in
          destruct Hcases as (x & ww & trw & Hwc & Hcases);
          let x' := fresh "x" in let ww' := fresh "ww" in
          let trw' := fresh "trw" in let Hwc' := fresh "Hwc" in
          let Hew := fresh "Hew" in let Hsw := fresh "Hsw" in
          let Hkw := fresh "Hkw" in let Hoff := fresh "Hoff" in
          let Hx := fresh "Hx" in
          destruct (run_word_cloud_shape h fileID gwc "" wf)
            as (x' & ww' & trw' & Hwc' & Hew & Hsw & Hkw & Hoff & Hx);
          rewrite Hwc in Hwc'; injection Hwc' as <- <- <-;
          let early := fresh "early" in let loc := fresh "loc" in
          destruct x as [early|loc];
          [ rewrite Hcases
          | cbn zeta in Hcases;
            let e3 := fresh "e3" in let ws := fresh "ws" in
            let Hsave := fresh "Hsave" in
            destruct (h _ (SaveAnalysisResult fileID p wd ch isP loc) ww)
              as [[e3|] ws] eqn:Hsave;
            [ rewrite Hcases
            | let we := fresh "we" in let tre := fresh "tre" in
              let Hedges := fresh "Hedges" in
              let we' := fresh "we" in let tre' := fresh "tre" in
              let Hedges' := fresh "Hedges" in
              let Hee := fresh "Hee" in let Hke := fresh "Hke" in
              destruct Hcases as (we & tre & Hedges & ->);
              destruct (run_edges_kinds h fileID isP sims ws)
                as (we' & tre' & Hedges' & Hee & Hke);
              rewrite Hedges in Hedges'; injection Hedges' as <- <- ] ]
        | rewrite Hcases ]
      | ]
    | ] ].

(** X1. Whenever [AnalyzeFile] returns an error, every other result is the
    zero value of its type. *)
Theorem AnalyzeFile_error_zero_results `{UnicodeTables} `{RangeOrder}
  {W : Type} (h : Handler W) (s : AnalysisService) (fileID : string)
  (generateWordCloud : bool) (w w' : W) (r : Analysis) (tr : list Event)
  (e : error) :
  run h (AnalyzeFile s fileID generateWordCloud) w = (Some r, w', tr) ->
  err r = Some e ->
  r = failed e.
Proof.
  follow_AnalyzeFile h s fileID generateWordCloud w;
    try (intros [= <- _ _] [= <-]; reflexivity);
    try (intros [= <- _ _]; discriminate);
    try discriminate.
  destruct Hx as [e1 ->]. intros [= <- _ _] [= <-]. reflexivity.
Qed.

(** An instance of [AnalyzeFile_error_zero_results]: the analysis of a
    document that the file service does not hold. *)
Lemma AnalyzeFile_error_zero_results_witness :
  exists r e w' tr,
    run Mem.handler
      (@AnalyzeFile ascii_tables listed_order service "absent" true)
      Scenario.three
    = (Some r, w', tr)
    /\ err r = Some e /\ r = failed e.
Proof.
  eexists _, _, _, _. split; [vm_compute; reflexivity|].
  split; [reflexivity|].
  eapply (@AnalyzeFile_error_zero_results ascii_tables listed_order _
            Mem.handler service "absent" true Scenario.three);
    [vm_compute; reflexivity|reflexivity].
Defined.

(** X2. A stored result is served from the repository alone, whether or not
    a word cloud is requested: nothing is fetched, compared, generated or
    saved; a stored negative verdict is answered with no similar file. *)
Theorem AnalyzeFile_stored_result_served `{UnicodeTables} `{RangeOrder}
  {W : Type} (h : Handler W) (s : AnalysisService) (fileID : string)
  (generateWordCloud : bool) (w w0 : W) (row : StoredResult) :
  h _ (GetAnalysisResult fileID) w = (Ok row, w0) ->
  exists r w' tr,
    run h (AnalyzeFile s fileID generateWordCloud) w = (Some r, w', tr)
    /\ incl (kinds tr) [KGetAnalysisResult; KGetSimilarFiles]
    /\ (err r = None -> row_of r = row)
    /\ (st_isPlagiarism row = false -> err r = None /\ similarFileIDs r = []).
Proof.
  intros Hres. unfold AnalyzeFile. cbn [run]. rewrite Hres.
  destruct row as [p wd ch plag loc]. cbn [st_isPlagiarism].
  destruct plag; cbn [run].
  - destruct (h _ (GetSimilarFiles fileID) w0) as [[sims|e1] w1]; cbn [run];
      eexists _, _, _; (split; [reflexivity|]);
      (split; [repeat (apply incl_cons; [cbn; auto|]); apply incl_nil_l|]);
      (split; [|discriminate]); cbn; [reflexivity|discriminate].
  - eexists _, _, _. split; [reflexivity|].
    split; [repeat (apply incl_cons; [cbn; auto|]); apply incl_nil_l|].
    split; [reflexivity|]. intros _. split; reflexivity.
Qed.

(** An instance of [AnalyzeFile_stored_result_served]: a second request,
    now with a word cloud, for a document analyzed without one. *)
Lemma AnalyzeFile_stored_result_served_witness :
  exists r w' tr,
    run Mem.handler
      (@AnalyzeFile ascii_tables listed_order service "first" true)
      Scenario.twins = (Some r, w', tr)
    /\ incl (kinds tr) [KGetAnalysisResult; KGetSimilarFiles]
    /\ wordCloudLocation r = "".
Proof.
  destruct (@AnalyzeFile_stored_result_served ascii_tables listed_order _
              Mem.handler service "first" true Scenario.twins _ _
              ltac:(vm_compute; reflexivity))
    as (r & w' & tr & Hrun & Hk & Hrow & Hneg).
  exists r, w', tr. split; [exact Hrun|]. split; [exact Hk|].
  destruct (Hneg eq_refl) as [Hok _].
  apply (f_equal st_wordCloudLocation) in Hrow; [exact Hrow|exact Hok].
Defined.

(** X3. An answer of [AnalyzeFile] without error is backed by the
    repository: it is the row just read from it, or the row just handed to
    [SaveAnalysisResult], once, and accepted. *)
Theorem AnalyzeFile_success_persisted `{UnicodeTables} `{RangeOrder}
  {W : Type} (h : Handler W) (s : AnalysisService) (fileID : string)
  (generateWordCloud : bool) (w w' : W) (r : Analysis) (tr : list Event) :
  run h (AnalyzeFile s fileID generateWordCloud) w = (Some r, w', tr) ->
  err r = None ->
  (exists rest, tr = EvCall (GetAnalysisResult fileID) (Ok (row_of r)) :: rest
                /\ save_calls rest = [])
  \/ (save_calls tr = [(fileID, row_of r)] /\ save_answers tr = [None]).
Proof.
  follow_AnalyzeFile h s fileID generateWordCloud w;
    try (intros [= <- _ _]; discriminate); try discriminate.
  - intros [= <- _ <-] _. left. destruct row. cbn in Hplag. subst.
    eexists. split; reflexivity.
  - intros [= <- _ <-] _. left. destruct row. cbn in Hplag. subst.
    eexists. split; reflexivity.
  - destruct Hx as [e1 ->]. intros [= <- _ _]. discriminate.
  - intros [= <- _ <-] _. right. quiet Hkf. quiet Hkw. quiet Hke.
    split; read_events; reflexivity.
Qed.

(** An instance of [AnalyzeFile_success_persisted]: a first analysis. *)
Lemma AnalyzeFile_success_persisted_witness :
  exists r w' tr,
    run Mem.handler
      (@AnalyzeFile ascii_tables listed_order service "second" false)
      Scenario.twins = (Some r, w', tr)
    /\ save_calls tr = [("second", row_of r)].
Proof.
  eexists _, _, _. split; [vm_compute; reflexivity|].
  edestruct (@AnalyzeFile_success_persisted ascii_tables listed_order _
               Mem.handler service "second" false Scenario.twins)
    as [(rest & Htr & Hrest)|[Hs _]];
    [vm_compute; reflexivity|reflexivity| |exact Hs].
  apply (f_equal save_calls) in Htr.
  rewrite (save_calls_cons _ rest) in Htr. cbn [save_call] in Htr.
  rewrite Hrest in Htr. vm_compute in Htr. discriminate Htr.
Defined.

(** X4. In a fresh analysis the pairs handed to [SaveSimilarFile] are the
    target paired with each similar file returned, in order and once each,
    whatever the repository answers to them; without a positive verdict, or
    when the analysis fails, there is none. *)
Theorem AnalyzeFile_similar_edges `{UnicodeTables} `{RangeOrder}
  {W : Type} (h : Handler W) (s : AnalysisService) (fileID : string)
  (generateWordCloud : bool) (w w0 w' : W) (e0 : error) (r : Analysis)
  (tr : list Event) :
  h _ (GetAnalysisResult fileID) w = (Err e0, w0) ->
  run h (AnalyzeFile s fileID generateWordCloud) w = (Some r, w', tr) ->
  edge_calls tr
  = if isPlagiarism r then map (fun k => (fileID, k)) (similarFileIDs r)
    else [].
Proof.
  intros Hmiss. revert Hmiss.
  follow_AnalyzeFile h s fileID generateWordCloud w; try discriminate;
    intros _.
  - destruct Hx as [e4 ->]. intros [= <- _ <-].
    read_events. reflexivity.
  - intros [= <- _ <-]. read_events. reflexivity.
  - intros [= <- _ <-]. read_events.
    cbn [isPlagiarism similarFileIDs]. reflexivity.
  - intros [= <- _ <-]. reflexivity.
  - intros [= <- _ <-]. reflexivity.
Qed.

(** An instance of [AnalyzeFile_similar_edges]: the second of two documents
    with the same content. *)
Lemma AnalyzeFile_similar_edges_witness :
  exists r w' tr,
    run Mem.handler
      (@AnalyzeFile ascii_tables listed_order service "second" false)
      Scenario.twins = (Some r, w', tr)
    /\ edge_calls tr = [("second", "first")].
Proof.
  eexists _, _, _. split; [vm_compute; reflexivity|].
  rewrite (@AnalyzeFile_similar_edges ascii_tables listed_order _
             Mem.handler service "second" false Scenario.twins _ _ _ _ _
             ltac:(vm_compute; reflexivity) ltac:(vm_compute; reflexivity)).
  reflexivity.
Defined.

(** X5. A fresh analysis reports as similar only documents of the listing,
    never the target itself and none twice, and its verdict is positive
    exactly when it reports at least one. *)
Theorem AnalyzeFile_similar_within_listing `{UnicodeTables} `{RangeOrder}
  {W : Type} (h : Handler W) (s : AnalysisService) (fileID : string)
  (generateWordCloud : bool) (w w0 w1 w2 w' : W) (e0 : error)
  (name content : string) (otherFileIDs : list string) (r : Analysis)
  (tr : list Event) :
  h _ (GetAnalysisResult fileID) w = (Err e0, w0) ->
  h _ (GetFile fileID) w0 = (Ok (name, content), w1) ->
  h _ GetAllFileIDs w1 = (Ok otherFileIDs, w2) ->
  run h (AnalyzeFile s fileID generateWordCloud) w = (Some r, w', tr) ->
  isPlagiarism r = (0 <? len (similarFileIDs r))
  /\ NoDup (similarFileIDs r)
  /\ forall k, k ∈ similarFileIDs r -> k ∈ otherFileIDs /\ k <> fileID.
Proof.
  intros Hmiss Hget Hlist. unfold AnalyzeFile. cbn [run].
  rewrite Hmiss. cbn [run]. rewrite Hget.
  destruct (AnalyzeText (s_textAnalyzer s) content) as [[p wd] ch].
  cbn [run]. rewrite Hlist.
  destruct (run_analyze_fresh h s fileID generateWordCloud content p wd ch
              otherFileIDs w2) as (corpus & wf & trf & _ & Hkeys & Hcases).
  destruct (CheckPlagiarism (s_plagiarismChecker s) content corpus)
    as [[isP sims]|] eqn:Hcheck; [|rewrite Hcases; discriminate].
  apply CheckPlagiarism_keys in Hcheck as (HisP & Hnd & Hdom).
  destruct Hcases as (x & ww & trw & Hwc & Hcases).
  destruct (run_word_cloud_shape h fileID generateWordCloud "" wf)
    as (x' & ww' & trw' & Hwc' & _ & _ & _ & _ & Hx).
  rewrite Hwc in Hwc'. injection Hwc' as <- <- <-.
  assert (Hzero : forall e, let r := failed e in
             isPlagiarism r = (0 <? len (similarFileIDs r))
             /\ NoDup (similarFileIDs r)
             /\ forall k, k ∈ similarFileIDs r -> k ∈ otherFileIDs /\ k <> fileID).
  { intros e. cbn. split; [reflexivity|]. split; [constructor|].
    intros k Hk. inversion Hk. }
  destruct x as [early|loc].
  - rewrite Hcases. destruct Hx as [e1 ->]. intros [= <- _ _]. apply Hzero.
  - cbn zeta in Hcases.
    destruct (h _ (SaveAnalysisResult fileID p wd ch isP loc) ww)
      as [[e1|] ws].
    + rewrite Hcases. intros [= <- _ _]. apply Hzero.
    + destruct Hcases as (we & tre & _ & ->). intros [= <- _ _].
      cbn [isPlagiarism similarFileIDs].
      split; [exact HisP|]. split; [exact Hnd|].
      intros k Hk. apply Hkeys, Hdom, Hk.
Qed.

(** An instance of [AnalyzeFile_similar_within_listing]: a repository
    whose listing names the target among the documents. *)
Lemma AnalyzeFile_similar_within_listing_witness :
  exists r w' tr,
    run Scenario.listing
      (@AnalyzeFile ascii_tables listed_order service "target" false)
      Scenario.three = (Some r, w', tr)
    /\ similarFileIDs r = ["a"]
    /\ forall k, k ∈ similarFileIDs r -> k ∈ ["a"; "target"; "b"] /\ k <> "target".
Proof.
  eexists _, _, _. split; [vm_compute; reflexivity|].
  split; [reflexivity|].
  eapply (@AnalyzeFile_similar_within_listing ascii_tables listed_order _
            Scenario.listing service "target" false Scenario.three);
    [vm_compute; reflexivity|vm_compute; reflexivity|vm_compute; reflexivity
    |vm_compute; reflexivity].
Defined.

(** X6. When the repository refuses the result row, [AnalyzeFile] fails
    with an error that wraps the repository's, returns zero values and
    hands nothing to [SaveSimilarFile]. *)
Theorem AnalyzeFile_save_failure `{UnicodeTables} `{RangeOrder}
  {W : Type} (h : Handler W) (s : AnalysisService) (fileID : string)
  (generateWordCloud : bool) (w w' : W) (r : Analysis) (tr : list Event)
  (e : error) :
  run h (AnalyzeFile s fileID generateWordCloud) w = (Some r, w', tr) ->
  In (Some e) (save_answers tr) ->
  r = failed (Errorf "failed to save analysis results" e)
  /\ edge_calls tr = [].
Proof.
  follow_AnalyzeFile h s fileID generateWordCloud w; try discriminate;
    try (intros [= <- _ <-]; cbn; intros []; fail);
    try quiet Hkf; try quiet Hkw; try quiet Hke;
    intros [= <- _ <-]; read_events.
  - intros [].
  - intros [[= <-]|[]]. split; reflexivity.
  - intros [[=]|[]].
Qed.

(** An instance of [AnalyzeFile_save_failure]: the repository is
    unavailable when the row is saved. *)
Lemma AnalyzeFile_save_failure_witness :
  exists r w' tr e,
    run Mem.handler
      (@AnalyzeFile ascii_tables listed_order service "doc" false)
      (Scenario.single [3%nat]) = (Some r, w', tr)
    /\ save_answers tr = [Some e]
    /\ r = failed (Errorf "failed to save analysis results" e).
Proof.
  eexists _, _, _, _. split; [vm_compute; reflexivity|].
  split; [vm_compute; reflexivity|].
  eapply (@AnalyzeFile_save_failure ascii_tables listed_order _
            Mem.handler service "doc" false (Scenario.single [3%nat]));
    [vm_compute; reflexivity|vm_compute; left; reflexivity].
Defined.

(** X7. The order of the calls of one request: the corpus is listed, the
    documents are compared and the row is handed to the repository at most
    once each; no row is saved without a comparison made on a listed
    corpus; and no pair is handed to [SaveSimilarFile] unless the row has
    been saved with success before, and no row is saved after. *)
Theorem AnalyzeFile_call_order `{UnicodeTables} `{RangeOrder}
  {W : Type} (h : Handler W) (s : AnalysisService) (fileID : string)
  (generateWordCloud : bool) (w w' : W) (o : option Analysis)
  (tr : list Event) :
  run h (AnalyzeFile s fileID generateWordCloud) w = (o, w', tr) ->
  (length (listings tr) <= 1 /\ length (comparisons tr) <= 1
   /\ length (save_calls tr) <= 1)%nat
  /\ (save_calls tr <> [] ->
      length (listings tr) = 1%nat /\ length (comparisons tr) = 1%nat)
  /\ (edge_calls tr <> [] ->
      exists tr1 tr2,
        tr = tr1 ++ tr2
        /\ save_answers tr1 = [None] /\ edge_calls tr1 = []
        /\ save_calls tr2 = []).
Proof.
  follow_AnalyzeFile h s fileID generateWordCloud w;
    try quiet Hkf; try quiet Hkw; try quiet Hke;
    intros [= _ _ <-];
    (split; [read_events; cbn; lia|]);
    (split; [read_events; cbn; intros ?; try contradiction; split; reflexivity|]);
    try (read_events; cbn; intros ?; contradiction).
  read_events. intros _.
  exists (EvCall (GetAnalysisResult fileID) (Err e0)
          :: EvCall (GetFile fileID) (Ok (nm, content))
          :: EvCall GetAllFileIDs (Ok ids)
          :: trf ++ EvCheckPlagiarism content corpus
          :: trw ++ [EvCall (SaveAnalysisResult fileID p wd ch isP loc) None]),
         tre.
  split; [repeat (rewrite <- app_assoc || rewrite <- app_comm_cons);
          reflexivity|].
  split; read_events; [reflexivity|]. split; reflexivity.
Qed.

(** An instance of [AnalyzeFile_call_order]: the second of two documents
    with the same content. *)
Lemma AnalyzeFile_call_order_witness :
  exists o w' tr,
    run Mem.handler
      (@AnalyzeFile ascii_tables listed_order service "second" false)
      Scenario.twins = (o, w', tr)
    /\ edge_calls tr = [("second", "first")]
    /\ exists tr1 tr2,
         tr = tr1 ++ tr2
         /\ save_answers tr1 = [None] /\ edge_calls tr1 = []
         /\ save_calls tr2 = [].
Proof.
  eexists _, _, _. split; [vm_compute; reflexivity|].
  split; [vm_compute; reflexivity|].
  eapply (@AnalyzeFile_call_order ascii_tables listed_order _
            Mem.handler service "second" false Scenario.twins);
    [vm_compute; reflexivity|vm_compute; discriminate].
Defined.

(** X8. With a window that is not negative [AnalyzeFile] returns, whatever
    its collaborators answer: no failure of theirs makes it panic. *)
Theorem AnalyzeFile_returns `{UnicodeTables} `{RangeOrder}
  {W : Type} (h : Handler W) (s : AnalysisService) (fileID : string)
  (generateWordCloud : bool) (w : W) :
  0 <= NGramSize (s_plagiarismChecker s) ->
  exists r w' tr,
    run h (AnalyzeFile s fileID generateWordCloud) w = (Some r, w', tr).
Proof.
  intros Hn.
  follow_AnalyzeFile h s fileID generateWordCloud w;
    try (eexists _, _, _; reflexivity).
  destruct (CheckPlagiarism_ids (s_plagiarismChecker s) content corpus Hn)
    as (found & Hsome & _).
  rewrite Hsome in Hcheck. discriminate.
Qed.

(** An instance of [AnalyzeFile_returns]: the default checker, while the
    file service is down for one of the corpus. *)
Lemma AnalyzeFile_returns_witness :
  exists r w' tr,
    run Mem.handler
      (@AnalyzeFile ascii_tables listed_order service "target" true)
      Scenario.three = (Some r, w', tr).
Proof.
  apply (@AnalyzeFile_returns ascii_tables listed_order _ Mem.handler service
           "target" true Scenario.three).
  vm_compute. discriminate.
Defined.

(** X9. The word cloud of a fresh analysis: without a request nothing is
    generated and the location is empty; a location that is returned names
    an image that the storage accepted before the row, which records that
    same location, was handed to the repository. *)
Theorem AnalyzeFile_word_cloud_location `{UnicodeTables} `{RangeOrder}
  {W : Type} (h : Handler W) (s : AnalysisService) (fileID : string)
  (generateWordCloud : bool) (w w0 w' : W) (e0 : error) (r : Analysis)
  (tr : list Event) :
  h _ (GetAnalysisResult fileID) w = (Err e0, w0) ->
  run h (AnalyzeFile s fileID generateWordCloud) w = (Some r, w', tr) ->
  (generateWordCloud = false ->
   wordCloudLocation r = ""
   /\ ~ In KGenerateWordCloud (kinds tr) /\ ~ In KSaveWordCloud (kinds tr))
  /\ (wordCloudLocation r <> "" ->
      exists tr1 image tr2,
        tr = tr1 ++ EvCall (SaveWordCloud (wordCloudLocation r) image) None
                 :: tr2
        /\ save_calls tr1 = []
        /\ save_calls tr2 = [(fileID, row_of r)]).
Proof.
  intros Hmiss. revert Hmiss.
  assert (Hnone : forall tr0,
             incl (kinds tr0)
                  [KGetAnalysisResult; KGetFile; KGetAllFileIDs; KPrintf;
                   KCheckPlagiarism; KSaveAnalysisResult; KSaveSimilarFile] ->
             ~ In KGenerateWordCloud (kinds tr0)
             /\ ~ In KSaveWordCloud (kinds tr0)).
  { intros tr0 Hin. split; (eapply kinds_absent; [exact Hin|not_listed]). }
  follow_AnalyzeFile h s fileID generateWordCloud w; try discriminate;
    intros _.
  - destruct Hx as [e4 ->]. intros [= <- _ <-].
    split; [|intros Hne; contradiction Hne; reflexivity].
    intros Hoff'. destruct (Hoff Hoff') as [_ [=]].
  - intros [= <- _ <-].
    split; [|intros Hne; contradiction Hne; reflexivity].
    intros Hoff'. destruct (Hoff Hoff') as [-> _].
    split; [reflexivity|]. apply Hnone. kinds_within.
  - intros [= <- _ <-]. cbn [wordCloudLocation]. split.
    + intros Hoff'. destruct (Hoff Hoff') as [-> [= ->]].
      split; [reflexivity|]. apply Hnone. kinds_within.
    + intros Hne. destruct Hx as [->|(tr1 & img & tr2 & ->)];
        [contradiction Hne; reflexivity|].
      quiet Hkf. quiet Hke.
      rewrite save_calls_app, save_calls_cons in Hsw. cbn [save_call] in Hsw.
      apply app_eq_nil in Hsw as [Hs1 Hs2].
      eexists (_ :: _ :: _ :: trf ++ _ :: tr1), img, (tr2 ++ _ :: tre).
      split; [repeat (rewrite <- app_assoc || rewrite <- app_comm_cons);
              reflexivity|].
      split; read_events; reflexivity.
  - intros [= <- _ <-].
    split; [|intros Hne; contradiction Hne; reflexivity].
    intros _. split; [reflexivity|]. apply Hnone. kinds_within.
  - intros [= <- _ <-].
    split; [|intros Hne; contradiction Hne; reflexivity].
    intros _. split; [reflexivity|]. apply Hnone. kinds_within.
Qed.

(** An instance of [AnalyzeFile_word_cloud_location]: a first analysis with
    a word cloud. *)
Lemma AnalyzeFile_word_cloud_location_witness :
  exists r w' tr tr1 image tr2,
    run Mem.handler
      (@AnalyzeFile ascii_tables listed_order service "doc" true)
      (Scenario.single []) = (Some r, w', tr)
    /\ wordCloudLocation r = "cloud.png"
    /\ tr = tr1 ++ EvCall (SaveWordCloud "cloud.png" image) None :: tr2
    /\ save_calls tr2 = [("doc", row_of r)].
Proof.
  destruct (@AnalyzeFile_word_cloud_location ascii_tables listed_order _
              Mem.handler service "doc" true (Scenario.single [])
              _ _ _ _ _
              ltac:(vm_compute; reflexivity) ltac:(vm_compute; reflexivity))
    as [_ Hloc].
  destruct Hloc as (tr1 & image & tr2 & Htr & _ & Hs); [vm_compute; discriminate|].
  eexists _, _, _, tr1, image, tr2. split; [vm_compute; reflexivity|].
  split; [reflexivity|]. split; [exact Htr|exact Hs].
Defined.

(* ===================================================================== *)
(** * Further properties of the TextAnalyzer and of the PlagiarismChecker *)
(* ===================================================================== *)

(** ** Windows that are not positive *)

Lemma ngrams_loop_zero (words : list string) (fuel : nat) :
  forall i : nat,
    Z.of_nat i + Z.of_nat fuel - 1 <= len words ->
    ngrams_loop words 0 fuel (Z.of_nat i) = Some (replicate fuel "").
Proof.
  intros i Hi. rewrite ngrams_loop_spec by lia.
  f_equal. revert i Hi.
  induction fuel as [|fuel IH]; intros i Hi; [reflexivity|].
  cbn [seq map replicate]. rewrite IH by lia. reflexivity.
Qed.


Lemma GetNGrams_zero (a : TextAnalyzer) (T : string) :
  GetNGrams a T 0 = Some (replicate (S (length (Fields T))) "").
Proof.
  unfold GetNGrams, GetWords.
  assert (Hlen : 0 <= len (Fields T)) by (unfold len; lia).
  destruct (Z.ltb_spec (len (Fields T)) 0) as [Hlt|_]; [lia|].
  rewrite (ngrams_loop_zero (Fields T) _ 0%nat) by lia.
  f_equal. f_equal. unfold len. lia.
Qed.





(** ** The frequency map *)

Lemma count_ngrams_lookup (l : list string) (x : string) :
  forall m0 : gmap string Z,
    map_index_int (foldl (fun ngramFreq ngram =>
                            <[ngram := map_index_int ngramFreq ngram + 1]>
                              ngramFreq) m0 l) x
    = map_index_int m0 x + Z.of_nat (count_occ string_dec l x).
Proof.
  induction l as [|y l IH]; intros m0; [cbn; lia|].
  cbn [foldl]. rewrite IH. cbn [count_occ]. unfold map_index_int at 1.
  destruct (string_dec y x) as [->|Hne].
  - rewrite lookup_insert. rewrite decide_True by reflexivity.
    cbn [default id]. lia.
  - rewrite lookup_insert_ne by exact Hne. fold (map_index_int m0 x). lia.
Qed.

(** X12. [generateNGrams] counts: the frequency map holds exactly the
    n-grams that [GetNGrams] returns, each with the number of times it
    occurs among them. *)
Theorem generateNGrams_counts (c : PlagiarismChecker) (text : string) (n : Z)
  (ngrams : list string) :
  GetNGrams (textAnalyzer c) text n = Some ngrams ->
  exists ngramFreq,
    generateNGrams c text n = Some ngramFreq
    /\ forall x,
         ngramFreq !! x
         = if decide (x ∈ ngrams)
           then Some (Z.of_nat (count_occ string_dec ngrams x))
           else None.
Proof.
  intros Hg. unfold generateNGrams. rewrite Hg. cbn [mbind option_bind].
  eexists. split; [reflexivity|]. intros x.
  set (g := foldl _ ∅ ngrams).
  assert (Hdom : dom g = list_to_set ngrams).
  { unfold g. rewrite count_ngrams_dom. set_solver. }
  assert (Hcount : map_index_int g x = Z.of_nat (count_occ string_dec ngrams x)).
  { unfold g. rewrite count_ngrams_lookup. unfold map_index_int.
    rewrite lookup_empty. reflexivity. }
  destruct (decide (x ∈ ngrams)) as [Hin|Hout].
  - assert (Hx : x ∈ dom g) by (rewrite Hdom; set_solver).
    apply elem_of_dom in Hx as [v Hv].
    unfold map_index_int in Hcount. rewrite Hv in Hcount |- *.
    cbn [default id] in Hcount. rewrite Hcount. reflexivity.
  - apply not_elem_of_dom. rewrite Hdom. set_solver.
Qed.

(** An instance of [generateNGrams_counts]: a repeated bigram. *)
Lemma generateNGrams_counts_witness :
  exists ngramFreq,
    generateNGrams NewPlagiarismChecker "la la la land" 2 = Some ngramFreq
    /\ ngramFreq !! "la la" = Some 2
    /\ ngramFreq !! "la land" = Some 1
    /\ ngramFreq !! "land la" = None.
Proof.
  destruct (generateNGrams_counts NewPlagiarismChecker "la la la land" 2
              ["la la"; "la la"; "la land"] ltac:(vm_compute; reflexivity))
    as (g & Hg & Hcount).
  exists g. split; [exact Hg|].
  rewrite !Hcount. repeat split.
Defined.

(** ** The similarity and the verdict *)

(** X13. The similarity looks at the keys of the two frequency maps only:
    neither the frequencies nor the order in which the maps are ranged
    over changes it. *)
Theorem calculateJaccardSimilarity_keys_only (O1 O2 : RangeOrder)
  (c1 c2 : PlagiarismChecker) (g1 g2 g1' g2' : gmap string Z) :
  dom g1 = dom g1' -> dom g2 = dom g2' ->
  @calculateJaccardSimilarity O1 c1 g1 g2
  = @calculateJaccardSimilarity O2 c2 g1' g2'.
Proof.
  intros H1 H2. rewrite !calculateJaccardSimilarity_jaccard, H1, H2.
  reflexivity.
Qed.

(** An instance of [calculateJaccardSimilarity_keys_only]: the same two
    n-grams with other counts. *)
Lemma calculateJaccardSimilarity_keys_only_witness :
  @calculateJaccardSimilarity listed_order NewPlagiarismChecker
     (<["a b" := 1]> (<["b c" := 2]> ∅)) (<["b c" := 1]> ∅)
  = @calculateJaccardSimilarity listed_order NewPlagiarismChecker
     (<["a b" := 7]> (<["b c" := 1]> ∅)) (<["b c" := 4]> ∅).
Proof.
  apply calculateJaccardSimilarity_keys_only; vm_compute; reflexivity.
Defined.

(** X14. The order in which the corpus is ranged over changes only the
    order of the identifiers returned: under two range orders the verdicts
    are equal and the lists are permutations of each other. *)
Theorem CheckPlagiarism_range_order `{UnicodeTables} (O1 O2 : RangeOrder)
  (c : PlagiarismChecker) (content : string)
  (otherContents : gmap string string) :
  0 <= NGramSize c ->
  exists (isMatch : bool) (ids1 ids2 : list string),
    @CheckPlagiarism _ O1 c content otherContents = Some (isMatch, ids1)
    /\ @CheckPlagiarism _ O2 c content otherContents = Some (isMatch, ids2)
    /\ ids1 ≡ₚ ids2.
Proof.
  intros Hn.
  destruct (@CheckPlagiarism_ids _ O1 c content otherContents Hn)
    as (ids1 & Hrun1 & Hiff1 & Hsub1).
  destruct (@CheckPlagiarism_ids _ O2 c content otherContents Hn)
    as (ids2 & Hrun2 & Hiff2 & Hsub2).
  assert (Hperm : ids1 ≡ₚ ids2).
  { apply NoDup_Permutation.
    - eapply sublist_NoDup; [|exact Hsub1]. apply range_map_NoDup.
    - eapply sublist_NoDup; [|exact Hsub2]. apply range_map_NoDup.
    - intros id. rewrite Hiff1, Hiff2. reflexivity. }
  exists (0 <? len ids1), ids1, ids2. split; [exact Hrun1|].
  split; [|exact Hperm].
  rewrite Hrun2. unfold len. rewrite (Permutation_length Hperm). reflexivity.
Qed.

(** An instance of [CheckPlagiarism_range_order]: two matching candidates
    and one that does not match, visited in either order. *)
Lemma CheckPlagiarism_range_order_witness :
  exists (isMatch : bool) (ids1 ids2 : list string),
    @CheckPlagiarism ascii_tables listed_order NewPlagiarismChecker
      "one two three four"
      (<["a" := "one two three four"]>
         (<["b" := "one two three four five"]>
            (<["c" := "nothing alike here"]> ∅)))
    = Some (isMatch, ids1)
    /\ @CheckPlagiarism ascii_tables reversed_order NewPlagiarismChecker
         "one two three four"
         (<["a" := "one two three four"]>
            (<["b" := "one two three four five"]>
               (<["c" := "nothing alike here"]> ∅)))
       = Some (isMatch, ids2)
    /\ ids1 ≡ₚ ids2.
Proof.
  apply (@CheckPlagiarism_range_order ascii_tables listed_order reversed_order).
  vm_compute. discriminate.
Defined.

(** X15. With the window 0 and a threshold of at most 1 every candidate of
    the corpus is reported, whatever the texts are: each text then has the
    empty n-gram as its only n-gram. *)
Theorem CheckPlagiarism_window_zero `{UnicodeTables} `{RangeOrder}
  (c : PlagiarismChecker) (content : string)
  (otherContents : gmap string string) :
  NGramSize c = 0 ->
  PrimFloat.leb (SimilarityThreshold c) 1 = true ->
  exists similarFileIDs,
    CheckPlagiarism c content otherContents
    = Some (0 <? len similarFileIDs, similarFileIDs)
    /\ forall id, id ∈ similarFileIDs <-> id ∈ dom otherContents.
Proof.
  intros Hn Hthr.
  destruct (CheckPlagiarism_ids c content otherContents ltac:(lia))
    as (ids & Hrun & Hiff & _).
  exists ids. split; [exact Hrun|]. intros id. rewrite Hiff, elem_of_dom.
  split; [intros (other & Ho & _); eexists; exact Ho|].
  intros [other Ho]. exists other. split; [exact Ho|]. right.
  assert (Hgrams : forall text,
             exists g, generateNGrams c text (NGramSize c) = Some g
                       /\ dom g = {[ "" ]}).
  { intros text.
    destruct (generateNGrams_total c text (NGramSize c) ltac:(lia))
      as (g & ngrams & Hng & Hg & Hdom).
    exists g. split; [exact Hg|]. rewrite Hdom.
    rewrite Hn, GetNGrams_zero in Hng. injection Hng as <-. cbn [replicate]. rewrite list_to_set_cons.
    apply set_eq. intros x. rewrite elem_of_union, elem_of_singleton.
    rewrite elem_of_list_to_set. split; [|auto].
    intros [->|Hx]; [reflexivity|]. apply elem_of_replicate in Hx as [-> _].
    reflexivity. }
  destruct (Hgrams (preprocessText c content)) as (g1 & Hg1 & Hd1).
  destruct (Hgrams (preprocessText c other)) as (g2 & Hg2 & Hd2).
  exists g1, g2. split; [exact Hg1|]. split; [exact Hg2|].
  rewrite Hd1, Hd2, jaccard_self by (rewrite size_singleton; lia).
  rewrite decide_False; [exact Hthr|]. set_solver.
Qed.

(** An instance of [CheckPlagiarism_window_zero]: two texts without a
    common word. *)
Lemma CheckPlagiarism_window_zero_witness :
  exists similarFileIDs,
    @CheckPlagiarism ascii_tables listed_order
      {| SimilarityThreshold := 0.3; NGramSize := 0;
         textAnalyzer := NewTextAnalyzer |}
      "alpha beta gamma" (<["doc" := "delta epsilon"]> ∅)
    = Some (0 <? len similarFileIDs, similarFileIDs)
    /\ forall id, id ∈ similarFileIDs
                  <-> id ∈ dom (<["doc" := "delta epsilon"]> ∅ : gmap string string).
Proof.
  apply (@CheckPlagiarism_window_zero ascii_tables listed_order);
    vm_compute; reflexivity.
Defined.

(** X16. A content whose normalized form has fewer tokens than the window
    has no n-gram: under a threshold above 0 it matches a candidate only
    through the hash of the normalized forms, however much the two texts
    have in common. *)
Theorem CheckPlagiarism_short_content `{UnicodeTables} `{RangeOrder}
  (c : PlagiarismChecker) (content : string)
  (otherContents : gmap string string) (isMatch : bool)
  (similarFileIDs : list string) (id other : string)
  (otherNGrams : gmap string Z) :
  1 <= NGramSize c ->
  PrimFloat.leb (SimilarityThreshold c) 0 = false ->
  len (Fields (preprocessText c content)) < NGramSize c ->
  CheckPlagiarism c content otherContents = Some (isMatch, similarFileIDs) ->
  otherContents !! id = Some other ->
  generateNGrams c (preprocessText c other) (NGramSize c) = Some otherNGrams ->
  len_map otherNGrams < 2 ^ 63 ->
  id ∈ similarFileIDs
  <-> calculateHash c (preprocessText c content)
      = calculateHash c (preprocessText c other).
Proof.
  intros Hn Hthr Hshort Hrun Ho Hg2 Hsize.
  destruct (CheckPlagiarism_ids c content otherContents ltac:(lia))
    as (ids & Hrun' & Hiff & _).
  rewrite Hrun in Hrun'. injection Hrun' as _ ->.
  rewrite Hiff. split.
  - intros (other' & Ho' & Hm). rewrite Ho in Ho'. injection Ho' as <-.
    destruct Hm as [Hhash|(g1 & g2 & Hg1 & Hg2' & Hle)]; [exact Hhash|].
    rewrite Hg2 in Hg2'. injection Hg2' as <-.
    destruct (generateNGrams_empty c _ _ g1 Hn Hg1) as [Hempty _].
    rewrite (Hempty Hshort), dom_empty_L in Hle.
    rewrite jaccard_disjoint in Hle; [congruence|set_solver|].
    rewrite union_empty_l_L, size_dom. exact Hsize.
  - intros Hhash. exists other. split; [exact Ho|left; exact Hhash].
Qed.

(** An instance of [CheckPlagiarism_short_content]: two significant words
    against a candidate that repeats them and adds a third. *)
Lemma CheckPlagiarism_short_content_witness :
  "doc" ∈ ([] : list string)
  <-> calculateHash NewPlagiarismChecker
        (@preprocessText ascii_tables NewPlagiarismChecker "hello world")
      = calculateHash NewPlagiarismChecker
          (@preprocessText ascii_tables NewPlagiarismChecker
             "hello world again").
Proof.
  eapply (@CheckPlagiarism_short_content ascii_tables listed_order
            NewPlagiarismChecker "hello world"
            (<["doc" := "hello world again"]> ∅) false [] "doc");
    [vm_compute; discriminate|vm_compute; reflexivity|vm_compute; reflexivity
    |vm_compute; reflexivity|vm_compute; reflexivity|vm_compute; reflexivity
    |vm_compute; reflexivity].
Defined.

(** ** The hash *)

Lemma length_be_bytes (n : nat) (x : Z) : length (SHA256.be_bytes n x) = n.
Proof. induction n as [|n IH]; cbn [SHA256.be_bytes length]; congruence. Qed.

Lemma be_bytes_range (n : nat) (x : Z) :
  Forall (fun b => 0 <= b < 256) (SHA256.be_bytes n x).
Proof.
  induction n as [|n IH]; cbn [SHA256.be_bytes]; constructor; [|exact IH].
  apply Z.mod_pos_bound. lia.
Qed.

Lemma length_round (st : list Z) (kw : Z * Z) :
  length (SHA256.round st kw) = length st.
Proof.
  unfold SHA256.round.
  do 9 (destruct st as [|? st]; try reflexivity).
Qed.

Lemma length_compress (st block : list Z) :
  length (SHA256.compress st block) = length st.
Proof.
  unfold SHA256.compress. rewrite length_map, length_combine.
  assert (Hfold : forall kws st0,
             length (foldl SHA256.round st0 kws) = length st0).
  { induction kws as [|kw kws IH]; intros st0; cbn [foldl]; [reflexivity|].
    rewrite IH. apply length_round. }
  rewrite Hfold. lia.
Qed.

Lemma length_blocks (n : nat) :
  forall st bs, length (SHA256.blocks n st bs) = length st.
Proof.
  induction n as [|n IH]; intros st bs; cbn [SHA256.blocks]; [reflexivity|].
  rewrite IH. apply length_compress.
Qed.

Lemma Sum256_bytes (msg : string) :
  length (SHA256.Sum256 msg) = 32%nat
  /\ Forall (fun b => 0 <= b < 256) (SHA256.Sum256 msg).
Proof.
  unfold SHA256.Sum256.
  set (st := SHA256.blocks _ _ _).
  assert (Hst : length st = 8%nat) by (unfold st; rewrite length_blocks; reflexivity).
  clearbody st.
  do 9 (destruct st as [|? st]; try discriminate Hst).
  cbn [map concat]. split.
  - rewrite !length_app, !length_be_bytes. reflexivity.
  - rewrite !Forall_app. repeat split; try apply be_bytes_range. constructor.
Qed.

Lemma hex_digit_lower (v : Z) :
  0 <= v < 16 -> In (hex_digit v) (list_ascii_of_string "0123456789abcdef").
Proof.
  intros Hv.
  assert (Hcases : v = 0 \/ v = 1 \/ v = 2 \/ v = 3 \/ v = 4 \/ v = 5 \/ v = 6
                   \/ v = 7 \/ v = 8 \/ v = 9 \/ v = 10 \/ v = 11 \/ v = 12
                   \/ v = 13 \/ v = 14 \/ v = 15) by lia.
  repeat (destruct Hcases as [->|Hcases]; [vm_compute; tauto|]).
  subst v. vm_compute. tauto.
Qed.

(** X17. [calculateHash] returns 64 characters, each a lower-case
    hexadecimal digit, for every content. *)
Theorem calculateHash_format (c : PlagiarismChecker) (content : string) :
  String.length (calculateHash c content) = 64%nat
  /\ Forall (fun ch => In ch (list_ascii_of_string "0123456789abcdef"))
            (list_ascii_of_string (calculateHash c content)).
Proof.
  unfold calculateHash, EncodeToString.
  destruct (Sum256_bytes content) as [Hlen Hrange].
  set (digest := SHA256.Sum256 content) in *. clearbody digest.
  assert (Hdigits : forall bs,
             Forall (fun b => 0 <= b < 256) bs ->
             length (concat (map (fun b => [hex_digit (b / 16);
                                            hex_digit (b mod 16)]) bs))
             = (2 * length bs)%nat
             /\ Forall (fun ch => In ch (list_ascii_of_string "0123456789abcdef"))
                       (concat (map (fun b => [hex_digit (b / 16);
                                               hex_digit (b mod 16)]) bs))).
  { induction 1 as [|b bs Hb Hbs [IHl IHf]]; [split; [reflexivity|constructor]|].
    cbn [map concat app length]. split; [rewrite IHl; lia|].
    constructor; [apply hex_digit_lower; split;
                  [apply Z.div_pos; lia|apply Z.div_lt_upper_bound; lia]|].
    constructor; [apply hex_digit_lower; apply Z.mod_pos_bound; lia|exact IHf]. }
  destruct (Hdigits digest Hrange) as [Hl Hf].
  split.
  - rewrite <- (list_ascii_of_string_of_list_ascii (concat _)) in Hl.
    rewrite <- Hlen in *.
    transitivity (length (list_ascii_of_string
                            (string_of_list_ascii
                               (concat (map (fun b => [hex_digit (b / 16);
                                                       hex_digit (b mod 16)])
                                            digest))))); [|rewrite Hl; lia].
    generalize (string_of_list_ascii
                  (concat (map (fun b => [hex_digit (b / 16);
                                          hex_digit (b mod 16)]) digest))).
    intros str. induction str as [|ch str IH]; cbn; congruence.
  - rewrite list_ascii_of_string_of_list_ascii. exact Hf.
Qed.

(* ===================================================================== *)
(** * Whitespace and words                                                *)
(* ===================================================================== *)

(** ** RemoveExcessWhitespace *)

Lemma re_space_space : re_space " " = true.
Proof. reflexivity. Qed.

(** What [replace_runs] returns holds no white space but single spaces,
    and does not start with one when a run is being replaced. *)
Lemma replace_runs_shape (s : string) :
  forall in_run : bool,
    let out := replace_runs " " in_run s in
    (forall i b, String.get i out = Some b -> re_space b = true ->
       b = " "%char /\ String.get (S i) out <> Some " "%char)
    /\ (in_run = true -> String.get 0 out <> Some " "%char).
Proof.
  induction s as [|c s IH]; intros in_run; cbn [replace_runs].
  - cbn. split; [intros i b Hget; destruct i; discriminate Hget|discriminate].
  - destruct (re_space c) eqn:Hc.
    + destruct in_run.
      * apply IH.
      * destruct (IH true) as [IHa IHb]. cbn zeta in *.
        change (" " +:+ replace_runs " " true s)
          with (String " " (replace_runs " " true s)).
        split; [|discriminate].
        intros [|i] b Hget Hb; cbn [String.get] in Hget |- *.
        -- injection Hget as <-. split; [reflexivity|]. apply IHb. reflexivity.
        -- apply (IHa i b Hget Hb).
    + destruct (IH false) as [IHa _]. cbn zeta in *. split.
      * intros [|i] b Hget Hb; cbn [String.get] in Hget |- *.
        -- injection Hget as <-. congruence.
        -- apply (IHa i b Hget Hb).
      * intros _. cbn [String.get]. intros [= ->]. discriminate Hc.
Qed.

(** A text of that shape is left as it is. *)
Lemma replace_runs_fixed (s : string) :
  forall in_run : bool,
    (forall i b, String.get i s = Some b -> re_space b = true ->
       b = " "%char /\ String.get (S i) s <> Some " "%char) ->
    (in_run = true -> String.get 0 s <> Some " "%char) ->
    replace_runs " " in_run s = s.
Proof.
  induction s as [|c s IH]; intros in_run Hshape Hhead; [reflexivity|].
  cbn [replace_runs].
  assert (Htail : forall i b, String.get i s = Some b -> re_space b = true ->
            b = " "%char /\ String.get (S i) s <> Some " "%char).
  { intros i b Hget Hb. apply (Hshape (S i) b Hget Hb). }
  destruct (re_space c) eqn:Hc.
  - destruct (Hshape 0%nat c eq_refl Hc) as [-> Hnext].
    destruct in_run; [contradiction (Hhead eq_refl); reflexivity|].
    rewrite (IH true Htail (fun _ => Hnext)). reflexivity.
  - rewrite (IH false Htail) by discriminate. reflexivity.
Qed.

(** X18. Every white-space character left by [RemoveExcessWhitespace] is a
    space that no other space follows; the function changes nothing in a
    text it has returned. *)
Theorem RemoveExcessWhitespace_normal_form (a : TextAnalyzer) (text : string) :
  let out := RemoveExcessWhitespace a text in
  (forall i b, String.get i out = Some b -> re_space b = true ->
     b = " "%char /\ String.get (S i) out <> Some " "%char)
  /\ RemoveExcessWhitespace a out = out.
Proof.
  unfold RemoveExcessWhitespace.
  destruct (replace_runs_shape text false) as [Hshape _]. cbn zeta in *.
  split; [exact Hshape|].
  apply replace_runs_fixed; [exact Hshape|discriminate].
Qed.

(** An instance of [RemoveExcessWhitespace_normal_form]: a run of a
    space, a tab, a newline and a space. *)
Lemma RemoveExcessWhitespace_normal_form_witness :
  let text := "a " +:+ String "009" (String "010" " b") in
  RemoveExcessWhitespace NewTextAnalyzer text = "a b"
  /\ RemoveExcessWhitespace NewTextAnalyzer
       (RemoveExcessWhitespace NewTextAnalyzer text)
     = RemoveExcessWhitespace NewTextAnalyzer text.
Proof.
  split; [vm_compute; reflexivity|].
  apply (RemoveExcessWhitespace_normal_form NewTextAnalyzer).
Defined.

(** ** Runes and their bytes *)

Lemma bytes_substring (n : nat) (s : string) :
  list_ascii_of_string (substring 0 n s) = take n (list_ascii_of_string s).
Proof.
  revert s. induction n as [|n IH]; intros [|c s]; cbn; try reflexivity.
  rewrite IH. reflexivity.
Qed.

Lemma bytes_append (s t : string) :
  list_ascii_of_string (s +:+ t)
  = list_ascii_of_string s ++ list_ascii_of_string t.
Proof.
  induction s as [|c s IH]; [reflexivity|].
  change (String c s +:+ t) with (String c (s +:+ t)).
  cbn [list_ascii_of_string app]. rewrite IH. reflexivity.
Qed.

Lemma in_range_high (lo hi : Z) (b : ascii) :
  128 <= lo -> in_range lo hi b = true -> 128 <= byte_val b.
Proof.
  unfold in_range. rewrite andb_true_iff, !Z.leb_le. lia.
Qed.

(** The first rune of a non-empty string: an ASCII byte decodes to itself,
    on one byte; any other rune is decoded from one to four bytes that are
    all beyond ASCII. *)
Lemma DecodeRuneInString_bytes (b : ascii) (s : string) :
  let '(r, w) := DecodeRuneInString (String b s) in
  (1 <= w <= 4)%nat
  /\ ((byte_val b < 128 /\ r = byte_val b /\ w = 1%nat)
      \/ (128 <= byte_val b
          /\ Forall (fun c => 128 <= byte_val c)
                    (take w (list_ascii_of_string (String b s))))).
Proof.
  unfold DecodeRuneInString.
  destruct (Z.ltb_spec (byte_val b) 128) as [Hlow|Hhigh];
    [split; [lia|left; repeat split; lia]|].
  assert (Hone : Forall (fun c => 128 <= byte_val c)
                        (take 1 (list_ascii_of_string (String b s))))
    by (cbn; constructor; [exact Hhigh|constructor]).
  destruct ((byte_val b <? 194) || (244 <? byte_val b));
    [split; [lia|right; split; assumption]|].
  set (bounds := if byte_val b =? 224 then (160, 191)
                 else if byte_val b =? 237 then (128, 159)
                 else if byte_val b =? 240 then (144, 191)
                 else if byte_val b =? 244 then (128, 143)
                 else (128, 191)).
  assert (Hlo : 128 <= fst bounds).
  { unfold bounds.
    repeat match goal with
           | |- context [if ?c then _ else _] => destruct c
           end; cbn; lia. }
  destruct bounds as [lo hi]. cbn [fst] in Hlo.
  destruct s as [|b1 s2]; [split; [lia|right; split; assumption]|].
  destruct (in_range lo hi b1) eqn:H1; cbn [negb];
    [|split; [lia|right; split; assumption]].
  apply in_range_high in H1; [|exact Hlo].
  destruct (byte_val b <? 224).
  { split; [lia|right; split; [exact Hhigh|]].
    cbn. repeat (constructor; [assumption|]). constructor. }
  destruct s2 as [|b2 s3]; [split; [lia|right; split; assumption]|].
  destruct (cont b2) eqn:H2; cbn [negb];
    [|split; [lia|right; split; assumption]].
  apply in_range_high in H2; [|lia].
  destruct (byte_val b <? 240).
  { split; [lia|right; split; [exact Hhigh|]].
    cbn. repeat (constructor; [assumption|]). constructor. }
  destruct s3 as [|b3 s4]; [split; [lia|right; split; assumption]|].
  destruct (cont b3) eqn:H3; cbn [negb];
    [|split; [lia|right; split; assumption]].
  apply in_range_high in H3; [|lia].
  split; [lia|right; split; [exact Hhigh|]].
  cbn. repeat (constructor; [assumption|]). constructor.
Qed.

Lemma range_from_chunks (s : string) :
  forall skip : nat,
    Forall chunk_ok (range_from skip s)
    /\ (length (range_from skip s) <= String.length s)%nat
    /\ forall rb b, In rb (range_from skip s) ->
                    In b (list_ascii_of_string (snd rb)) ->
                    In b (list_ascii_of_string s).
Proof.
  induction s as [|b s IH]; intros skip; cbn [range_from].
  - split; [constructor|]. split; [reflexivity|]. intros rb c [].
  - destruct skip as [|k].
    + pose proof (DecodeRuneInString_bytes b s) as Hdec.
      destruct (DecodeRuneInString (String b s)) as [r w].
      destruct Hdec as [Hw Hcase].
      destruct (IH (Nat.pred w)) as (IHc & IHl & IHb).
      split; [|split].
      * constructor; [|exact IHc]. unfold chunk_ok. cbn [fst snd].
        destruct Hcase as [(Hlow & -> & ->)|[Hhigh Hall]].
        -- left. exists b. split; [destruct s; reflexivity|].
           split; [exact Hlow|reflexivity].
        -- right. rewrite bytes_substring. split; [|exact Hall].
           destruct w; [lia|]. cbn. discriminate.
      * cbn [length String.length]. lia.
      * intros rb c [<-|Hin] Hc.
        -- cbn [snd] in Hc. rewrite bytes_substring in Hc.
           apply list_elem_of_In, elem_of_take in Hc as (i & Hi & _).
           apply list_elem_of_In, list_elem_of_lookup. eauto.
        -- right. apply (IHb rb c Hin Hc).
    + destruct (IH k) as (IHc & IHl & IHb).
      split; [exact IHc|]. split; [cbn [String.length]; lia|].
      intros rb c Hin Hc. right. apply (IHb rb c Hin Hc).
Qed.

(** ** Fields *)

Lemma append_nonempty (s t : string) : t <> "" -> s +:+ t <> "".
Proof. destruct s; [intros Ht; exact Ht|discriminate]. Qed.

Lemma fields_go_words (rs : list (rune * string)) :
  Forall chunk_ok rs ->
  forall cur : option string,
    (forall w, cur = Some w -> word_ok w) ->
    Forall word_ok (fields_go cur rs)
    /\ (length (fields_go cur rs)
        <= length rs + (if cur is Some _ then 1 else 0))%nat
    /\ forall w b, In w (fields_go cur rs) ->
                   In b (list_ascii_of_string w) ->
                   In b (list_ascii_of_string (default "" cur))
                   \/ exists rb, In rb rs
                                 /\ In b (list_ascii_of_string (snd rb)).
Proof.
  induction 1 as [|[r bs] rs Hchunk Hrs IH]; intros cur Hcur;
    cbn [fields_go].
  - destruct cur as [w|]; cbn [length].
    + split; [constructor; [apply Hcur; reflexivity|constructor]|].
      split; [lia|]. intros w' b [<-|[]] Hb. left. exact Hb.
    + split; [constructor|]. split; [lia|]. intros w b [].
  - destruct (IsSpace r) eqn:Hspace.
    + destruct (IH None) as (IHw & IHl & IHb); [discriminate|].
      destruct cur as [w|]; cbn [length].
      * split; [constructor; [apply Hcur; reflexivity|exact IHw]|].
        split; [cbn in IHl; lia|].
        intros w' b [<-|Hin] Hb; [left; exact Hb|].
        destruct (IHb w' b Hin Hb) as [[]|(rb & Hrb & Hb')].
        right. exists rb. split; [right; exact Hrb|exact Hb'].
      * split; [exact IHw|]. split; [cbn in IHl; lia|].
        intros w' b Hin Hb.
        destruct (IHb w' b Hin Hb) as [[]|(rb & Hrb & Hb')].
        right. exists rb. split; [right; exact Hrb|exact Hb'].
    + assert (Hbs : bs <> ""
                    /\ forall b, In b (list_ascii_of_string bs) ->
                                 byte_val b < 128 ->
                                 IsSpace (byte_val b) = false).
      { destruct Hchunk as [(b & Hb & Hlow & Hr)|[Hne Hhigh]];
          cbn [fst snd] in *.
        - subst bs. split; [discriminate|].
          intros b' [<-|[]] _. rewrite <- Hr. exact Hspace.
        - split; [exact Hne|]. intros b Hb Hlow.
          rewrite List.Forall_forall in Hhigh. apply Hhigh in Hb. lia. }
      destruct (IH (Some (default "" cur +:+ bs))) as (IHw & IHl & IHb).
      { intros w [= <-]. split; [apply append_nonempty, Hbs|].
        intros b Hb Hlow. rewrite bytes_append in Hb.
        apply in_app_or in Hb as [Hb|Hb]; [|apply Hbs; assumption].
        destruct cur as [w|]; [|destruct Hb].
        apply (Hcur w eq_refl); assumption. }
      split; [exact IHw|]. split; [cbn [length]; destruct cur; lia|].
      intros w b Hin Hb.
      destruct (IHb w b Hin Hb) as [Hb'|(rb & Hrb & Hb')].
      * change (In b (list_ascii_of_string (default "" cur +:+ bs))) in Hb'.
        rewrite bytes_append in Hb'.
        apply in_app_or in Hb' as [Hb'|Hb']; [left; exact Hb'|].
        right. exists (r, bs). split; [left; reflexivity|exact Hb'].
      * right. exists rb. split; [right; exact Hrb|exact Hb'].
Qed.

(** The fields of a string: words, no more of them than the string has
    bytes, made of bytes of the string. *)
Lemma Fields_words (s : string) :
  Forall word_ok (Fields s)
  /\ (length (Fields s) <= String.length s)%nat
  /\ forall w b, In w (Fields s) -> In b (list_ascii_of_string w) ->
                 In b (list_ascii_of_string s).
Proof.
  unfold Fields, range_string.
  destruct (range_from_chunks s 0) as (Hc & Hl & Hb).
  destruct (fields_go_words _ Hc None) as (Hw & Hlen & Hbytes); [discriminate|].
  split; [exact Hw|]. split; [lia|].
  intros w b Hin Hbw.
  destruct (Hbytes w b Hin Hbw) as [[]|(rb & Hrb & Hb')].
  apply (Hb rb b Hrb Hb').
Qed.

(** ** Significant words *)

Lemma byte_val_byte_of (z : Z) : byte_val (byte_of z) = z mod 256.
Proof.
  unfold byte_val, byte_of.
  assert (Hz : 0 <= z mod 256 < 256) by (apply Z.mod_pos_bound; lia).
  rewrite N_ascii_embedding; [apply Z2N.id; lia|].
  change 256%N with (Z.to_N 256). apply Z2N.inj_lt; lia.
Qed.

Lemma byte_val_range (b : ascii) : 0 <= byte_val b < 256.
Proof.
  unfold byte_val. pose proof (N_ascii_bounded b). lia.
Qed.

(** A byte whose bit 7 is set by a mask is beyond ASCII. *)
Lemma lor_high (k x : Z) :
  Z.testbit k 7 = true -> 128 <= byte_val (byte_of (Z.lor k x)).
Proof.
  intros Hk. rewrite byte_val_byte_of.
  assert (Hbit : Z.testbit (Z.lor k x) 7 = true)
    by (rewrite Z.lor_spec, Hk; reflexivity).
  apply Z.testbit_true in Hbit; [|lia].
  change 256 with (2 ^ 7 * 2). rewrite Z.rem_mul_r by lia.
  pose proof (Z.mod_pos_bound (Z.lor k x) (2 ^ 7) ltac:(lia)). lia.
Qed.

(** [EncodeRune] writes an ASCII rune as itself and any other rune on
    bytes beyond ASCII. *)
Lemma EncodeRune_bytes (r : rune) :
  (0 <= r < 128 /\ EncodeRune r = String (byte_of r) "")
  \/ Forall (fun c => 128 <= byte_val c) (list_ascii_of_string (EncodeRune r)).
Proof.
  unfold EncodeRune.
  destruct ((0 <=? r) && (r <? 128)) eqn:Hascii.
  - left. apply andb_true_iff in Hascii as [H0 H1].
    apply Z.leb_le in H0. apply Z.ltb_lt in H1. split; [lia|reflexivity].
  - right.
    repeat match goal with
           | |- context [if ?c then _ else _] => destruct c
           end;
      cbn [list_ascii_of_string];
      repeat (constructor; [first [apply lor_high; reflexivity
                                  |vm_compute; discriminate]|]);
      constructor.
Qed.

Lemma bytes_concat (l : list string) (b : ascii) :
  In b (list_ascii_of_string (String.concat "" l)) ->
  exists x, In x l /\ In b (list_ascii_of_string x).
Proof.
  induction l as [|x l IH]; [intros []|].
  destruct l as [|y l].
  - cbn [String.concat]. intros Hb. exists x. split; [left; reflexivity|exact Hb].
  - change (String.concat "" (x :: y :: l))
      with (x +:+ "" +:+ String.concat "" (y :: l)).
    rewrite !bytes_append. cbn [list_ascii_of_string app].
    intros Hb. apply in_app_or in Hb as [Hb|Hb].
    + exists x. split; [left; reflexivity|exact Hb].
    + destruct (IH Hb) as (z & Hz & Hbz). exists z. split; [right; exact Hz|exact Hbz].
Qed.

Lemma byte_space_IsSpace : IsSpace (byte_val " ") = true.
Proof. reflexivity. Qed.

(** The words that [GetSignificantWords] filters: none of their ASCII
    bytes is white space or punctuation. *)
Lemma significant_candidates `{UnicodeTables} (content : string) :
  Forall (fun w =>
            word_ok w
            /\ forall b, In b (list_ascii_of_string w) -> byte_val b < 128 ->
                         latin1_punct (byte_val b) = false)
         (Fields
            (String.concat ""
               (map (fun rb : rune * string =>
                       if negb (IsPunct (fst rb)) then EncodeRune (fst rb)
                       else " ")
                    (range_string content)))).
Proof.
  set (blanked := String.concat "" _).
  destruct (Fields_words blanked) as (Hwords & _ & Hbytes).
  rewrite List.Forall_forall in Hwords. apply List.Forall_forall.
  intros w Hw. split; [apply Hwords, Hw|].
  intros b Hb Hlow.
  pose proof (Hbytes w b Hw Hb) as Hin.
  apply bytes_concat in Hin as (x & Hx & Hbx).
  apply in_map_iff in Hx as ([r bs] & <- & _). cbn [fst] in Hbx.
  destruct (IsPunct r) eqn:Hpunct; cbn [negb] in Hbx.
  - destruct Hbx as [<-|[]].
    destruct (Hwords w Hw) as [_ Hnospace].
    pose proof byte_space_IsSpace as Hsp.
    rewrite (Hnospace " "%char Hb) in Hsp by (vm_compute; reflexivity).
    discriminate Hsp.
  - destruct (EncodeRune_bytes r) as [[Hr Henc]|Hhigh].
    + rewrite Henc in Hbx. destruct Hbx as [<-|[]].
      rewrite byte_val_byte_of, Z.mod_small by lia.
      unfold IsPunct in Hpunct.
      destruct ((0 <=? r) && (r <=? 255)) eqn:Hlatin; [exact Hpunct|].
      apply andb_false_iff in Hlatin as [Hl|Hl];
        [apply Z.leb_gt in Hl|apply Z.leb_gt in Hl]; lia.
    + rewrite List.Forall_forall in Hhigh. apply Hhigh in Hbx. lia.
Qed.

(** X19. No word that [GetSignificantWords] returns is empty or a stop
    word, and none holds an ASCII white-space or punctuation character. *)
Theorem GetSignificantWords_words `{UnicodeTables} (a : TextAnalyzer)
  (content : string) :
  Forall (fun w =>
            w <> "" /\ StopWords a !! w <> Some true
            /\ forall b, In b (list_ascii_of_string w) -> byte_val b < 128 ->
                         IsSpace (byte_val b) = false
                         /\ latin1_punct (byte_val b) = false)
         (GetSignificantWords a content).
Proof.
  unfold GetSignificantWords.
  pose proof (significant_candidates (ToLower content)) as Hall.
  rewrite List.Forall_forall in Hall. apply List.Forall_forall.
  intros w Hw. apply filter_In in Hw as [Hw Hstop].
  destruct (Hall w Hw) as [[Hne Hspace] Hpunct].
  split; [exact Hne|]. split.
  - intros Hstopped. unfold map_index_bool in Hstop.
    rewrite Hstopped in Hstop. discriminate.
  - intros b Hb Hlow. split; [apply Hspace|apply Hpunct]; assumption.
Qed.

(** An instance of [GetSignificantWords_words]. *)
Lemma GetSignificantWords_words_witness :
  @GetSignificantWords ascii_tables NewTextAnalyzer "It's the END, my friend!"
  = ["s"; "end"; "my"; "friend"]
  /\ forall b, In b (list_ascii_of_string "friend") -> byte_val b < 128 ->
               IsSpace (byte_val b) = false
               /\ latin1_punct (byte_val b) = false.
Proof.
  split; [vm_compute; reflexivity|].
  pose proof (@GetSignificantWords_words ascii_tables NewTextAnalyzer
                "It's the END, my friend!") as Hall.
  rewrite List.Forall_forall in Hall.
  apply (Hall "friend"). vm_compute. tauto.
Defined.

(** X20. A stop word that holds an ASCII white-space or punctuation
    character, or is empty, filters nothing: without it
    [GetSignificantWords] returns the same words. *)
Theorem StopWords_never_matched `{UnicodeTables} (a : TextAnalyzer)
  (stopWord content : string) :
  (stopWord = ""
   \/ exists b, In b (list_ascii_of_string stopWord) /\ byte_val b < 128
                /\ (IsSpace (byte_val b) = true
                    \/ latin1_punct (byte_val b) = true)) ->
  GetSignificantWords {| StopWords := delete stopWord (StopWords a) |} content
  = GetSignificantWords a content.
Proof.
  intros Hdead. unfold GetSignificantWords. cbn [StopWords].
  apply filter_ext_in. intros w Hw.
  pose proof (significant_candidates (ToLower content)) as Hall.
  rewrite List.Forall_forall in Hall.
  destruct (Hall w Hw) as [[Hne Hspace] Hpunct].
  unfold map_index_bool. rewrite lookup_delete_ne; [reflexivity|].
  intros <-. destruct Hdead as [->|(b & Hb & Hlow & [Hs|Hp])].
  - contradiction Hne. reflexivity.
  - rewrite (Hspace b Hb Hlow) in Hs. discriminate.
  - rewrite (Hpunct b Hb Hlow) in Hp. discriminate.
Qed.

(** An instance of [StopWords_never_matched]: the stop word with an
    apostrophe of [NewTextAnalyzer]. *)
Lemma StopWords_never_matched_witness :
  @GetSignificantWords ascii_tables
    {| StopWords := delete "it's" (StopWords NewTextAnalyzer) |}
    "It's late"
  = @GetSignificantWords ascii_tables NewTextAnalyzer "It's late".
Proof.
  apply (@StopWords_never_matched ascii_tables NewTextAnalyzer "it's").
  right. exists "'"%char. vm_compute. tauto.
Defined.

(** ** AnalyzeText *)

Lemma length_string_of_list_ascii (l : list ascii) :
  String.length (string_of_list_ascii l) = length l.
Proof. induction l as [|c l IH]; cbn; congruence. Qed.

Lemma list_sum_cons (n : nat) (l : list nat) :
  list_sum (n :: l) = (n + list_sum l)%nat.
Proof. reflexivity. Qed.

(** The segments of [Split] hold no more bytes than the string. *)
Lemma split_go_bytes (sep : string) (s : string) :
  forall (skip : nat) (cur : list ascii),
    (list_sum (map String.length (split_go sep skip cur s))
     <= length cur + String.length s)%nat.
Proof.
  induction s as [|b s IH]; intros skip cur; cbn [split_go].
  - cbn. rewrite length_string_of_list_ascii, length_rev. lia.
  - destruct skip as [|k].
    + destruct (String.prefix sep (String b s)).
      * cbn [map]. rewrite list_sum_cons.
        rewrite length_string_of_list_ascii, length_rev.
        specialize (IH (Nat.pred (String.length sep)) []).
        cbn [length String.length] in *. lia.
      * specialize (IH 0%nat (b :: cur)).
        cbn [length String.length] in *. lia.
    + specialize (IH k cur). cbn [String.length]. lia.
Qed.

Lemma int32_small (x : Z) : 0 <= x < 2 ^ 31 -> int32 x = x.
Proof. intros Hx. unfold int32. rewrite Z.mod_small; lia. Qed.

(** X21. On a content of less than 2^31 bytes the three counts of
    [AnalyzeText] are exact: the number of bytes, the number of fields and
    the number of segments between blank lines that are not blank; none is
    negative, and neither the paragraphs nor the words outnumber the
    bytes. *)
Theorem AnalyzeText_counts (a : TextAnalyzer) (content : string) :
  len_string content < 2 ^ 31 ->
  let '(paragraphCount, wordCount, characterCount) := AnalyzeText a content in
  characterCount = len_string content
  /\ wordCount = len (Fields content)
  /\ paragraphCount
     = len (List.filter (fun p => negb (String.eqb (TrimSpace p) ""))
                        (Split content nl2))
  /\ 0 <= paragraphCount <= characterCount
  /\ 0 <= wordCount <= characterCount.
Proof.
  intros Hsize. unfold AnalyzeText. fold nl2.
  set (paragraphs := List.filter _ (Split content nl2)).
  assert (Hwords : len (Fields content) <= len_string content).
  { destruct (Fields_words content) as (_ & Hl & _).
    unfold len, len_string. lia. }
  assert (Hparagraphs : len paragraphs <= len_string content).
  { pose proof (split_go_bytes nl2 content 0 []) as Hbytes.
    fold (Split content nl2) in Hbytes. cbn [length] in Hbytes.
    unfold paragraphs, len, len_string.
    enough (Hcount : forall l,
               (length (List.filter
                          (fun p => negb (String.eqb (TrimSpace p) "")) l)
                <= list_sum (map String.length l))%nat)
      by (specialize (Hcount (Split content nl2)); lia).
    induction l as [|p l IH]; [reflexivity|].
    cbn [List.filter map]. rewrite list_sum_cons.
    destruct p as [|c p]; [cbn; lia|].
    destruct (negb _); cbn [length String.length]; lia. }
  assert (H0 : 0 <= len paragraphs /\ 0 <= len (Fields content))
    by (unfold len; lia).
  rewrite !int32_small by lia.
  repeat split; lia.
Qed.

(** An instance of [AnalyzeText_counts]. *)
Lemma AnalyzeText_counts_witness :
  let '(paragraphCount, wordCount, characterCount) :=
    AnalyzeText NewTextAnalyzer ("one two" +:+ nl2 +:+ "three") in
  characterCount = 14
  /\ wordCount = len (Fields ("one two" +:+ nl2 +:+ "three"))
  /\ paragraphCount
     = len (List.filter (fun p => negb (String.eqb (TrimSpace p) ""))
                        (Split ("one two" +:+ nl2 +:+ "three") nl2))
  /\ 0 <= paragraphCount <= characterCount
  /\ 0 <= wordCount <= characterCount.
Proof.
  apply (AnalyzeText_counts NewTextAnalyzer ("one two" +:+ nl2 +:+ "three")).
  vm_compute. reflexivity.
Defined.

(** ** Decoding next to a boundary *)

Lemma append_nil_l (t : string) : "" +:+ t = t.
Proof. reflexivity. Qed.

Lemma append_cons (c : ascii) (s t : string) :
  String c s +:+ t = String c (s +:+ t).
Proof. reflexivity. Qed.

Lemma in_range_cont (lo hi : Z) (c : ascii) :
  128 <= lo -> hi <= 191 -> cont c = false -> in_range lo hi c = false.
Proof.
  unfold cont, in_range. intros Hlo Hhi.
  rewrite !andb_false_iff, !Z.leb_gt. lia.
Qed.

Lemma second_byte_bounds (v0 : Z) :
  let bounds := if v0 =? 224 then (160, 191)
                else if v0 =? 237 then (128, 159)
                else if v0 =? 240 then (144, 191)
                else if v0 =? 244 then (128, 143)
                else (128, 191) in
  128 <= fst bounds /\ snd bounds <= 191.
Proof.
  cbn zeta.
  repeat match goal with
         | |- context [if ?c then _ else _] => destruct c
         end; cbn; lia.
Qed.

(** What follows a string, when it is a boundary, does not change the
    first rune decoded from the string, which lies within the string. *)
Lemma DecodeRuneInString_local (x post rest : string) :
  x <> "" -> boundary post -> boundary rest ->
  DecodeRuneInString (x +:+ post) = DecodeRuneInString (x +:+ rest)
  /\ (1 <= snd (DecodeRuneInString (x +:+ post)) <= String.length x)%nat.
Proof.
  intros Hx Hpost Hrest.
  destruct x as [|b0 x]; [contradiction Hx; reflexivity|clear Hx].
  change (String b0 x +:+ post) with (String b0 (x +:+ post)).
  change (String b0 x +:+ rest) with (String b0 (x +:+ rest)).
  unfold DecodeRuneInString.
  destruct (byte_val b0 <? 128); [cbn; split; [reflexivity|lia]|].
  destruct ((byte_val b0 <? 194) || (244 <? byte_val b0));
    [cbn; split; [reflexivity|lia]|].
  pose proof (second_byte_bounds (byte_val b0)) as Hb. cbn zeta in Hb.
  destruct (if byte_val b0 =? 224 then (160, 191)
            else if byte_val b0 =? 237 then (128, 159)
            else if byte_val b0 =? 240 then (144, 191)
            else if byte_val b0 =? 244 then (128, 143)
            else (128, 191)) as [lo hi].
  cbn [fst snd] in Hb. destruct Hb as [Hlo Hhi].
  destruct x as [|b1 x].
  { rewrite !append_nil_l. cbn [String.length].
    destruct post as [|c1 post], rest as [|c2 rest]; cbn in Hpost, Hrest;
      rewrite ?(in_range_cont lo hi _ Hlo Hhi Hpost),
              ?(in_range_cont lo hi _ Hlo Hhi Hrest);
      cbn; split; (reflexivity || lia). }
  rewrite !append_cons. cbv beta iota.
  destruct (negb (in_range lo hi b1)); [cbn; split; [reflexivity|lia]|].
  destruct (byte_val b0 <? 224); [cbn; split; [reflexivity|lia]|].
  destruct x as [|b2 x].
  { rewrite !append_nil_l. cbn [String.length].
    destruct post as [|c1 post], rest as [|c2 rest]; cbn in Hpost, Hrest;
      rewrite ?Hpost, ?Hrest; cbn; split; (reflexivity || lia). }
  rewrite !append_cons. cbv beta iota.
  destruct (negb (cont b2)); [cbn; split; [reflexivity|lia]|].
  destruct (byte_val b0 <? 240); [cbn; split; [reflexivity|lia]|].
  destruct x as [|b3 x].
  { rewrite !append_nil_l. cbn [String.length].
    destruct post as [|c1 post], rest as [|c2 rest]; cbn in Hpost, Hrest;
      rewrite ?Hpost, ?Hrest; cbn; split; (reflexivity || lia). }
  rewrite !append_cons. cbv beta iota.
  destruct (negb (cont b3)); cbn; split; (reflexivity || lia).
Qed.

Lemma append_nil_r (s : string) : s +:+ "" = s.
Proof. induction s as [|c s IH]; [reflexivity|]. rewrite append_cons, IH. reflexivity. Qed.

Lemma append_assoc (s t u : string) : (s +:+ t) +:+ u = s +:+ (t +:+ u).
Proof.
  induction s as [|c s IH]; [reflexivity|]. rewrite !append_cons, IH. reflexivity.
Qed.

Lemma length_append (s t : string) :
  String.length (s +:+ t) = (String.length s + String.length t)%nat.
Proof.
  induction s as [|c s IH]; [reflexivity|].
  rewrite append_cons. cbn [String.length]. rewrite IH. reflexivity.
Qed.

(** A string cut after its first [n] bytes. *)
Lemma substring_cut (n : nat) (s : string) :
  (n <= String.length s)%nat ->
  exists t, s = substring 0 n s +:+ t
            /\ String.length (substring 0 n s) = n.
Proof.
  revert s. induction n as [|n IH]; intros s Hn.
  - exists s. destruct s; split; reflexivity.
  - destruct s as [|c s]; [cbn in Hn; lia|].
    destruct (IH s) as (t & Ht & Hl); [cbn in Hn; lia|].
    exists t. cbn [substring]. rewrite append_cons, <- Ht.
    cbn [String.length]. rewrite Hl. split; reflexivity.
Qed.

Lemma substring_prefix (x t : string) :
  substring 0 (String.length x) (x +:+ t) = x.
Proof.
  induction x as [|c x IH]; [destruct t; reflexivity|].
  rewrite append_cons. cbn [String.length substring]. rewrite IH. reflexivity.
Qed.

Lemma range_from_skip (x t : string) :
  range_from (String.length x) (x +:+ t) = range_from 0 t.
Proof.
  induction x as [|c x IH]; [reflexivity|].
  rewrite append_cons. cbn [String.length range_from]. exact IH.
Qed.

(** One step of [range]: the first rune and the runes of what follows its
    bytes. *)
Lemma range_from_decode (bs t : string) (r : rune) :
  bs <> "" ->
  DecodeRuneInString (bs +:+ t) = (r, String.length bs) ->
  range_from 0 (bs +:+ t) = (r, bs) :: range_from 0 t.
Proof.
  intros Hbs Hdec. destruct bs as [|b bs]; [contradiction Hbs; reflexivity|].
  rewrite append_cons in Hdec |- *. cbn [range_from]. rewrite Hdec.
  rewrite <- append_cons, substring_prefix.
  cbn [String.length Nat.pred]. rewrite range_from_skip. reflexivity.
Qed.

(** The runes of a string followed by a boundary are the runes of the
    string, then those of what follows. *)
Lemma range_from_boundary (n : nat) :
  forall x rest : string,
    (String.length x <= n)%nat -> boundary rest ->
    range_from 0 (x +:+ rest) = range_from 0 x ++ range_from 0 rest.
Proof.
  induction n as [|n IH]; intros x rest Hlen Hrest.
  - destruct x; [reflexivity|cbn in Hlen; lia].
  - destruct (string_dec x "") as [->|Hx]; [reflexivity|].
    destruct (DecodeRuneInString_local x rest "" Hx Hrest I) as [Heq Hw].
    rewrite append_nil_r in Heq.
    destruct (DecodeRuneInString (x +:+ rest)) as [r w] eqn:Hdec.
    cbn [snd] in Hw.
    destruct (substring_cut w x) as (t & Hcut & Hwl); [lia|].
    set (bs := substring 0 w x) in *.
    assert (Hbs : bs <> "") by (intros Hbs; rewrite Hbs in Hwl; cbn in Hwl; lia).
    rewrite Hcut, append_assoc.
    rewrite (range_from_decode bs (t +:+ rest) r Hbs)
      by (rewrite <- append_assoc, <- Hcut, Hwl; exact Hdec).
    rewrite (range_from_decode bs t r Hbs)
      by (rewrite <- Hcut, Hwl; symmetry; exact Heq).
    rewrite IH; [reflexivity| |exact Hrest].
    apply (f_equal String.length) in Hcut. rewrite length_append in Hcut. lia.
Qed.

(** The bytes of the runes of a string are the string. *)
Lemma range_from_bytes (n : nat) :
  forall x : string,
    (String.length x <= n)%nat ->
    foldr (fun rb acc => snd rb +:+ acc) "" (range_from 0 x) = x.
Proof.
  induction n as [|n IH]; intros x Hlen.
  - destruct x; [reflexivity|cbn in Hlen; lia].
  - destruct (string_dec x "") as [->|Hx]; [reflexivity|].
    destruct (DecodeRuneInString_local x "" "" Hx I I) as [_ Hw].
    rewrite append_nil_r in Hw.
    destruct (DecodeRuneInString x) as [r w] eqn:Hdec. cbn [snd] in Hw.
    destruct (substring_cut w x) as (t & Hcut & Hwl); [lia|].
    set (bs := substring 0 w x) in *.
    assert (Hbs : bs <> "") by (intros Hbs; rewrite Hbs in Hwl; cbn in Hwl; lia).
    rewrite Hcut at 1.
    rewrite (range_from_decode bs t r Hbs)
      by (rewrite <- Hcut, Hwl; exact Hdec).
    cbn [foldr snd]. rewrite IH; [symmetry; exact Hcut|].
    apply (f_equal String.length) in Hcut. rewrite length_append in Hcut. lia.
Qed.

(** A rune that is white space is decoded from bytes that start a
    boundary. *)
Lemma space_boundary (x : string) :
  x <> "" -> IsSpace (fst (DecodeRuneInString x)) = true -> boundary x.
Proof.
  destruct x as [|b x]; [intros Hx; contradiction Hx; reflexivity|intros _].
  unfold DecodeRuneInString, boundary, cont, in_range.
  destruct (Z.ltb_spec (byte_val b) 128) as [Hlow|Hhigh].
  - intros _. apply andb_false_iff. left. apply Z.leb_gt. exact Hlow.
  - destruct (Z.ltb_spec (byte_val b) 194) as [H194|H194]; cbn [orb];
      [intros Hsp; vm_compute in Hsp; discriminate Hsp|].
    intros _. apply andb_false_iff. right. apply Z.leb_gt. lia.
Qed.

(** ** Fields of joined words *)

Lemma fields_go_run (rs : list (rune * string)) :
  Forall (fun rb => IsSpace (fst rb) = false) rs ->
  forall (cur : option string) (tail : list (rune * string)),
    fields_go cur (rs ++ tail)
    = fields_go (match rs with
                 | [] => cur
                 | _ => Some (default "" cur
                              +:+ foldr (fun rb acc => snd rb +:+ acc) "" rs)
                 end) tail.
Proof.
  induction 1 as [|[r bs] rs Hr Hrs IH]; intros cur tail; [reflexivity|].
  cbn [app fields_go fst] in *. rewrite Hr, IH.
  destruct rs as [|rb rs]; cbn [foldr snd].
  - rewrite append_nil_r. reflexivity.
  - change (default "" (Some (default "" cur +:+ bs)))
      with (default "" cur +:+ bs).
    rewrite append_assoc. reflexivity.
Qed.

(** Every field of a string is a word that [Fields] returns alone. *)
Lemma fields_go_field_like (n : nat) :
  forall (s : string) (cur : option string),
    (String.length s <= n)%nat ->
    match cur with
    | None => True
    | Some w =>
      w <> ""
      /\ exists rs, Forall (fun rb => IsSpace (fst rb) = false) rs
                    /\ range_from 0 (w +:+ s) = rs ++ range_from 0 s
    end ->
    Forall field_like (fields_go cur (range_from 0 s)).
Proof.
  induction n as [|n IH]; intros s cur Hlen Hcur.
  - destruct s; [|cbn in Hlen; lia]. cbn [range_from fields_go].
    destruct cur as [w|]; [|constructor].
    destruct Hcur as (Hw & rs & Hrs & Hrange).
    rewrite append_nil_r, app_nil_r in Hrange.
    constructor; [|constructor]. split; [exact Hw|].
    unfold range_string. rewrite Hrange. exact Hrs.
  - destruct (string_dec s "") as [->|Hs]; [apply (IH "" cur); [cbn; lia|exact Hcur]|].
    destruct (DecodeRuneInString_local s "" "" Hs I I) as [_ Hw].
    rewrite append_nil_r in Hw.
    destruct (DecodeRuneInString s) as [r w] eqn:Hdec. cbn [snd] in Hw.
    destruct (substring_cut w s) as (t & Hcut & Hwl); [lia|].
    set (bs := substring 0 w s) in *.
    assert (Hbs : bs <> "") by (intros Hbs; rewrite Hbs in Hwl; cbn in Hwl; lia).
    assert (Hstep : range_from 0 s = (r, bs) :: range_from 0 t).
    { rewrite Hcut at 1. apply range_from_decode; [exact Hbs|].
      rewrite <- Hcut, Hwl. exact Hdec. }
    assert (Ht : (String.length t <= n)%nat).
    { apply (f_equal String.length) in Hcut. rewrite length_append in Hcut. lia. }
    rewrite Hstep. cbn [fields_go].
    destruct (IsSpace r) eqn:Hspace.
    + assert (Hb : boundary s)
        by (apply space_boundary; [exact Hs|rewrite Hdec; exact Hspace]).
      destruct cur as [cw|]; [|apply IH; [exact Ht|exact I]].
      destruct Hcur as (Hcw & rs & Hrs & Hrange).
      constructor; [|apply IH; [exact Ht|exact I]].
      split; [exact Hcw|].
      rewrite (range_from_boundary (String.length cw) cw s) in Hrange
        by (lia || exact Hb).
      apply app_inv_tail in Hrange. unfold range_string.
      rewrite Hrange. exact Hrs.
    + apply IH; [exact Ht|].
      split; [apply append_nonempty; exact Hbs|].
      destruct cur as [cw|]; cbn [default id].
      * destruct Hcur as (Hcw & rs & Hrs & Hrange).
        exists (rs ++ [(r, bs)]). split.
        -- apply Forall_app. split; [exact Hrs|].
           constructor; [exact Hspace|constructor].
        -- rewrite append_assoc, <- Hcut, Hrange, Hstep, <- app_assoc.
           reflexivity.
      * exists [(r, bs)]. split; [constructor; [exact Hspace|constructor]|].
        rewrite append_nil_l, <- Hcut. exact Hstep.
Qed.

Lemma Fields_field_like (s : string) : Forall field_like (Fields s).
Proof.
  apply (fields_go_field_like (String.length s) s None); [lia|exact I].
Qed.

(** A word that stands alone before a boundary is the field being read
    when the boundary is reached. *)
Lemma fields_go_word (w rest : string) :
  field_like w -> boundary rest ->
  fields_go None (range_from 0 (w +:+ rest))
  = fields_go (Some w) (range_from 0 rest).
Proof.
  intros [Hw Hrs] Hrest.
  rewrite (range_from_boundary (String.length w)) by (lia || exact Hrest).
  rewrite fields_go_run by exact Hrs.
  pose proof (range_from_bytes (String.length w) w ltac:(lia)) as Hbytes.
  destruct (range_from 0 w) as [|rb rs] eqn:Hrange.
  - cbn in Hbytes. contradiction Hw. symmetry. exact Hbytes.
  - rewrite Hbytes. reflexivity.
Qed.

(** Joining such words with single spaces and taking the fields of the
    result gives the words back. *)
Lemma Fields_Join (words : list string) :
  Forall field_like words -> Fields (Join words " ") = words.
Proof.
  unfold Fields, range_string, Join.
  induction 1 as [|w words Hw Hwords IH]; [reflexivity|].
  destruct words as [|w' words].
  - cbn [String.concat]. rewrite <- (append_nil_r w) at 1.
    rewrite fields_go_word by (exact Hw || exact I). reflexivity.
  - change (String.concat " " (w :: w' :: words))
      with (w +:+ String " " (String.concat " " (w' :: words))).
    rewrite fields_go_word by (exact Hw || reflexivity).
    cbn [range_from]. change (DecodeRuneInString (String " " ?t))
      with (32, 1%nat).
    cbn [Nat.pred fields_go]. change (IsSpace 32) with true.
    cbv beta iota. rewrite IH. reflexivity.
Qed.

(** ** The normalized text *)

Lemma word_no_re_space (w : string) :
  word_ok w ->
  forall b, In b (list_ascii_of_string w) -> re_space b = false.
Proof.
  intros [_ Hw] b Hb. destruct (re_space b) eqn:Hre; [|reflexivity].
  unfold re_space in Hre.
  assert (Hlow : byte_val b < 128).
  { rewrite !orb_true_iff, !Z.eqb_eq in Hre. lia. }
  assert (Hsp : IsSpace (byte_val b) = true).
  { rewrite !orb_true_iff, !Z.eqb_eq in Hre.
    destruct Hre as [[[[Hv|Hv]|Hv]|Hv]|Hv]; rewrite Hv; reflexivity. }
  rewrite (Hw b Hb Hlow) in Hsp. discriminate Hsp.
Qed.

(** [replace_runs] copies a word. *)
Lemma replace_runs_word (w rest : string) (in_run : bool) :
  w <> "" ->
  (forall b, In b (list_ascii_of_string w) -> re_space b = false) ->
  replace_runs " " in_run (w +:+ rest) = w +:+ replace_runs " " false rest.
Proof.
  revert in_run. induction w as [|c w IH]; intros in_run Hw Hbytes;
    [contradiction Hw; reflexivity|].
  rewrite !append_cons. cbn [replace_runs].
  rewrite (Hbytes c) by (left; reflexivity).
  destruct (string_dec w "") as [->|Hne]; [reflexivity|].
  rewrite (IH false Hne); [reflexivity|].
  intros b Hb. apply Hbytes. right. exact Hb.
Qed.

Lemma replace_runs_Join (words : list string) :
  Forall word_ok words ->
  forall in_run, replace_runs " " in_run (Join words " ") = Join words " ".
Proof.
  unfold Join.
  induction 1 as [|w words Hw Hwords IH]; intros in_run; [reflexivity|].
  destruct words as [|w' words].
  - cbn [String.concat]. rewrite <- (append_nil_r w) at 1.
    rewrite replace_runs_word by (apply Hw || apply word_no_re_space, Hw).
    cbn [replace_runs]. apply append_nil_r.
  - change (String.concat " " (w :: w' :: words))
      with (w +:+ String " " (String.concat " " (w' :: words))).
    rewrite replace_runs_word by (apply Hw || apply word_no_re_space, Hw).
    cbn [replace_runs]. change (re_space " ") with true. cbv beta iota.
    rewrite IH. reflexivity.
Qed.

(** X22. The normalized text is the significant words joined by single
    spaces: the white-space normalization changes nothing there, and the
    fields of the normalized text are the significant words again, so the
    n-grams that are compared are windows of significant words. *)
Theorem preprocessText_words `{UnicodeTables} (c : PlagiarismChecker)
  (text : string) :
  let significantWords := GetSignificantWords (textAnalyzer c) text in
  preprocessText c text = Join significantWords " "
  /\ Fields (preprocessText c text) = significantWords
  /\ forall n, 0 <= n ->
       GetNGrams (textAnalyzer c) (preprocessText c text) n
       = Some (if len significantWords <? n then []
               else map (fun k => Join (take (Z.to_nat n)
                                             (drop k significantWords)) " ")
                        (seq 0 (Z.to_nat (len significantWords - n + 1)))).
Proof.
  cbn zeta.
  assert (Hnorm : preprocessText c text
                  = Join (GetSignificantWords (textAnalyzer c) text) " ").
  { unfold preprocessText, RemoveExcessWhitespace.
    apply replace_runs_Join. unfold GetSignificantWords.
    apply List.Forall_forall. intros w Hw. apply filter_In in Hw as [Hw _].
    destruct (Fields_words
                (String.concat ""
                   (map (fun rb : rune * string =>
                           if negb (IsPunct (fst rb)) then EncodeRune (fst rb)
                           else " ")
                        (range_string (ToLower text))))) as [Hall _].
    rewrite List.Forall_forall in Hall. apply Hall, Hw. }
  assert (Hfields : Fields (preprocessText c text)
                    = GetSignificantWords (textAnalyzer c) text).
  { rewrite Hnorm. apply Fields_Join. unfold GetSignificantWords.
    apply List.Forall_forall. intros w Hw. apply filter_In in Hw as [Hw _].
    pose proof (Fields_field_like
                  (String.concat ""
                     (map (fun rb : rune * string =>
                             if negb (IsPunct (fst rb)) then EncodeRune (fst rb)
                             else " ")
                          (range_string (ToLower text))))) as Hall.
    rewrite List.Forall_forall in Hall. apply Hall, Hw. }
  split; [exact Hnorm|]. split; [exact Hfields|].
  intros n Hn. rewrite GetNGrams_spec by exact Hn. rewrite Hfields.
  reflexivity.
Qed.

(** An instance of [preprocessText_words]. *)
Lemma preprocessText_words_witness :
  GetNGrams NewTextAnalyzer
    (@preprocessText ascii_tables NewPlagiarismChecker
       "The quick, brown fox: it jumps!") 3
  = Some ["quick brown fox"; "brown fox jumps"].
Proof.
  destruct (@preprocessText_words ascii_tables NewPlagiarismChecker
              "The quick, brown fox: it jumps!") as (_ & _ & Hgrams).
  etransitivity; [apply (Hgrams 3); lia|vm_compute; reflexivity].
Defined.

(** ** The clients of the gateway, evaluated *)

Example client_recovers :
  let '(r, w, tr) :=
    exec Gateway.flaky (Gateway.GetFile "file-1")
      ([Gateway.status_error Gateway.Unavailable "connection refused";
        Gateway.status_error Gateway.DeadlineExceeded "deadline"], 0) in
  r = Some (inl ("notes.txt", "Hello"))
  /\ snd w = 3 * Gateway.Second /\ length tr = 5%nat.
Proof. vm_compute. repeat split. Qed.

Example client_gives_up :
  let unavailable := Gateway.status_error Gateway.Unavailable "down" in
  let '(r, w, tr) :=
    exec Gateway.flaky (Gateway.UploadFile "notes.txt" "Hello")
      ([unavailable; unavailable; unavailable; unavailable], 0) in
  r = Some (inr (Gateway.wrap "failed to upload file after 3 attempts"
                   unavailable))
  /\ snd w = 3 * Gateway.Second /\ length tr = 5%nat.
Proof. vm_compute. repeat split. Qed.

Example client_fails_at_once :
  let missing := Gateway.status_error Gateway.NotFound "no such file" in
  let '(r, w, tr) :=
    exec Gateway.flaky (Gateway.GetWordCloud "cloud.png") ([missing], 0) in
  r = Some (inr (Gateway.wrap "failed to get word cloud" missing))
  /\ snd w = 0 /\ length tr = 1%nat.
Proof. vm_compute. repeat split. Qed.

Example upload_twice :
  let first := exec Storage.mem (Storage.UploadFile "notes.txt" "Hello")
                 Storage.empty in
  let second := exec Storage.mem (Storage.UploadFile "copy.txt" "Hello")
                  (snd (fst first)) in
  fst (fst first) = Some (Ok "0b7e9b1c-0001")
  /\ fst (fst second) = Some (Ok "0b7e9b1c-0001")
  /\ Storage.row_writes (snd second) = []
  /\ fst (fst (exec Storage.mem (Storage.GetFile "0b7e9b1c-0001")
                 (snd (fst second))))
     = Some (Ok ("notes.txt", "Hello")).
Proof. vm_compute. repeat split. Qed.

(** ** The handlers, evaluated *)

Example Ext_table :
  map Handlers.Ext ["notes.txt"; "notes.TXT"; "archive.txt.gz"; ".txt";
                    "dir.txt/notes"; "notes"; "a.b/c.txt"]
  = [".txt"; ".TXT"; ".gz"; ".txt"; ""; ""; ".txt"].
Proof. vm_compute. reflexivity. Qed.

(* ===================================================================== *)
(** * Properties of the clients of the gateway                            *)
(* ===================================================================== *)

Lemma exec_and_then {E W A B} (h : Answers E W) (m : Proc E A)
  (f : A -> Proc E B) :
  forall w : W,
    exec h (and_then m f) w
    = let '(a, w1, tr1) := exec h m w in
      match a with
      | Some x => let '(b, w2, tr2) := exec h (f x) w1 in (b, w2, tr1 ++ tr2)
      | None => (None, w1, tr1)
      end.
Proof.
  induction m as [a| |X op k IH]; intros w; cbn [and_then exec].
  - destruct (exec h (f a) w) as [[b w2] tr2]. reflexivity.
  - reflexivity.
  - destruct (h X op w) as [x w1]. rewrite IH.
    destruct (exec h (k x) w1) as [[[a|] w2] tr1]; [|reflexivity].
    destruct (exec h (f a) w2) as [[b w3] tr2]. reflexivity.
Qed.

(** The test of the loop on an error: it returns at once unless the error
    is transient. *)
Lemma FromError_transient (err : Gateway.rpc_error) :
  (let '(code, ok) := Gateway.FromError err in
   negb ok || (negb (Gateway.is_Unavailable code)
               && negb (Gateway.is_DeadlineExceeded code)))
  = negb (Gateway.transient err).
Proof. destruct err as [[] msg|msg]; reflexivity. Qed.

(** The loop of the four methods, in closed form. *)
Lemma exec_retrying {W R} (h : Answers Gateway.Op W)
  (call : Gateway.Op (Gateway.reply R)) (what : string) (w : W) :
  exists x w' tr failed answer,
    exec h (Gateway.retrying call what) w = (Some x, w', tr)
    /\ Forall (fun err => Gateway.transient err = true) failed
    /\ (length failed <= 2)%nat
    /\ tr = Gateway.backoff call failed ++ [Called call answer]
    /\ match answer with
       | Gateway.Reply resp => x = Gateway.Break resp
       | Gateway.Failure err =>
         if Gateway.transient err
         then length failed = 2%nat
              /\ x = Gateway.ReturnErr
                       (Gateway.wrap (what +:+ " after 3 attempts") err)
         else x = Gateway.ReturnErr (Gateway.wrap what err)
       end.
Proof.
  unfold Gateway.retrying. change (Z.to_nat 3) with 3%nat.
  cbn [Gateway.retry exec].
  destruct (h _ call w) as [[resp1|err1] w1].
  { cbn [exec]. eexists _, w1, _, [], (Gateway.Reply resp1).
    split; [reflexivity|]. split; [constructor|].
    split; [cbn; lia|]. split; reflexivity. }
  pose proof (FromError_transient err1) as Hcond1.
  destruct (Gateway.FromError err1) as [code1 ok1]. rewrite Hcond1.
  destruct (Gateway.transient err1) eqn:Ht1; cbn [negb].
  2:{ cbn [exec]. eexists _, w1, _, [], (Gateway.Failure err1).
      split; [reflexivity|]. rewrite Ht1. split; [constructor|].
      split; [cbn; lia|]. split; reflexivity. }
  change (0 =? 3 - 1) with false. cbn [exec].
  destruct (h _ (Gateway.Sleep _) w1) as [[] w2].
  destruct (h _ call w2) as [[resp2|err2] w3].
  { cbn [exec]. eexists _, w3, _, [err1], (Gateway.Reply resp2).
    split; [reflexivity|]. split; [repeat constructor; exact Ht1|].
    split; [cbn; lia|]. split; reflexivity. }
  pose proof (FromError_transient err2) as Hcond2.
  destruct (Gateway.FromError err2) as [code2 ok2]. rewrite Hcond2.
  destruct (Gateway.transient err2) eqn:Ht2; cbn [negb].
  2:{ cbn [exec]. eexists _, w3, _, [err1], (Gateway.Failure err2).
      split; [reflexivity|]. rewrite Ht2.
      split; [repeat constructor; exact Ht1|].
      split; [cbn; lia|]. split; reflexivity. }
  change (0 + 1 =? 3 - 1) with false. cbn [exec].
  destruct (h _ (Gateway.Sleep _) w3) as [[] w4].
  destruct (h _ call w4) as [[resp3|err3] w5].
  { cbn [exec]. eexists _, w5, _, [err1; err2],
                       (Gateway.Reply resp3).
    split; [reflexivity|]. split; [repeat constructor; assumption|].
    split; [cbn; lia|]. split; reflexivity. }
  pose proof (FromError_transient err3) as Hcond3.
  destruct (Gateway.FromError err3) as [code3 ok3]. rewrite Hcond3.
  destruct (Gateway.transient err3) eqn:Ht3; cbn [negb].
  - change (0 + 1 + 1 =? 3 - 1) with true. cbn [exec].
    eexists _, w5, _, [err1; err2], (Gateway.Failure err3).
    split; [reflexivity|]. rewrite Ht3.
    split; [repeat constructor; assumption|].
    split; [cbn; lia|]. split; [reflexivity|]. split; reflexivity.
  - cbn [exec]. eexists _, w5, _, [err1; err2], (Gateway.Failure err3).
    split; [reflexivity|]. rewrite Ht3.
    split; [repeat constructor; assumption|].
    split; [cbn; lia|]. split; reflexivity.
Qed.

(** A method built on the loop. *)
Lemma exec_method {W R V} (h : Answers Gateway.Op W)
  (call : Gateway.Op (Gateway.reply R)) (what : string) (value : R -> V)
  (at_end : Proc Gateway.Op (V + Gateway.client_error)) (w : W) :
  exists r w' tr,
    exec h (and_then (Gateway.retrying call what)
              (fun x => match x with
                        | Gateway.Break resp => Done (inl (value resp))
                        | Gateway.ReturnErr e => Done (inr e)
                        | Gateway.LoopEnd => at_end
                        end)) w
    = (Some r, w', tr)
    /\ Gateway.retried call what value r tr.
Proof.
  destruct (exec_retrying h call what w)
    as (x & w' & tr & failed & answer & Hexec & Hfailed & Hlen & Htr & Hx).
  rewrite exec_and_then, Hexec. unfold Gateway.retried.
  destruct answer as [resp|err].
  - subst x. cbn [exec]. eexists _, w', _. split; [reflexivity|].
    exists failed, (Gateway.Reply resp). rewrite app_nil_r.
    repeat split; assumption.
  - destruct (Gateway.transient err) eqn:Ht.
    + destruct Hx as [Hl ->]. cbn [exec]. eexists _, w', _.
      split; [reflexivity|].
      exists failed, (Gateway.Failure err). rewrite app_nil_r, Ht.
      repeat split; assumption.
    + subst x. cbn [exec]. eexists _, w', _. split; [reflexivity|].
      exists failed, (Gateway.Failure err). rewrite app_nil_r, Ht.
      repeat split; assumption.
Qed.

(** X23. [FileStoringClient.UploadFile] and [GetFile] never panic and call
    the stub at most three times: after an error with the code Unavailable
    or DeadlineExceeded they sleep, one second and then two, and try
    again; the first response is returned; the first error of another
    kind is returned wrapped, at once; the third transient error is
    returned wrapped with the words after 3 attempts, with no sleep
    before. *)
Theorem FileStoringClient_retries {W : Type} (h : Answers Gateway.Op W)
  (w : W) :
  (forall fileName content,
     exists r w' tr,
       exec h (Gateway.UploadFile fileName content) w = (Some r, w', tr)
       /\ Gateway.retried (Gateway.client_UploadFile fileName content)
            "failed to upload file" (fun fileId => fileId) r tr)
  /\ (forall fileID,
        exists r w' tr,
          exec h (Gateway.GetFile fileID) w = (Some r, w', tr)
          /\ Gateway.retried (Gateway.client_GetFile fileID)
               "failed to get file" (fun resp => resp) r tr).
Proof.
  split; intros; apply exec_method.
Qed.

(** X24. [FileAnalysisClient.AnalyzeFile] and [GetWordCloud] follow the
    same discipline: at most three calls of the stub, a sleep of one second
    and then of two after a transient error, the first response or the
    deciding error returned; a response that [AnalyzeFile] returns without
    error is never nil. *)
Theorem FileAnalysisClient_retries {W : Type} (h : Answers Gateway.Op W)
  (w : W) :
  (forall fileID generateWordCloud,
     exists r w' tr,
       exec h (Gateway.AnalyzeFile fileID generateWordCloud) w
       = (Some r, w', tr)
       /\ Gateway.retried
            (Gateway.client_AnalyzeFile fileID generateWordCloud)
            "failed to analyze file" Some r tr)
  /\ (forall location,
        exists r w' tr,
          exec h (Gateway.GetWordCloud location) w = (Some r, w', tr)
          /\ Gateway.retried (Gateway.client_GetWordCloud location)
               "failed to get word cloud" (fun image => image) r tr).
Proof.
  split; intros; apply exec_method.
Qed.

(** The attempts and the sleeps of calls that follow the discipline. *)
Lemma retried_bounded {R V} (call : Gateway.Op (Gateway.reply R))
  (what : string) (value : R -> V) (r : V + Gateway.client_error)
  (tr : list (Step Gateway.Op)) :
  (forall x, Gateway.failure_of (Called call x)
             = Some (match x with
                     | Gateway.Reply _ => None
                     | Gateway.Failure err => Some err
                     end)) ->
  (forall x, Gateway.sleep_of (Called call x) = None) ->
  Gateway.retried call what value r tr ->
  (1 <= length (Gateway.attempts tr) <= 3)%nat
  /\ Gateway.sleeps tr
     = take (length (Gateway.attempts tr) - 1)
            [Gateway.Second; 2 * Gateway.Second]
  /\ (last (Gateway.attempts tr) = Some None <-> exists v, r = inl v).
Proof.
  intros Hfail Hsleep (failed & answer & Hfailed & Hlen & -> & Hr).
  unfold Gateway.attempts, Gateway.sleeps, Gateway.backoff.
  assert (Hlast : match answer with
                  | Gateway.Reply _ => None
                  | Gateway.Failure err => Some err
                  end = None <-> exists v, r = inl v).
  { destruct answer as [resp|err].
    - split; [intros _; eauto|reflexivity].
    - split; [discriminate|]. intros [v Hv].
      destruct (Gateway.transient err); [destruct Hr as [_ Hr]|];
        rewrite Hr in Hv; discriminate Hv. }
  destruct failed as [|e1 [|e2 [|e3 failed]]]; [| | |cbn in Hlen; lia];
    cbn [zip_with concat app omap list_omap];
    rewrite ?Hfail, ?Hsleep; cbn [Gateway.failure_of Gateway.sleep_of];
    cbn [length Nat.sub take];
    (split; [lia|]); (split; [reflexivity|]);
    cbn [last]; rewrite <- Hlast;
    (split; [intros [= ->]; reflexivity|intros ->; reflexivity]).
Qed.

(** X25. Whatever the stubs answer, each of the four methods of the
    clients calls its stub between one and three times and sleeps only
    between two calls, one second before the second call and two seconds
    before the third; it returns a value exactly when the last call got a
    response. *)
Theorem clients_attempts_bounded {W : Type} (h : Answers Gateway.Op W)
  (w : W) :
  (forall fileName content,
     Gateway.within_three (exec h (Gateway.UploadFile fileName content) w))
  /\ (forall fileID,
        Gateway.within_three (exec h (Gateway.GetFile fileID) w))
  /\ (forall fileID generateWordCloud,
        Gateway.within_three
          (exec h (Gateway.AnalyzeFile fileID generateWordCloud) w))
  /\ (forall location,
        Gateway.within_three (exec h (Gateway.GetWordCloud location) w)).
Proof.
  assert (Hall : forall R V (call : Gateway.Op (Gateway.reply R)) what
                        (value : R -> V) at_end,
             (forall x, Gateway.failure_of (Called call x)
                        = Some (match x with
                                | Gateway.Reply _ => None
                                | Gateway.Failure err => Some err
                                end)) ->
             (forall x, Gateway.sleep_of (Called call x) = None) ->
             Gateway.within_three
               (exec h (and_then (Gateway.retrying call what)
                          (fun x => match x with
                                    | Gateway.Break resp => Done (inl (value resp))
                                    | Gateway.ReturnErr e => Done (inr e)
                                    | Gateway.LoopEnd => at_end
                                    end)) w)).
  { intros R V call what value at_end Hfail Hsleep.
    destruct (exec_method h call what value at_end w)
      as (r & w' & tr & Hexec & Hretried).
    rewrite Hexec. unfold Gateway.within_three.
    destruct (retried_bounded call what value r tr Hfail Hsleep Hretried)
      as (Hn & Hs & Hlast).
    split; [exact Hn|]. split; [exact Hs|]. rewrite Hlast.
    split; intros [v Hv]; exists v; congruence. }
  repeat split; intros; apply Hall; intros []; reflexivity.
Qed.

(* ===================================================================== *)
(** * Properties of the FileService                                       *)
(* ===================================================================== *)

(** What [UploadFile] has written when it returns an identifier. *)
Lemma UploadFile_written {W : Type} (h : Answers Storage.Op W)
  (fileName content : string) (w w' : W) (fileID : string)
  (tr : list (Step Storage.Op)) :
  exec h (Storage.UploadFile fileName content) w = (Some (Ok fileID), w', tr) ->
  let hashStr := EncodeToString (SHA256.Sum256 content) in
  Storage.row_writes tr = []
  \/ (Storage.row_writes tr = [(fileID, fileName, hashStr, fileID)]
      /\ Storage.content_writes tr = [(fileID, content)]).
Proof.
  unfold Storage.UploadFile. cbn [exec].
  destruct (h _ (Storage.repo_GetFileByHash _) w) as [[known|e] w1];
    cbn [exec]; [|discriminate].
  destruct (String.eqb known ""); cbn [negb exec];
    [|intros [= <- _ <-]; left; reflexivity].
  destruct (h _ Storage.uuid_New w1) as [id w2].
  destruct (h _ (Storage.storage_SaveFile id content) w2) as [[e|] w3];
    cbn [exec]; [discriminate|].
  destruct (h _ (Storage.repo_SaveFile id fileName _ id) w3) as [[e|] w4];
    cbn [exec]; [discriminate|].
  intros [= <- _ <-]. right. split; reflexivity.
Qed.



(** X27. Upload, then read: when [UploadFile] has created a file and the
    repository and the storage answer with what they were last handed, then
    [GetFile] on the identifier returned gives back the name and the
    content that were uploaded. *)
Theorem UploadFile_GetFile {W : Type} (h : Answers Storage.Op W)
  (fileName content fileID : string) (w w1 w2 w3 : W)
  (tr : list (Step Storage.Op)) :
  exec h (Storage.UploadFile fileName content) w = (Some (Ok fileID), w1, tr) ->
  Storage.row_writes tr <> [] ->
  (forall id name hash location,
     In (id, name, hash, location) (Storage.row_writes tr) ->
     h _ (Storage.repo_GetFileByID id) w1 = (Ok (name, location), w2)) ->
  (forall location stored,
     In (location, stored) (Storage.content_writes tr) ->
     h _ (Storage.storage_GetFile location) w2 = (Ok stored, w3)) ->
  exists tr',
    exec h (Storage.GetFile fileID) w1
    = (Some (Ok (fileName, content)), w3, tr').
Proof.
  intros Hup Hfresh Hrepo Hstore.
  destruct (UploadFile_written h fileName content w w1 fileID tr Hup)
    as [Hknown|[Hrow Hcontent]].
  - rewrite Hknown in Hfresh. contradiction Hfresh. reflexivity.
  - unfold Storage.GetFile. cbn [exec].
    rewrite (Hrepo fileID fileName _ fileID) by (rewrite Hrow; left; reflexivity).
    cbn [exec].
    rewrite (Hstore fileID content) by (rewrite Hcontent; left; reflexivity).
    cbn [exec]. eexists. reflexivity.
Qed.

(** An instance of [UploadFile_GetFile]: the files held in memory. *)
Lemma UploadFile_GetFile_witness :
  exists w1 tr tr',
    exec Storage.mem (Storage.UploadFile "notes.txt" "Hello") Storage.empty
    = (Some (Ok "0b7e9b1c-0001"), w1, tr)
    /\ exec Storage.mem (Storage.GetFile "0b7e9b1c-0001") w1
       = (Some (Ok ("notes.txt", "Hello")), w1, tr').
Proof.
  destruct (exec Storage.mem (Storage.UploadFile "notes.txt" "Hello")
              Storage.empty) as [[o w1] tr] eqn:Hup.
  assert (Hrun := Hup). vm_compute in Hrun. injection Hrun as <- <- <-.
  edestruct (UploadFile_GetFile Storage.mem "notes.txt" "Hello"
               "0b7e9b1c-0001" Storage.empty) as [tr' Hget];
    [exact Hup|vm_compute; discriminate| | |].
  - intros id name hash location Hin. vm_compute in Hin.
    destruct Hin as [[= <- <- <- <-]|[]]. vm_compute. reflexivity.
  - intros location stored Hin. vm_compute in Hin.
    destruct Hin as [[= <- <-]|[]]. vm_compute. reflexivity.
  - eexists _, _, tr'. split; [reflexivity|exact Hget].
Defined.

(* ===================================================================== *)
(** * Properties of the handlers                                          *)
(* ===================================================================== *)





(** X29. [FileHandler.GetFile] and [AnalysisHandler.GetWordCloud] never
    panic and answer 200, 400 or 500 only: 400 exactly when the parameter
    is empty, without a call to the client; 500 with the text of the error
    whenever the client fails, a file that does not exist included; 200
    with what the client returned otherwise.  [AnalysisHandler.AnalyzeFile]
    answers 400 when the body cannot be bound, without a call to the
    client, 500 when the client fails, and 200 with the six results of the
    client otherwise; it panics only on a nil response without error. *)
Theorem handlers_status {W : Type} (h : Answers Handlers.Op W) (w : W) :
  (forall fileID,
     exists resp w' tr,
       exec h (Handlers.GetFile fileID) w = (Some resp, w', tr)
       /\ (fileID = "" -> Handlers.status resp = 400 /\ tr = [])
       /\ (fileID <> "" ->
           match fst (h _ (Handlers.client_GetFile fileID) w) with
           | Err err =>
             resp = Handlers.JSON 500 (Handlers.object "error" (Error err))
           | Ok (fileName, content) =>
             Handlers.status resp = 200
             /\ Handlers.body resp
                = Handlers.data "application/octet-stream" content
           end))
  /\ (forall location,
        exists resp w' tr,
          exec h (Handlers.GetWordCloud location) w = (Some resp, w', tr)
          /\ (location = "" -> Handlers.status resp = 400 /\ tr = [])
          /\ (location <> "" ->
              match fst (h _ (Handlers.client_GetWordCloud location) w) with
              | Err err =>
                resp = Handlers.JSON 500 (Handlers.object "error" (Error err))
              | Ok image =>
                Handlers.status resp = 200
                /\ Handlers.body resp = Handlers.data "image/png" image
              end))
  /\ (forall o w' tr,
        exec h Handlers.AnalyzeFile w = (o, w', tr) ->
        match h _ Handlers.ShouldBindJSON w with
        | (Err err, w1) =>
          o = Some (Handlers.JSON 400 (Handlers.object "error" (Error err)))
          /\ tr = [Called Handlers.ShouldBindJSON (Err err)]
        | (Ok request, w1) =>
          match fst (h _ (Handlers.client_AnalyzeFile
                            (Handlers.FileID request)
                            (Handlers.GenerateWordCloud request)) w1) with
          | Err err =>
            o = Some (Handlers.JSON 500
                        (Handlers.object "error" (Error err)))
          | Ok None => o = None
          | Ok (Some resp) =>
            o = Some (Handlers.JSON 200
                        (Handlers.analysis
                           {| Handlers.ParagraphCount :=
                                Gateway.ParagraphCount resp;
                              Handlers.WordCount := Gateway.WordCount resp;
                              Handlers.CharacterCount :=
                                Gateway.CharacterCount resp;
                              Handlers.IsPlagiarism :=
                                Gateway.IsPlagiarism resp;
                              Handlers.SimilarFileIds :=
                                Gateway.SimilarFileIds resp;
                              Handlers.WordCloudLocation :=
                                Gateway.WordCloudLocation resp |}))
          end
        end).
Proof.
  split; [|split].
  3:{ intros o w' tr. unfold Handlers.AnalyzeFile. cbn [exec].
      destruct (h _ Handlers.ShouldBindJSON w) as [[request|e] w1];
        cbn [exec]; [|intros [= <- _ <-]; split; reflexivity].
      destruct (h _ (Handlers.client_AnalyzeFile _ _) w1)
        as [[[resp|]|e] w2]; cbn [exec fst]; intros [= <- _ _]; reflexivity. }
  - intros fileID. unfold Handlers.GetFile.
    destruct (String.eqb_spec fileID "") as [->|Hne]; cbn [exec].
    + eexists _, _, _. split; [reflexivity|].
      split; [intros _; split; reflexivity|]. intros Hne. contradiction Hne.
      reflexivity.
    + destruct (h _ (Handlers.client_GetFile fileID) w) as [[[nm c]|e] w1];
        cbn [exec fst]; eexists _, _, _; (split; [reflexivity|]);
        (split; [intros ->; contradiction Hne; reflexivity|]); intros _.
      * split; reflexivity.
      * reflexivity.
  - intros location. unfold Handlers.GetWordCloud.
    destruct (String.eqb_spec location "") as [->|Hne]; cbn [exec].
    + eexists _, _, _. split; [reflexivity|].
      split; [intros _; split; reflexivity|]. intros Hne. contradiction Hne.
      reflexivity.
    + destruct (h _ (Handlers.client_GetWordCloud location) w)
        as [[image|e] w1];
        cbn [exec fst]; eexists _, _, _; (split; [reflexivity|]);
        (split; [intros ->; contradiction Hne; reflexivity|]); intros _.
      * split; reflexivity.
      * reflexivity.
Qed.

(** An instance of [handlers_status]: a file that the storage does not
    hold is answered with 500. *)
Lemma handlers_status_witness :
  exists w' tr,
    exec (Handlers.one_file "notes.txt" "Hello") (Handlers.GetFile "file-9") tt
    = (Some (Handlers.JSON 500
               (Handlers.object "error" "file not found with id file-9")),
       w', tr).
Proof.
  destruct (handlers_status (Handlers.one_file "notes.txt" "Hello") tt)
    as (Hget & _ & _).
  destruct (Hget "file-9") as (resp & w' & tr & Hexec & _ & Hresp).
  exists w', tr. rewrite Hexec. rewrite Hresp by discriminate. reflexivity.
Defined.
